(** * AntiAlgo / curiosity-intelligence: scoring pipeline core

    A shallow embedding of the signal-detection core of the
    curiosity-intelligence package and the properties its specification
    states about it:

    - [curiosity_intelligence/analysis/signal_detector.py]
    - [curiosity_intelligence/processing/clusterer.py]
    - [curiosity_intelligence/processing/embedder.py]
    - [curiosity_intelligence/processing/normalizer.py]
    - [curiosity_intelligence/database/db.py] (the historical counts)
    - [run_full_pipeline.py] (the embedding, clustering and detection steps)

    Conventions of the embedding.
    - Python [int] is [Z]; Python [float] is modelled by exact rationals [Q]
      (the code only uses [+ - * /], [min], [max] and comparisons against
      decimal constants, under which the rationals are closed), so rounding
      of IEEE doubles is not part of the model.  The range of a double is
      part of it: an int division whose quotient the code does not bound
      raises [OverflowError] when the quotient rounds beyond the largest
      double.
    - Python [str] is [string], read as a sequence of code points below 256.
    - A Python [dict] used as a map is a [gmap]; [list] is [list].
    - A call that may raise returns a [result]; the detector instance is
      passed explicitly and returned where a method assigns to [self]. *)

From Stdlib Require Import ZArith QArith Qminmax Lqa Lia List Permutation Sorted.
From Stdlib Require Import Ascii String.
From stdpp Require Import base option list gmap strings.

Set Default Proof Using "Type".

(* ===================================================================== *)
(** * Part I: the embedding                                               *)
(* ===================================================================== *)

(** ** Python prelude: exceptions, dynamic values, numbers, strings *)

Module Py.

Inductive exn : Type :=
| KeyError (key : string)
| IndexError
| ZeroDivisionError
| OverflowError  (* an int quotient too large for a float *)
| TypeError      (* a value of the wrong dynamic type *)
| LibraryError   (* raised inside an external library call *).

Inductive result (A : Type) : Type :=
| OK (a : A)
| Raise (e : exn).
Arguments OK {A} a.
Arguments Raise {A} e.

Definition bind {A B} (r : result A) (k : A → result B) : result B :=
  match r with
  | OK a => k a
  | Raise e => Raise e
  end.

#[export] Instance result_ret : MRet result := λ A a, OK a.
#[export] Instance result_bind : MBind result := λ A B k r, bind r k.

Definition raises {A} (r : result A) : Prop := ∃ e, r = Raise e.
Definition returns {A} (r : result A) : Prop := ∃ a, r = OK a.

(** [[f(x) for x in xs]]: left to right, the first exception wins. *)
Fixpoint for_each {A B} (f : A → result B) (xs : list A) : result (list B) :=
  match xs with
  | [] => OK []
  | x :: xs' =>
      y ← f x; ys ← for_each f xs'; OK (y :: ys)
  end.

(** Values stored in the question dictionaries ([Dict[str, Any]]). *)
Inductive pyval : Type :=
| VNone
| VInt (z : Z)
| VStr (s : string)
| VVec (v : list Q)      (* an embedding: a list of floats *)
| VTime (t : Z)          (* a datetime, as a timestamp *).

Abbreviation pydict := (gmap string pyval).

(** [d[k]] *)
Definition getitem (d : pydict) (k : string) : result pyval :=
  match d !! k with
  | Some v => OK v
  | None => Raise (KeyError k)
  end.

(** [d.get(k, dflt)] *)
Definition get (d : pydict) (k : string) (dflt : pyval) : pyval :=
  default dflt (d !! k).

(** Truth value of an object, as tested by [if v]. *)
Definition truthy (v : pyval) : bool :=
  match v with
  | VNone => false
  | VInt z => negb (z =? 0)%Z
  | VStr s => negb (String.eqb s "")
  | VVec v => negb (Nat.eqb (length v) 0)
  | VTime _ => true
  end.

(** Reading a dynamic value at the type the code uses it at. *)
Definition as_int (v : pyval) : result Z :=
  match v with VInt z => OK z | _ => Raise TypeError end.
Definition as_str (v : pyval) : result string :=
  match v with VStr s => OK s | _ => Raise TypeError end.
Definition as_time (v : pyval) : result Z :=
  match v with VTime t => OK t | _ => Raise TypeError end.

(** [not xs] on a list. *)
Definition is_empty {A} (xs : list A) : bool :=
  match xs with [] => true | _ => false end.

(** [xs[i]] for a non-negative index. *)
Definition index {A} (xs : list A) (i : nat) : result A :=
  match xs !! i with
  | Some x => OK x
  | None => Raise IndexError
  end.

(** [xs[i] = x]: indices in [-len, len) are valid, a negative one counts
    from the end. *)
Definition setitem {A} (xs : list A) (i : Z) (x : A) : result (list A) :=
  let n := Z.of_nat (length xs) in
  if ((0 <=? i) && (i <? n))%Z then OK (<[Z.to_nat i := x]> xs)
  else if ((- n <=? i) && (i <? 0))%Z then OK (<[Z.to_nat (n + i) := x]> xs)
  else Raise IndexError.

(** [range(0, stop, step)] for a positive step. *)
Definition range_step (stop step : nat) : list nat :=
  (λ k, k * step)%nat <$> seq 0 ((stop + step - 1) / step)%nat.

(** *** Numbers *)

Definition Qltb (x y : Q) : bool := negb (Qle_bool y x).
Definition Qgeb (x y : Q) : bool := Qle_bool y x.
Definition Qgtb (x y : Q) : bool := negb (Qle_bool x y).

(** [a / b] on two ints (true division), where the quotient is known to
    stay within the range of a float: in [_calc_velocity] the dividend is a
    list length minus the divisor, so the quotient is at most a list length
    (below 2^63) in absolute value. *)
Definition truediv (a b : Z) : result Q :=
  if (b =? 0)%Z then Raise ZeroDivisionError
  else OK (inject_Z a / inject_Z b)%Q.

(** The least magnitude that does not round to a finite double: half an
    ulp above the largest double, 2^1024 - 2^970. *)
Definition FLOAT_LIMIT : Z := 2 ^ 1024 - 2 ^ 970.

(** [a / b] on two arbitrary ints: the exact quotient is rounded to a
    double, and [OverflowError] is raised when it rounds beyond the largest
    one, that is when [|a / b| >= 2^1024 - 2^970]. *)
Definition truediv_checked (a b : Z) : result Q :=
  if (b =? 0)%Z then Raise ZeroDivisionError
  else if (FLOAT_LIMIT * Z.abs b <=? Z.abs a)%Z then Raise OverflowError
  else OK (inject_Z a / inject_Z b)%Q.

(** Two-argument [max(a, b)] and [min(a, b)]: the first argument is kept
    unless the second is strictly larger (smaller). *)
Definition max2 (a b : Q) : Q := if Qgtb b a then b else a.
Definition min2 (a b : Q) : Q := if Qltb b a then b else a.

(** [max(xs)] over a non-empty sequence of ints. *)
Definition max_ints (x : Z) (xs : list Z) : Z := foldl Z.max x xs.

(** [x or 1] on an int. *)
Definition or_one (x : Z) : Z := if (x =? 0)%Z then 1%Z else x.

(** [xs[:n]] for an int [n]: a negative bound counts from the end. *)
Definition slice_to {A} (xs : list A) (n : Z) : list A :=
  if (n <? 0)%Z then take (length xs - Z.to_nat (- n)) xs
  else take (Z.to_nat n) xs.

(** [xs.sort(key=key, reverse=True)]: descending by key and stable
    (elements with equal keys keep their relative order). *)
Section Sort.
Context {A : Type} (key : A → Q).

Fixpoint insert_desc (x : A) (l : list A) : list A :=
  match l with
  | [] => [x]
  | y :: l' =>
      if Qltb (key x) (key y) then y :: insert_desc x l' else x :: y :: l'
  end.

Definition sort_desc (l : list A) : list A := foldr insert_desc [] l.
End Sort.

(** *** Strings *)

Definition code (c : ascii) : N := N_of_ascii c.

Definition in_range (lo hi : N) (c : ascii) : bool :=
  ((lo <=? code c) && (code c <=? hi))%N.

(** [str.isspace] on one character. *)
Definition isspace (c : ascii) : bool :=
  in_range 9 13 c || in_range 28 32 c || (code c =? 133)%N || (code c =? 160)%N.

Definition isupper (c : ascii) : bool :=
  in_range 65 90 c || (in_range 192 222 c && negb (code c =? 215)%N).

(** [str.lower] on one character. *)
Definition lower_char (c : ascii) : ascii :=
  if isupper c then ascii_of_N (code c + 32) else c.

Definition chars (s : string) : list ascii := list_ascii_of_string s.
Definition str (l : list ascii) : string := string_of_list_ascii l.

Definition lower (s : string) : string := str (map lower_char (chars s)).

Fixpoint lstrip_chars (p : ascii → bool) (l : list ascii) : list ascii :=
  match l with
  | c :: l' => if p c then lstrip_chars p l' else l
  | [] => []
  end.

Definition rstrip_chars (p : ascii → bool) (l : list ascii) : list ascii :=
  rev (lstrip_chars p (rev l)).

(** [s.strip()] *)
Definition strip (s : string) : string :=
  str (rstrip_chars isspace (lstrip_chars isspace (chars s))).

(** [s[:n]] for a literal non-negative [n]. *)
Definition prefix (n : nat) (s : string) : string := str (take n (chars s)).

End Py.

Import Py.

(** ** [processing/clusterer.py] *)

Module Clusterer.

(** [@dataclass class QuestionCluster] *)
Record QuestionCluster : Type := {
  cluster_id : Z;
  canonical_question : string;
  questions : list pydict;
  centroid : option (list Q);
  platform_counts : gmap string Z;
  total_engagement : Z;
  earliest_seen : option Z;
  latest_seen : option Z;
}.

(** The constructor with every defaulted field left out:
    [QuestionCluster(cluster_id=i, canonical_question=q)]. *)
Definition QuestionCluster_defaults (i : Z) (q : string) : QuestionCluster :=
  {| cluster_id := i; canonical_question := q; questions := [];
     centroid := None; platform_counts := ∅; total_engagement := 0;
     earliest_seen := None; latest_seen := None |}.

(** [@property cross_platform_count] *)
Definition cross_platform_count (c : QuestionCluster) : Z :=
  Z.of_nat (size (platform_counts c)).

(** [@property is_cross_platform] *)
Definition is_cross_platform (c : QuestionCluster) : bool :=
  (2 <=? cross_platform_count c)%Z.

(** The constructor arguments of [class QuestionClusterer]. *)
Record QuestionClusterer : Type := {
  min_cluster_size : Z;
  min_samples : Z;
  metric : string;
  similarity_threshold : Q;
}.

(** [__init__] with its defaults. *)
Definition __init__ (min_cluster_size min_samples : option Z)
    (metric : option string) (similarity_threshold : option Q)
    : QuestionClusterer :=
  {| min_cluster_size := default 3%Z min_cluster_size;
     min_samples := default 2%Z min_samples;
     metric := default "euclidean" metric;
     similarity_threshold := default 0.85%Q similarity_threshold |}.

(** *** numpy on rational matrices (rows are the embeddings) *)

Abbreviation vec := (list Q).

(** [np.array(rows)]: a matrix when every row is a vector of one length. *)
Definition np_array (rows : list pyval) : result (list vec) :=
  vs ← Py.for_each
        (λ v, match v with VVec x => OK x | _ => Raise LibraryError end) rows;
  match vs with
  | [] => OK []
  | v :: _ =>
      if forallb (λ w, Nat.eqb (length w) (length v)) vs then OK vs
      else Raise LibraryError
  end.

Definition vadd (a b : vec) : vec := zip_with Qplus a b.
Definition vsub (a b : vec) : vec := zip_with Qminus a b.

(** [np.mean(m, axis=0)] for a non-empty matrix. *)
Definition mean_rows (m : list vec) : vec :=
  match m with
  | [] => []
  | v :: vs => (λ x, x / inject_Z (Z.of_nat (length m)))%Q <$> foldl vadd v vs
  end.

(** The square of [np.linalg.norm(v)]; the square root is increasing, so
    [np.argmin] over norms picks the index it picks over their squares. *)
Definition norm_sq (v : vec) : Q := foldr (λ x acc, x * x + acc)%Q 0%Q v.

(** [np.argmin(ds)]: the first position of the minimum. *)
Fixpoint argmin_from (best : nat) (d : Q) (i : nat) (ds : list Q) : nat :=
  match ds with
  | [] => best
  | x :: ds' =>
      if Py.Qltb x d then argmin_from i x (S i) ds'
      else argmin_from best d (S i) ds'
  end.

Definition argmin (ds : list Q) : result nat :=
  match ds with
  | [] => Raise LibraryError
  | d :: ds' => OK (argmin_from 0 d 1 ds')
  end.

(** [all_embeddings[labels == cluster_id]], for one label per row. *)
Definition mask_rows (m : list vec) (labels : list Z) (cluster_id : Z) : list vec :=
  (List.filter (λ p, (p.2 =? cluster_id)%Z) (zip m labels)).*1.

(** *** [_build_cluster]

    The data class is typed: the canonical question and the platform tags
    are strings, the engagement counts ints, the timestamps datetimes.  A
    member record holding a value of another type there is outside the
    typed model and is reported as [TypeError]. *)

(** The platform-count loop. *)
Fixpoint count_platforms (qs : list pydict) (counts : gmap string Z)
    : result (gmap string Z) :=
  match qs with
  | [] => OK counts
  | q :: qs' =>
      platform ← Py.as_str (Py.get q "platform" (VStr "unknown"));
      count_platforms qs'
        (<[platform := (default 0 (counts !! platform) + 1)%Z]> counts)
  end.

(** [sum(q.get("upvotes", 0) + q.get("comments", 0) for q in questions)] *)
Fixpoint sum_engagement (qs : list pydict) (acc : Z) : result Z :=
  match qs with
  | [] => OK acc
  | q :: qs' =>
      u ← Py.as_int (Py.get q "upvotes" (VInt 0));
      c ← Py.as_int (Py.get q "comments" (VInt 0));
      sum_engagement qs' (acc + (u + c))%Z
  end.

(** [[q.get("external_created_at") for q in questions
      if q.get("external_created_at")]] *)
Definition dates_of (qs : list pydict) : list pyval :=
  List.filter Py.truthy ((λ q, Py.get q "external_created_at" VNone) <$> qs).

Definition extremum (pick : Z → Z → Z) (dates : list pyval) : result (option Z) :=
  ts ← Py.for_each Py.as_time dates;
  match ts with
  | [] => OK None
  | t :: ts' => OK (Some (foldl pick t ts'))
  end.

Definition _build_cluster (cluster_id : Z) (questions : list pydict)
    (all_embeddings : list vec) (labels : list Z) : result QuestionCluster :=
  let cluster_embeddings := mask_rows all_embeddings labels cluster_id in
  let centroid := mean_rows cluster_embeddings in
  let distances := (λ e, norm_sq (vsub e centroid)) <$> cluster_embeddings in
  canonical_idx ← argmin distances;
  q ← Py.index questions canonical_idx;
  text ← Py.getitem q "normalized_text";
  canonical ← Py.as_str text;
  platform_counts ← count_platforms questions ∅;
  total_engagement ← sum_engagement questions 0;
  earliest ← extremum Z.min (dates_of questions);
  latest ← extremum Z.max (dates_of questions);
  OK {| cluster_id := cluster_id;
        canonical_question := canonical;
        questions := questions;
        centroid := Some centroid;
        platform_counts := platform_counts;
        total_engagement := total_engagement;
        earliest_seen := earliest;
        latest_seen := latest |}.

(** *** [cluster] *)

(** [cluster_map[label].append(q)], creating the entry on first use; the
    dictionary keeps its keys in order of first insertion. *)
Fixpoint map_append (cluster_map : list (Z * list pydict)) (label : Z)
    (q : pydict) : list (Z * list pydict) :=
  match cluster_map with
  | [] => [(label, [q])]
  | (l, qs) :: rest =>
      if (l =? label)%Z then (l, qs ++ [q]) :: rest
      else (l, qs) :: map_append rest label q
  end.

(** The grouping loop [for idx, label in enumerate(labels)]. *)
Fixpoint group_loop (questions : list pydict) (idx : nat) (labels : list Z)
    (cluster_map : list (Z * list pydict)) : result (list (Z * list pydict)) :=
  match labels with
  | [] => OK cluster_map
  | label :: labels' =>
      if (label =? -1)%Z then group_loop questions (S idx) labels' cluster_map
      else
        q ← Py.index questions idx;
        group_loop questions (S idx) labels' (map_append cluster_map label q)
  end.

Section WithHDBSCAN.
(** [hdbscan.HDBSCAN(min_cluster_size, min_samples, metric,
    cluster_selection_method="leaf").fit_predict(embeddings)]: the
    external clustering library, which returns one label per row. *)
Variable fit_predict : Z → Z → string → list vec → result (list Z).

Definition cluster (self : QuestionClusterer) (questions : list pydict)
    : result (list QuestionCluster) :=
  if Py.is_empty questions
     || (Z.of_nat (length questions) <? min_cluster_size self)%Z
  then OK []
  else
    rows ← Py.for_each (λ q, Py.getitem q "embedding") questions;
    embeddings ← np_array rows;
    labels ← fit_predict (min_cluster_size self) (min_samples self)
               (metric self) embeddings;
    cluster_map ← group_loop questions 0 labels [];
    clusters ← Py.for_each
      (λ '(label, cluster_questions),
         _build_cluster label cluster_questions embeddings labels)
      cluster_map;
    OK (Py.sort_desc (λ c, inject_Z (total_engagement c)) clusters).
End WithHDBSCAN.

End Clusterer.

(** ** [analysis/signal_detector.py] *)

Module Detector.
Import Clusterer.
#[local] Open Scope Q_scope.

(** [@dataclass class CuriositySignal] *)
Record CuriositySignal : Type := {
  cluster_id : Z;
  canonical_question : string;
  velocity_score : Q;
  cross_platform_score : Q;
  engagement_score : Q;
  novelty_score : Q;
  weirdness_bonus : Q;
  final_score : Q;
  tier : string;
  is_signal : bool;
  question_count : Z;
  platform_count : Z;
  total_engagement : Z;
  velocity_pct : Q;
  platforms : list string;
  sample_questions : list pyval;
  news_trigger : option pydict;
}.

(** Class constants. *)
Definition WEIGHT_VELOCITY : Q := 0.35.
Definition WEIGHT_CROSS_PLATFORM : Q := 0.25.
Definition WEIGHT_ENGAGEMENT : Q := 0.20.
Definition WEIGHT_NOVELTY : Q := 0.20.
Definition MAX_WEIRDNESS_BONUS : Q := 0.20.
Definition TIER_BREAKOUT : Q := 0.85.
Definition TIER_STRONG : Q := 0.75.
Definition TIER_SIGNAL : Q := 0.70.

(** The instance attributes of [class SignalDetector]. *)
Record SignalDetector : Type := {
  threshold : Q;
  historical_data : gmap string Z;
  _max_engagement : Z;
  _max_count : Z;
}.

(** [__init__(self, threshold=0.70, historical_data=None)] *)
Definition __init__ (threshold : option Q)
    (historical_data : option (gmap string Z)) : SignalDetector :=
  {| threshold := default 0.70%Q threshold;
     historical_data := default ∅ historical_data;
     _max_engagement := 1%Z;
     _max_count := 1%Z |}.

Definition len_questions (c : QuestionCluster) : Z :=
  Z.of_nat (length (questions c)).

(** [_get_cluster_key]: [canonical_question[:50].lower().strip()] *)
Definition _get_cluster_key (c : QuestionCluster) : string :=
  Py.strip (Py.lower (Py.prefix 50%nat (Clusterer.canonical_question c))).

(** The piecewise normalisation inside [_calc_velocity]
    (the [if pct_change >= 100 / elif pct_change >= 0 / else] block). *)
Definition velocity_of_pct (pct_change : Q) : Q :=
  if Qgeb pct_change 100 then 1.0
  else if Qgeb pct_change 0 then 0.5 + pct_change / 200
  else Py.max2 0.0 (0.5 + pct_change / 100).

(** [_calc_velocity]: returns [(normalized_score, percentage_change)]. *)
Definition _calc_velocity (self : SignalDetector) (c : QuestionCluster)
    : result (Q * Q) :=
  let current_count := len_questions c in
  let historical_key := _get_cluster_key c in
  let historical_count := default 0%Z (historical_data self !! historical_key) in
  if (historical_count =? 0)%Z then OK (0.8, 100.0)
  else
    ratio ← Py.truediv (current_count - historical_count) historical_count;
    let pct_change := ratio * 100 in
    OK (velocity_of_pct pct_change, pct_change).

(** [_calc_cross_platform] *)
Definition _calc_cross_platform (c : QuestionCluster) : Q :=
  let count := cross_platform_count c in
  if (3 <=? count)%Z then 1.0
  else if (count =? 2)%Z then 0.7
  else 0.0.

(** [_calc_engagement] *)
Definition _calc_engagement (self : SignalDetector) (c : QuestionCluster)
    : result Q :=
  if (_max_engagement self =? 0)%Z then OK 0.0
  else
    ratio ← Py.truediv_checked (Clusterer.total_engagement c)
                               (_max_engagement self);
    OK (Py.min2 1.0 ratio).

(** [_calc_novelty] *)
Definition _calc_novelty (self : SignalDetector) (c : QuestionCluster) : Q :=
  let historical_key := _get_cluster_key c in
  match historical_data self !! historical_key with
  | None => 1.0
  | Some _ => 0.3
  end.

(** [_calc_weirdness] *)
Definition _calc_weirdness (c : QuestionCluster) : result Q :=
  let platforms : gset string := dom (platform_counts c) in
  if (3 <=? Z.of_nat (size platforms))%Z then OK MAX_WEIRDNESS_BONUS
  else
    avg_engagement ← Py.truediv_checked (Clusterer.total_engagement c)
                                        (len_questions c);
    if Qgtb avg_engagement 50 then OK (MAX_WEIRDNESS_BONUS * 0.5)
    else OK 0.0.

(** The tier ladder of [_score_cluster]. *)
Definition tier_of (final_score : Q) : string :=
  if Qgeb final_score TIER_BREAKOUT then "breakout"
  else if Qgeb final_score TIER_STRONG then "strong"
  else if Qgeb final_score TIER_SIGNAL then "signal"
  else "noise".

(** [_score_cluster].  [platforms] lists the keys of the platform counts:
    Python in the order of insertion, the map here in the order of its
    keys; no statement below depends on that order. *)
Definition _score_cluster (self : SignalDetector) (c : QuestionCluster)
    : result CuriositySignal :=
  sample ← Py.for_each (λ q, Py.getitem q "raw_text") (take 5%nat (questions c));
  '(velocity, pct) ← _calc_velocity self c;
  let cross_platform := _calc_cross_platform c in
  engagement ← _calc_engagement self c;
  let novelty := _calc_novelty self c in
  weirdness ← _calc_weirdness c;
  let weighted :=
    velocity * WEIGHT_VELOCITY +
    cross_platform * WEIGHT_CROSS_PLATFORM +
    engagement * WEIGHT_ENGAGEMENT +
    novelty * WEIGHT_NOVELTY +
    weirdness in
  let final := Py.min2 1.0 (Py.max2 0.0 weighted) in
  OK {| cluster_id := Clusterer.cluster_id c;
        canonical_question := Clusterer.canonical_question c;
        velocity_score := velocity;
        cross_platform_score := cross_platform;
        engagement_score := engagement;
        novelty_score := novelty;
        weirdness_bonus := weirdness;
        final_score := final;
        tier := tier_of final;
        is_signal := Qgeb final (threshold self);
        question_count := len_questions c;
        platform_count := cross_platform_count c;
        total_engagement := Clusterer.total_engagement c;
        velocity_pct := pct;
        platforms := (map_to_list (platform_counts c)).*1;
        sample_questions := sample;
        news_trigger := None |}.

(** The assignments to [self._max_engagement] and [self._max_count]
    at the head of [detect], for a non-empty cluster list. *)
Definition set_normalization (self : SignalDetector)
    (c : QuestionCluster) (cs : list QuestionCluster) : SignalDetector :=
  {| threshold := threshold self;
     historical_data := historical_data self;
     _max_engagement :=
       Py.or_one (Py.max_ints (Clusterer.total_engagement c)
                              (Clusterer.total_engagement <$> cs));
     _max_count :=
       Py.or_one (Py.max_ints (len_questions c) (len_questions <$> cs)) |}.

(** [detect]: the result and the detector as the call leaves it. *)
Definition detect (self : SignalDetector) (clusters : list QuestionCluster)
    : result (list CuriositySignal) * SignalDetector :=
  match clusters with
  | [] => (OK [], self)
  | c :: cs =>
      let self := set_normalization self c cs in
      (signals ← Py.for_each (_score_cluster self) clusters;
       OK (Py.sort_desc final_score signals),
       self)
  end.

(** The loop of [get_weird_picks], with [weird] the list built so far. *)
Fixpoint weird_loop (self : SignalDetector) (clusters : list QuestionCluster)
    (weird : list CuriositySignal) : result (list CuriositySignal) :=
  match clusters with
  | [] => OK weird
  | c :: cs =>
      signal ← _score_cluster self c;
      if Qgtb (weirdness_bonus signal) 0 && negb (is_signal signal)
      then weird_loop self cs (weird ++ [signal])
      else weird_loop self cs weird
  end.

(** [get_weird_picks(self, clusters, count=5)] *)
Definition get_weird_picks (self : SignalDetector)
    (clusters : list QuestionCluster) (count : Z)
    : result (list CuriositySignal) :=
  weird ← weird_loop self clusters [];
  OK (Py.slice_to (Py.sort_desc weirdness_bonus weird) count).

End Detector.

(** ** [processing/embedder.py] *)

Module Embedder.

Definition MODEL : string := "text-embedding-3-small".
Definition DIMENSIONS : nat := 1536.
Definition BATCH_SIZE : nat := 100.

(** One element of [response.data]. *)
Record Item : Type := {
  index : Z;
  embedding : list Q;
}.

Section WithClient.
(** [self.client.embeddings.create(model=..., input=batch)]: the external
    embedding service.  It answers with [response.data] or raises, and
    may change from one call to the next ([Service] is its state). *)
Context {Service : Type}.
Variable create : Service → string → list string → result (list Item) * Service.

(** The loop [for item in response.data]. *)
Fixpoint place (data : list Item) (batch_embeddings : list (option (list Q)))
    : result (list (option (list Q))) :=
  match data with
  | [] => OK batch_embeddings
  | item :: data' =>
      batch_embeddings ← Py.setitem batch_embeddings (index item)
                           (Some (embedding item));
      place data' batch_embeddings
  end.

(** The loop [for i in range(0, len(texts), self.BATCH_SIZE)]. *)
Fixpoint batch_loop (model : string) (texts : list string) (starts : list nat)
    (all_embeddings : list (option (list Q))) (svc : Service)
    : result (list (option (list Q))) * Service :=
  match starts with
  | [] => (OK all_embeddings, svc)
  | i :: starts' =>
      let batch := take BATCH_SIZE (drop i texts) in
      match create svc model batch with
      | (Raise e, svc) => (Raise e, svc)
      | (OK data, svc) =>
          match place data (replicate (length batch) None) with
          | Raise e => (Raise e, svc)
          | OK batch_embeddings =>
              batch_loop model texts starts'
                (all_embeddings ++ batch_embeddings) svc
          end
      end
  end.

(** [embed_batch] *)
Definition embed_batch (model : string) (texts : list string) (svc : Service)
    : result (list (option (list Q))) * Service :=
  if Py.is_empty texts then (OK [], svc)
  else batch_loop model texts (Py.range_step (length texts) BATCH_SIZE) [] svc.
End WithClient.

End Embedder.

(** ** The fragment of Python's [re] used by [processing/normalizer.py] *)

Module Re.

(** A set of characters: what one pattern position can match. *)
Inductive cset : Type :=
| Chr (c : ascii)   (* a literal character *)
| Dot               (* [.]: anything but a newline *)
| Space             (* [\s] *)
| Word              (* [\w] *)
| Digit             (* [\d] *)
| Not (c : ascii)   (* the class [[^c]] *).

(** Patterns.  Every quantifier of the normalizer's patterns applies to a
    single character set, so repetition is over a [cset]. *)
Inductive re : Type :=
| Eps
| One (s : cset)
| Rep (greedy : bool) (lo : nat) (hi : option nat) (s : cset)
| Bol               (* [^] *)
| Eol               (* [$] *)
| WordB             (* [\b] *)
| Seq (r1 r2 : re)
| Group (r : re)    (* a capturing group; the patterns have at most one *).

Definition cat (rs : list re) : re := foldr Seq Eps rs.
Definition lit (s : string) : re := cat (One ∘ Chr <$> Py.chars s).
Definition star (s : cset) : re := Rep true 0 None s.
Definition plus (s : cset) : re := Rep true 1 None s.
Definition opt (s : cset) : re := Rep true 0 (Some 1%nat) s.
Definition lazy_star (s : cset) : re := Rep false 0 None s.
Definition at_least (n : nat) (s : cset) : re := Rep true n None s.

Definition newline : ascii := ascii_of_N 10.

(** [\w] on code points below 256. *)
Definition isword (c : ascii) : bool :=
  Py.in_range 48 57 c || Py.in_range 65 90 c || (Py.code c =? 95)%N
  || Py.in_range 97 122 c || (Py.code c =? 170)%N || Py.in_range 178 179 c
  || (Py.code c =? 181)%N || Py.in_range 185 186 c || Py.in_range 188 190 c
  || Py.in_range 192 214 c || Py.in_range 216 246 c || Py.in_range 248 255 c.

Definition isdigit (c : ascii) : bool := Py.in_range 48 57 c.

Definition same_char (ignorecase : bool) (a b : ascii) : bool :=
  if ignorecase then Ascii.eqb (Py.lower_char a) (Py.lower_char b)
  else Ascii.eqb a b.

Definition in_cset (ignorecase : bool) (s : cset) (c : ascii) : bool :=
  match s with
  | Chr a => same_char ignorecase a c
  | Dot => negb (Ascii.eqb c newline)
  | Space => Py.isspace c
  | Word => isword c
  | Digit => isdigit c
  | Not a => negb (same_char ignorecase a c)
  end.

(** A point of the subject during one match attempt: the character before
    it, the text after it, the number of characters the attempt has
    consumed, and the span of the group (offsets from the start of the
    attempt). *)
Record cursor : Type := {
  before : option ascii;
  rest : list ascii;
  taken : nat;
  span : option (nat * nat);
}.

Definition on_word (c : option ascii) : bool :=
  match c with Some c => isword c | None => false end.

Definition at_boundary (p : cursor) : bool :=
  xorb (on_word (before p)) (on_word (head (rest p))).

Definition at_end (p : cursor) : bool :=
  match rest p with
  | [] => true
  | [c] => Ascii.eqb c newline
  | _ => false
  end.

Definition at_start (p : cursor) : bool :=
  match before p with None => true | Some _ => false end.

Definition below (hi : option nat) (n : nat) : bool :=
  match hi with None => true | Some h => (n <? h)%nat end.

Section Match.
Context {R : Type} (ignorecase : bool).

(** Repetition of a character set with backtracking: [n] characters have
    been taken so far. A greedy repetition first tries to take one more,
    a lazy one first tries to stop. *)
Fixpoint rep (greedy : bool) (lo : nat) (hi : option nat) (s : cset)
    (k : cursor → option R) (n : nat) (bef : option ascii)
    (text : list ascii) (tk : nat) (sp : option (nat * nat)) {struct text}
    : option R :=
  let here := {| before := bef; rest := text; taken := tk; span := sp |} in
  let stop (_ : unit) := if (lo <=? n)%nat then k here else None in
  let more (_ : unit) :=
    match text with
    | c :: text' =>
        if below hi n && in_cset ignorecase s c
        then rep greedy lo hi s k (S n) (Some c) text' (S tk) sp
        else None
    | [] => None
    end in
  if greedy then
    match more () with Some r => Some r | None => stop () end
  else
    match stop () with Some r => Some r | None => more () end.

(** The backtracking matcher in continuation-passing style: [run r k p]
    is the first way, in the priority order of the pattern, to match
    [r] at [p] so that [k] accepts what follows. *)
Fixpoint run (r : re) (k : cursor → option R) (p : cursor) : option R :=
  match r with
  | Eps => k p
  | One s =>
      match rest p with
      | c :: text' =>
          if in_cset ignorecase s c
          then k {| before := Some c; rest := text';
                    taken := S (taken p); span := span p |}
          else None
      | [] => None
      end
  | Rep greedy lo hi s =>
      rep greedy lo hi s k 0 (before p) (rest p) (taken p) (span p)
  | Bol => if at_start p then k p else None
  | Eol => if at_end p then k p else None
  | WordB => if at_boundary p then k p else None
  | Seq r1 r2 => run r1 (run r2 k) p
  | Group r' =>
      run r' (λ q, k {| before := before q; rest := rest q;
                         taken := taken q;
                         span := Some (taken p, taken q) |}) p
  end.
End Match.

(** One match attempt at a position: the length of the match and the
    group's span.  With [must_advance] an empty match is refused. *)
Definition match_at (ignorecase : bool) (r : re) (must_advance : bool)
    (bef : option ascii) (text : list ascii) : option (nat * option (nat * nat)) :=
  run ignorecase r
    (λ q, if must_advance && Nat.eqb (taken q) 0 then None
          else Some (taken q, span q))
    {| before := bef; rest := text; taken := 0; span := None |}.

(** A replacement template: literal text and references to the group. *)
Inductive piece : Type :=
| Text (s : string)
| Backref.

Definition expand (repl : list piece) (sp : option (nat * nat))
    (text : list ascii) : list ascii :=
  concat ((λ pc, match pc with
                 | Text s => Py.chars s
                 | Backref =>
                     match sp with
                     | Some (b, e) => take (e - b) (drop b text)
                     | None => []
                     end
                 end) <$> repl).

Section Sub.
Context (ignorecase : bool) (r : re) (repl : list piece).

(** The scan of [re.sub]: [skip] characters still belong to the match
    just replaced.  After an empty match the next match at the same
    position must be non-empty; after a non-empty match an empty match is
    accepted right behind it. *)
Fixpoint sub_loop (bef : option ascii) (text : list ascii) (skip : nat)
    : list ascii :=
  let step (emit : bool) (skip' : nat) :=
    match text with
    | [] => []
    | c :: text' =>
        (if emit then [c] else []) ++ sub_loop (Some c) text' skip'
    end in
  match skip with
  | S skip' => step false skip'
  | O =>
      match match_at ignorecase r false bef text with
      | Some (S n, sp) => expand repl sp text ++ step false n
      | Some (O, sp) =>
          expand repl sp text ++
          match match_at ignorecase r true bef text with
          | Some (S n, sp') => expand repl sp' text ++ step false n
          | _ => step true O
          end
      | None => step true O
      end
  end.

(** [re.sub(pattern, repl, s, flags)] *)
Definition sub (s : string) : string :=
  Py.str (sub_loop None (Py.chars s) 0).
End Sub.

End Re.

(** ** [processing/normalizer.py] *)

Module Normalizer.
Import Re.

(** [PLATFORM_ARTIFACTS] *)
Definition reddit_artifacts : list re := [
  (* ^\[.*?\]\s* *)
  cat [Bol; lit "["; lazy_star Dot; lit "]"; star Space];
  (* \s*\[.*?\]\s*$ *)
  cat [star Space; lit "["; lazy_star Dot; lit "]"; star Space; Eol];
  (* \(x-?post.*?\) *)
  cat [lit "(x"; opt (Chr "-"); lit "post"; lazy_star Dot; lit ")"];
  (* /r/\w+ *)
  cat [lit "/r/"; plus Word];
  (* u/\w+ *)
  cat [lit "u/"; plus Word];
  (* edit\d*:.*$ *)
  cat [lit "edit"; star Digit; lit ":"; star Dot; Eol]
].

Definition stackexchange_artifacts : list re := [
  lit "[closed]";
  lit "[duplicate]";
  lit "[on hold]";
  lit "[migrated]"
].

Definition PLATFORM_ARTIFACTS (platform : string) : option (list re) :=
  if String.eqb platform "reddit" then Some reddit_artifacts
  else if String.eqb platform "stackexchange" then Some stackexchange_artifacts
  else None.

(** [ABBREVIATIONS], in the order the dictionary lists them. *)
Definition ABBREVIATIONS : list (re * string) := [
  (cat [WordB; lit "gpt"; WordB], "GPT");
  (cat [WordB; lit "gpt"; opt (Chr "-"); lit "4"; WordB], "GPT-4");
  (cat [WordB; lit "gpt"; opt (Chr "-"); lit "3"; opt (Chr "."); lit "5"; WordB],
   "GPT-3.5");
  (cat [WordB; lit "llm"; WordB], "large language model");
  (cat [WordB; lit "llms"; WordB], "large language models");
  (cat [WordB; lit "ml"; WordB], "machine learning");
  (cat [WordB; lit "ai"; WordB], "artificial intelligence");
  (cat [WordB; lit "nlp"; WordB], "natural language processing");
  (cat [WordB; lit "rag"; WordB], "retrieval augmented generation");
  (cat [WordB; lit "api"; WordB], "API");
  (cat [WordB; lit "eli5"; WordB], "explain like I'm 5")
].

(** [MARKDOWN_PATTERNS] *)
Definition MARKDOWN_PATTERNS : list re := [
  (* \*\*(.*?)\*\* *)
  cat [lit "**"; Group (lazy_star Dot); lit "**"];
  (* \*(.*?)\* *)
  cat [lit "*"; Group (lazy_star Dot); lit "*"];
  (* ~~(.*?)~~ *)
  cat [lit "~~"; Group (lazy_star Dot); lit "~~"];
  (* `(.*?)` *)
  cat [lit "`"; Group (lazy_star Dot); lit "`"];
  (* \[([^\]]+)\]\([^)]+\) *)
  cat [lit "["; Group (plus (Not "]")); lit "]("; plus (Not ")"); lit ")"]
].

(** [s.split()]: the maximal runs of non-whitespace characters. *)
Fixpoint split_loop (word : list ascii) (text : list ascii) : list (list ascii) :=
  let flush := match word with [] => [] | _ => [rev word] end in
  match text with
  | [] => flush
  | c :: text' =>
      if Py.isspace c then flush ++ split_loop [] text'
      else split_loop (c :: word) text'
  end.

Definition split (s : string) : list string := Py.str <$> split_loop [] (Py.chars s).

(** [sep.join(words)] *)
Fixpoint join (sep : string) (words : list string) : string :=
  match words with
  | [] => ""
  | [w] => w
  | w :: ws => String.append w (String.append sep (join sep ws))
  end.

(** [s.endswith(c)] and [c in s] for a one-character [c]. *)
Definition endswith (s : string) (c : ascii) : bool :=
  match last (Py.chars s) with
  | Some d => Ascii.eqb c d
  | None => false
  end.

Definition contains (s : string) (c : ascii) : bool :=
  existsb (Ascii.eqb c) (Py.chars s).

(** [s.rstrip(".!")] *)
Definition rstrip_dots (s : string) : string :=
  Py.str (Py.rstrip_chars (λ c, Ascii.eqb c "." || Ascii.eqb c "!") (Py.chars s)).

Definition question_starters : list string := [
  "what"; "why"; "how"; "when"; "where"; "who"; "which";
  "can"; "could"; "would"; "should"; "will"; "is"; "are";
  "do"; "does"; "has"; "have"; "am"; "was"; "were"
].

(** [_is_question_structure] *)
Definition _is_question_structure (text : string) : bool :=
  let first_word := default "" (head (split (Py.lower text))) in
  existsb (String.eqb first_word) question_starters || contains text "?".

(** [normalize(self, text, platform=None, lowercase=False)] *)
Definition normalize (text : string) (platform : option string)
    (lowercase : bool) : string :=
  if String.eqb text "" then ""
  else
    let result := Py.strip text in
    let artifacts :=
      match platform with
      | Some p => if String.eqb p "" then [] else default [] (PLATFORM_ARTIFACTS p)
      | None => []
      end in
    let result := foldl (λ res pattern, sub true pattern [] res) result artifacts in
    let result :=
      foldl (λ res pattern, sub false pattern [Backref] res) result MARKDOWN_PATTERNS in
    let result :=
      foldl (λ res '(abbrev, expansion), sub true abbrev [Text expansion] res)
            result ABBREVIATIONS in
    let result := join " " (split result) in
    let result := sub false (at_least 2 (Chr "?")) [Text "?"] result in
    let result := sub false (at_least 2 (Chr "!")) [Text "!"] result in
    let result := sub false (at_least 3 (Chr ".")) [Text "..."] result in
    let result :=
      if _is_question_structure result && negb (endswith result "?")
      then String.append (rstrip_dots result) "?"
      else result in
    let result := if lowercase then Py.lower result else result in
    Py.strip result.

End Normalizer.

(** ** [database/db.py]: the historical counts *)

Module Database.

(** The columns of a [clusters] row that the code below writes and reads
    ([database/models.py], [class Cluster]). *)
Record Cluster : Type := {
  canonical_question : string;
  question_count : Z;
}.

(** The row [save_run] stores for a cluster, as far as these columns go:
    [Cluster(canonical_question=cluster.canonical_question,
             question_count=len(cluster.questions), ...)]. *)
Definition db_cluster (cluster : Clusterer.QuestionCluster) : Cluster :=
  {| canonical_question := Clusterer.canonical_question cluster;
     question_count := Z.of_nat (length (Clusterer.questions cluster)) |}.

(** The key of the loop body: [cluster.canonical_question[:50].lower().strip()]. *)
Definition key (cluster : Cluster) : string :=
  Py.strip (Py.lower (Py.prefix 50%nat (canonical_question cluster))).

Section WithSession.
Context {Session : Type}.
(** [session.query(Cluster).join(Run).filter(Run.status == "completed")
      .order_by(Run.completed_at.desc()).limit(1000).all()]: the rows the
    database answers with, newest run first. *)
Variable recent_clusters : Session → list Cluster.

(** [get_historical_data(self, weeks_back=1)]; [self.Session] is [None]
    when no database is configured. *)
Definition get_historical_data (Session_ : option Session) (weeks_back : Z)
    : gmap string Z :=
  match Session_ with
  | None => ∅
  | Some session =>
      foldl (λ historical cluster,
               <[key cluster := question_count cluster]> historical)
            ∅ (recent_clusters session)
  end.
End WithSession.

End Database.

(** ** [run_full_pipeline.py]: embedding, clustering and detection steps *)

Module Pipeline.

(** What [q["embedding"] = embeddings[i]] stores. *)
Definition as_value (e : option (list Q)) : pyval :=
  match e with
  | Some v => VVec v
  | None => VNone
  end.

(** [for i, q in enumerate(question_dicts): q["embedding"] = embeddings[i]].
    Every record of the list is a dictionary of its own (each comes from one
    [to_dict()] call), so the in-place updates do not interfere. *)
Fixpoint attach (question_dicts : list pydict) (i : nat)
    (embeddings : list (option (list Q))) : result (list pydict) :=
  match question_dicts with
  | [] => OK []
  | q :: rest =>
      e ← Py.index embeddings i;
      rest' ← attach rest (S i) embeddings;
      OK (<["embedding" := as_value e]> q :: rest')
  end.

Section WithServices.
Context {Service : Type}.
Variable create : Service → string → list string
                  → result (list Embedder.Item) * Service.
Variable fit_predict : Z → Z → string → list (list Q) → result (list Z).

(** Step 5: [texts = [q["normalized_text"] for q in question_dicts]], then
    [embed_batch(texts)] with the default model, then the loop above.  The
    texts are strings (step 4 stores the normalizer's output there); a
    record holding a value of another type is outside the typed model and
    is reported as [TypeError].  Step 6 only reads the records. *)
Definition generate_embeddings (question_dicts : list pydict) (svc : Service)
    : result (list pydict) * Service :=
  match Py.for_each (λ q : pydict, v ← Py.getitem q "normalized_text"; Py.as_str v)
                    question_dicts with
  | Raise e => (Raise e, svc)
  | OK texts =>
      match Embedder.embed_batch create Embedder.MODEL texts svc with
      | (Raise e, svc) => (Raise e, svc)
      | (OK embeddings, svc) => (attach question_dicts 0 embeddings, svc)
      end
  end.

(** What steps 7 and 8 leave in [clusters], [signals] and [real_signals]. *)
Record Analysis : Type := {
  clusters : list Clusterer.QuestionCluster;
  signals : list Detector.CuriositySignal;
  real_signals : list Detector.CuriositySignal;
}.

(** Steps 7 and 8: [QuestionClusterer().cluster(question_dicts)],
    [SignalDetector().detect(clusters)] and
    [real_signals = [s for s in signals if s.is_signal]]. *)
Definition cluster_and_detect (question_dicts : list pydict) : result Analysis :=
  clusters ← Clusterer.cluster fit_predict
                (Clusterer.__init__ None None None None) question_dicts;
  signals ← (Detector.detect (Detector.__init__ None None) clusters).1;
  OK {| clusters := clusters;
        signals := signals;
        real_signals := List.filter Detector.is_signal signals |}.

End WithServices.

End Pipeline.

(** ** Vocabulary of the specification *)

Module Spec.
Import Clusterer Detector.
#[local] Open Scope Q_scope.

(** "Clamped to [0,1]", with the library's [Qmin] and [Qmax]. *)
Definition clamp01 (x : Q) : Q := Qmin 1 (Qmax 0 x).

(** The weighted sum of the component scores a signal carries:
    velocity*0.35 + cross_platform*0.25 + engagement*0.20 + novelty*0.20
    + weirdness_bonus. *)
Definition weighted_sum (s : CuriositySignal) : Q :=
  velocity_score s * 0.35 + cross_platform_score s * 0.25 +
  engagement_score s * 0.20 + novelty_score s * 0.20 + weirdness_bonus s.

(** The tier is the bucket of the score, thresholds in descending order. *)
Definition tier_is_bucket (s : CuriositySignal) : Prop :=
  (0.85 <= final_score s → tier s = "breakout"%string) ∧
  (0.75 <= final_score s < 0.85 → tier s = "strong"%string) ∧
  (0.70 <= final_score s < 0.75 → tier s = "signal"%string) ∧
  (final_score s < 0.70 → tier s = "noise"%string).

(** The piecewise map of the percent change, in the words of the
    specification. *)
Definition velocity_map (pct score : Q) : Prop :=
  (100 <= pct → score == 1) ∧
  (0 <= pct < 100 → score == 0.5 + pct / 200) ∧
  (pct < 0 → score == Qmax 0 (0.5 + pct / 100)).

(** A list in descending order of a key. *)
Definition descending {A} (key : A → Q) (l : list A) : Prop :=
  StronglySorted (λ a b, key b <= key a) l.

(** What makes a scored cluster a weird pick. *)
Definition weird_pick (self : SignalDetector) (s : CuriositySignal) : Prop :=
  ¬ weirdness_bonus s == 0 ∧ final_score s < threshold self.

#[global] Instance weird_pick_dec self s : Decision (weird_pick self s).
Proof.
  unfold weird_pick.
  destruct (Qeq_dec (weirdness_bonus s) 0) as [Hz|Hz];
    [right; tauto|].
  destruct (Qlt_le_dec (final_score s) (threshold self)) as [Hlt|Hle];
    [left; tauto | right].
  intros [_ Hlt]. exact (Qle_not_lt _ _ Hle Hlt).
Defined.

(** The detector with one key dropped from its historical map. *)
Definition without_history (self : SignalDetector) (key : string)
    : SignalDetector :=
  {| threshold := threshold self;
     historical_data := delete key (historical_data self);
     _max_engagement := _max_engagement self;
     _max_count := _max_count self |}.

(** A cluster the detector can score: the members it samples carry a
    [raw_text], and there is at least one member. *)
Definition well_formed (c : QuestionCluster) : Prop :=
  questions c ≠ [] ∧
  Forall (λ q : pydict, is_Some (q !! "raw_text"%string)) (take 5 (questions c)).

(** An int that converts to a float without overflow. *)
Definition fits_float (z : Z) : Prop := (Z.abs z < Py.FLOAT_LIMIT)%Z.

(** A cluster whose total engagement is within the range of a float:
    dividing it by the member count or by the engagement ceiling then
    cannot overflow. *)
Definition engagement_in_range (c : QuestionCluster) : Prop :=
  fits_float (Clusterer.total_engagement c).

(** The embedding service answers a batch with one item per input, tagged
    with the position of the input, in any order; [E] is the vector it
    computes for a text. *)
Definition answers_in_any_order {Service : Type}
    (create : Service → string → list string
              → result (list Embedder.Item) * Service)
    (model : string) (E : string → list Q) : Prop :=
  ∀ svc batch, ∃ data svc',
    create svc model batch = (OK data, svc') ∧
    data ≡ₚ imap (λ i t, {| Embedder.index := Z.of_nat i;
                             Embedder.embedding := E t |}) batch.

(** The members of a labelling that carry one label, in input order:
    the rows of [xs] at the positions where [labels] is [label]. *)
Definition labelled {A} (xs : list A) (labels : list Z) (label : Z) : list A :=
  (List.filter (λ p, (p.2 =? label)%Z) (zip xs labels)).*1.


(** Upvotes plus comments of a member record, each 0 when missing. *)
Definition engagement_of (q : pydict) : Z :=
  match Py.get q "upvotes" (VInt 0), Py.get q "comments" (VInt 0) with
  | VInt u, VInt c => u + c
  | _, _ => 0
  end.

(** Question records whose engagement counts, added up in absolute value,
    are within the range of a float. *)
Definition engagement_sum_in_range (questions : list pydict) : Prop :=
  fits_float (foldr (λ q s, Z.abs (engagement_of q) + s)%Z 0%Z questions).

(** The fields of a question record the clusterer reads besides the
    embedding: a normalized text, and the optional fields (when present) of
    the types the ingesters give them. *)
Definition typed_fields (q : pydict) : Prop :=
  (∃ s, q !! "normalized_text"%string = Some (VStr s)) ∧
  (∃ s, Py.get q "platform" (VStr "unknown") = VStr s) ∧
  (∃ u, Py.get q "upvotes" (VInt 0) = VInt u) ∧
  (∃ c, Py.get q "comments" (VInt 0) = VInt c) ∧
  (Py.truthy (Py.get q "external_created_at" VNone) = true →
   ∃ t, Py.get q "external_created_at" VNone = VTime t).

(** A question record as the pipeline hands it to the clusterer: an
    embedding of dimension [d] and the fields above. *)
Definition typed_question (d : nat) (q : pydict) : Prop :=
  (∃ v, q !! "embedding"%string = Some (VVec v) ∧ length v = d) ∧
  typed_fields q.

(** The embedding service, keeping a log of the batches it is sent. *)
Definition traced {Service : Type}
    (create : Service → string → list string
              → result (list Embedder.Item) * Service)
    (st : Service * list (list string)) (model : string) (batch : list string)
    : result (list Embedder.Item) * (Service * list (list string)) :=
  let '(r, svc) := create st.1 model batch in (r, (svc, st.2 ++ [batch])).

(** The slot an item's index designates in a batch of [n]: Python counts a
    negative index from the end. *)
Definition slot (n : nat) (it : Embedder.Item) : Z :=
  if (0 <=? Embedder.index it)%Z then Embedder.index it
  else (Z.of_nat n + Embedder.index it)%Z.

Definition in_batch (n : nat) (it : Embedder.Item) : Prop :=
  (- Z.of_nat n ≤ Embedder.index it < Z.of_nat n)%Z.

(** The first word of a text, in lower case; empty when it has no word
    ([text.lower().split()[0] if text.split() else ""]). *)
Definition first_word (text : string) : string :=
  default ""%string (head (Normalizer.split (Py.lower text))).

End Spec.

(** ** Sample data

    Clusters in the shape the pipeline produces, for the concrete checks
    that accompany the theorems. *)

Module Examples.
Import Clusterer.

Definition question (platform raw_text : string) (upvotes comments : Z) : pydict :=
  <["platform" := VStr platform]> (<["raw_text" := VStr raw_text]>
  (<["upvotes" := VInt upvotes]> (<["comments" := VInt comments]> ∅))).

(** The first mock cluster of [tests/test_pipeline.py]: two reddit
    questions and one from stackexchange. *)
Definition vision : QuestionCluster :=
  {| cluster_id := 0;
     canonical_question := "How do I use GPT-4 Vision API?";
     questions := [
       question "reddit" "How do I use GPT-4 Vision API?" 150 45;
       question "stackexchange" "GPT-4V image analysis not working" 30 8;
       question "reddit" "What can GPT-4 Vision see in images?" 200 60 ];
     centroid := None;
     platform_counts := <["reddit" := 2%Z]> (<["stackexchange" := 1%Z]> ∅);
     total_engagement := 493;
     earliest_seen := None;
     latest_seen := None |}.

(** The third mock cluster: three reddit questions. *)
Definition local_llm : QuestionCluster :=
  {| cluster_id := 2;
     canonical_question := "Best local LLM for coding assistance";
     questions := [
       question "reddit" "How to run Llama 3 locally on Mac?" 400 90;
       question "reddit" "Best local LLM for coding assistance" 250 55;
       question "reddit" "Ollama vs LM Studio comparison" 180 40 ];
     centroid := None;
     platform_counts := <["reddit" := 3%Z]> ∅;
     total_engagement := 1015;
     earliest_seen := None;
     latest_seen := None |}.

(** A single-question cluster with modest engagement. *)
Definition niche : QuestionCluster :=
  {| cluster_id := 3;
     canonical_question := "Random unrelated question about AI art";
     questions := [ question "reddit" "Random unrelated question about AI art" 50 10 ];
     centroid := None;
     platform_counts := <["reddit" := 1%Z]> ∅;
     total_engagement := 60;
     earliest_seen := None;
     latest_seen := None |}.

(** The second mock cluster, seen on three platforms. *)
Definition claude_vs_gpt : QuestionCluster :=
  {| cluster_id := 1;
     canonical_question := "Is Claude better than ChatGPT for coding?";
     questions := [
       question "reddit" "Is Claude better than ChatGPT for coding?" 300 120;
       question "stackexchange" "Claude vs GPT-4 for programming tasks" 25 5;
       question "hackernews" "Which AI is best for code: Claude or ChatGPT?" 180 75 ];
     centroid := None;
     platform_counts :=
       <["reddit" := 1%Z]> (<["stackexchange" := 1%Z]> (<["hackernews" := 1%Z]> ∅));
     total_engagement := 705;
     earliest_seen := None;
     latest_seen := None |}.

(** A single-question cluster with an engagement count beyond the range
    of a float. *)
Definition astronomic : QuestionCluster :=
  {| cluster_id := 5;
     canonical_question := "Is this the most upvoted question ever?";
     questions := [ question "reddit" "Is this the most upvoted question ever?"
                      (10 ^ 400) 0 ];
     centroid := None;
     platform_counts := <["reddit" := 1%Z]> ∅;
     total_engagement := 10 ^ 400;
     earliest_seen := None;
     latest_seen := None |}.

(** A cluster whose only member record has no [raw_text]. *)
Definition untitled : QuestionCluster :=
  {| cluster_id := 4;
     canonical_question := "untitled";
     questions := [ <["platform" := VStr "reddit"]> ∅ ];
     centroid := None;
     platform_counts := <["reddit" := 1%Z]> ∅;
     total_engagement := 0;
     earliest_seen := None;
     latest_seen := None |}.

(** Last week's counts, keyed as [Database.get_historical_data] keys them. *)
Definition last_week : gmap string Z :=
  <["how do i use gpt-4 vision api?" := 2%Z]>
  (<["best local llm for coding assistance" := 4%Z]>
  (<["random unrelated question about ai art" := 0%Z]> ∅)).

(** Three questions as the ingesters deliver them, before any embedding is
    attached. *)
Definition unembedded : list pydict := [
  question "reddit" "How do I use GPT-4 Vision API?" 150 45;
  question "stackexchange" "GPT-4V image analysis not working" 30 8;
  question "reddit" "What can GPT-4 Vision see in images?" 200 60 ].

(** The same three questions as the pipeline hands them to the clusterer:
    normalized, with a (two-dimensional) embedding each. *)
Definition embedded : list pydict := [
  <["normalized_text" := VStr "How do I use GPT-4 Vision API?"]>
    (<["embedding" := VVec [1.0%Q; 0.1%Q]]>
       (question "reddit" "How do I use GPT-4 Vision API?" 150 45));
  <["normalized_text" := VStr "GPT-4V image analysis not working?"]>
    (<["embedding" := VVec [1.1%Q; 0.0%Q]]>
       (question "stackexchange" "GPT-4V image analysis not working" 30 8));
  <["normalized_text" := VStr "What can GPT-4 Vision see in images?"]>
    (<["embedding" := VVec [0.6%Q; 0.2%Q]]>
       (question "reddit" "What can GPT-4 Vision see in images?" 200 60)) ].

(** A clustering oracle that puts every row in cluster 0. *)
Definition one_cluster (min_cluster_size min_samples : Z) (metric : string)
    (embeddings : list (list Q)) : result (list Z) :=
  OK (replicate (length embeddings) 0%Z).

(** An embedding service that answers every batch back to front; the
    vector of a text is its length, and the state counts the calls. *)
Definition length_vector (t : string) : list Q :=
  [inject_Z (Z.of_nat (String.length t))].

Definition backwards (calls : nat) (model : string) (batch : list string)
    : result (list Embedder.Item) * nat :=
  (OK (rev (imap (λ i t, {| Embedder.index := Z.of_nat i;
                            Embedder.embedding := length_vector t |}) batch)),
   S calls).

(** The raw texts of [tests/test_pipeline.py]: the normalizer's test cases
    and the mock questions. *)
Definition representative_inputs : list string := [
  "[Discussion] How does GPT-4 work???";
  "ELI5 what is a neural network";
  "Is **Claude** better than *ChatGPT*?";
  "How do I use GPT-4 Vision API?";
  "GPT-4V image analysis not working";
  "What can GPT-4 Vision see in images?";
  "Is Claude better than ChatGPT for coding?";
  "Claude vs GPT-4 for programming tasks";
  "Which AI is best for code: Claude or ChatGPT?";
  "How to run Llama 3 locally on Mac?";
  "Best local LLM for coding assistance";
  "Ollama vs LM Studio comparison";
  "Random unrelated question about AI art" ].

Definition known_platforms : list (option string) :=
  [None; Some "reddit"; Some "stackexchange"]%string.

(** Three questions after step 4 of the pipeline script: ingested and
    normalized, no embedding yet. *)
Definition normalized_questions : list pydict := [
  <["normalized_text" := VStr "How do I use GPT-4 Vision API?"]>
    (question "reddit" "How do I use GPT-4 Vision API?" 150 45);
  <["normalized_text" := VStr "GPT-4V image analysis not working?"]>
    (question "stackexchange" "GPT-4V image analysis not working" 30 8);
  <["normalized_text" := VStr "What can GPT-4 Vision see in images?"]>
    (question "reddit" "What can GPT-4 Vision see in images?" 200 60) ].

(** The rows last week's run stored for two of the mock clusters. *)
Definition stored_rows (session : unit) : list Database.Cluster :=
  Database.db_cluster <$> [vision; local_llm].

Definition fresh : Detector.SignalDetector := Detector.__init__ None None.
Definition seasoned : Detector.SignalDetector :=
  Detector.__init__ (Some 0.70%Q) (Some last_week).

End Examples.

(* ===================================================================== *)
(** * Part II: properties                                                 *)
(* ===================================================================== *)

(** ** Facts about the prelude *)

Module PyFacts.
#[local] Open Scope Q_scope.

Lemma Qgeb_true x y : Py.Qgeb x y = true ↔ y <= x.
Proof. apply Qle_bool_iff. Qed.

Lemma Qgeb_false x y : Py.Qgeb x y = false ↔ x < y.
Proof.
  unfold Py.Qgeb. rewrite <- not_true_iff_false, Qle_bool_iff.
  split; [apply Qnot_le_lt | apply Qlt_not_le].
Qed.

Lemma Qltb_true x y : Py.Qltb x y = true ↔ x < y.
Proof. unfold Py.Qltb. rewrite negb_true_iff. apply Qgeb_false. Qed.

Lemma Qltb_false x y : Py.Qltb x y = false ↔ y <= x.
Proof. unfold Py.Qltb. rewrite negb_false_iff. apply Qle_bool_iff. Qed.

Lemma Qgtb_true x y : Py.Qgtb x y = true ↔ y < x.
Proof. apply Qltb_true. Qed.

Lemma Qgtb_false x y : Py.Qgtb x y = false ↔ x <= y.
Proof. apply Qltb_false. Qed.

(** Case analysis on one comparison of the code, leaving the order fact. *)
Ltac qcase b :=
  let E := fresh "Hcmp" in
  destruct b eqn:E;
  first [ apply Qgeb_true in E | apply Qgeb_false in E
        | apply Qltb_true in E | apply Qltb_false in E
        | apply Qgtb_true in E | apply Qgtb_false in E ].

(** The same, on every comparison the goal tests. *)
Ltac qcases :=
  repeat match goal with
  | |- context [if Py.Qgeb ?a ?b then _ else _] => qcase (Py.Qgeb a b)
  | |- context [if Py.Qltb ?a ?b then _ else _] => qcase (Py.Qltb a b)
  | |- context [if Py.Qgtb ?a ?b then _ else _] => qcase (Py.Qgtb a b)
  end.

(** Linear arithmetic with division by the constants of the code. *)
Ltac qlra :=
  unfold Qdiv in *;
  change (/ 100) with (1 # 100) in *;
  change (/ 200) with (1 # 200) in *;
  lra.

Lemma max2_Qmax a b : Py.max2 a b == Qmax a b.
Proof.
  unfold Py.max2. qcase (Py.Qgtb b a).
  - symmetry. apply Q.max_r. lra.
  - symmetry. apply Q.max_l. lra.
Qed.

Lemma min2_Qmin a b : Py.min2 a b == Qmin a b.
Proof.
  unfold Py.min2. qcase (Py.Qltb b a).
  - symmetry. apply Q.min_r. lra.
  - symmetry. apply Q.min_l. lra.
Qed.

Lemma clamp_bounds w : 0 <= Py.min2 1.0 (Py.max2 0.0 w) <= 1.
Proof.
  unfold Py.min2, Py.max2. qcases; lra.
Qed.

Lemma clamp_clamp01 w : Py.min2 1.0 (Py.max2 0.0 w) == Spec.clamp01 w.
Proof.
  unfold Spec.clamp01. rewrite min2_Qmin.
  apply Q.min_compat; [reflexivity|].
  rewrite max2_Qmax. apply Q.max_compat; reflexivity.
Qed.

(** *** The result monad *)

Lemma bind_OK {A B} (r : result A) (k : A → result B) b :
  (r ≫= k) = OK b → ∃ a, r = OK a ∧ k a = OK b.
Proof. destruct r; simpl; [eauto | discriminate]. Qed.

Lemma for_each_OK {A B} (f : A → result B) xs ys :
  Py.for_each f xs = OK ys → Forall2 (λ x y, f x = OK y) xs ys.
Proof.
  revert ys. induction xs as [|x xs IH]; simpl; intros ys H.
  - injection H as <-. constructor.
  - apply bind_OK in H as (y & Hy & H).
    apply bind_OK in H as (ys' & Hys & H).
    injection H as <-. constructor; auto.
Qed.

Lemma for_each_returns {A B} (f : A → result B) xs :
  Forall (λ x, Py.returns (f x)) xs → Py.returns (Py.for_each f xs).
Proof.
  induction 1 as [|x xs [y Hy] _ [ys Hys]]; simpl.
  - by eexists.
  - rewrite Hy. simpl. rewrite Hys. simpl. by eexists.
Qed.

Lemma for_each_length {A B} (f : A → result B) xs ys :
  Py.for_each f xs = OK ys → length ys = length xs.
Proof. intros H%for_each_OK. symmetry. by eapply Forall2_length. Qed.

Lemma for_each_raises {A B} (f : A → result B) xs :
  Exists (λ x, Py.raises (f x)) xs → Py.raises (Py.for_each f xs).
Proof.
  induction xs as [|x xs IH]; intros H; [by apply Exists_nil in H|].
  cbn [Py.for_each]. destruct (f x) as [y|e] eqn:Hx; [|by exists e].
  apply Exists_cons in H as [[e He]|H]; [congruence|].
  destruct (IH H) as [e ->]. by exists e.
Qed.

(** A comprehension of look-ups raises [KeyError] as soon as one dictionary
    lacks the key. *)
Lemma for_each_getitem_missing (key : string) (ds : list pydict) :
  Exists (λ d : pydict, d !! key = None) ds →
  Py.for_each (λ d, Py.getitem d key) ds = Raise (KeyError key).
Proof.
  induction ds as [|d ds IH]; intros H; [by apply Exists_nil in H|].
  cbn [Py.for_each].
  destruct (d !! key) as [v|] eqn:Hd.
  - assert (Py.getitem d key = OK v) as -> by (unfold Py.getitem; by rewrite Hd).
    apply Exists_cons in H as [H|H]; [congruence|].
    rewrite (IH H). reflexivity.
  - assert (Py.getitem d key = Raise (KeyError key)) as ->
      by (unfold Py.getitem; by rewrite Hd).
    reflexivity.
Qed.

(** *** The stable descending sort *)

Section Sort.
Context {A : Type} (key : A → Q).

Lemma insert_desc_perm x l : Py.insert_desc key x l ≡ₚ x :: l.
Proof.
  induction l as [|y l IH]; simpl; [done|].
  destruct (Py.Qltb (key x) (key y)); [|done].
  rewrite IH. apply Permutation_swap.
Qed.

Lemma sort_desc_perm l : Py.sort_desc key l ≡ₚ l.
Proof.
  induction l as [|x l IH]; simpl; [done|].
  rewrite insert_desc_perm. by rewrite IH.
Qed.

Lemma insert_desc_sorted x l :
  Spec.descending key l → Spec.descending key (Py.insert_desc key x l).
Proof.
  unfold Spec.descending.
  induction 1 as [|y l Hl IH Hy]; simpl.
  - repeat constructor.
  - qcase (Py.Qltb (key x) (key y)).
    + constructor; [done|].
      rewrite insert_desc_perm. constructor; [lra | done].
    + constructor; [by constructor|].
      constructor; [done|].
      eapply Forall_impl; [exact Hy|]. simpl. intros z Hz. lra.
Qed.

Lemma sort_desc_sorted l : Spec.descending key (Py.sort_desc key l).
Proof.
  induction l as [|x l IH]; simpl; [constructor|].
  by apply insert_desc_sorted.
Qed.

End Sort.

End PyFacts.

(** ** The signal detector *)

Module DetectorFacts.
Import Clusterer Detector PyFacts.
#[local] Open Scope Q_scope.

(** *** Velocity *)

Lemma truediv_nonzero a b :
  b ≠ 0%Z → Py.truediv a b = OK (inject_Z a / inject_Z b).
Proof. intros Hb. unfold Py.truediv. by apply Z.eqb_neq in Hb as ->. Qed.

Lemma calc_velocity_new self c :
  default 0%Z (historical_data self !! _get_cluster_key c) = 0%Z →
  _calc_velocity self c = OK (0.8, 100.0).
Proof. intros H. unfold _calc_velocity. by rewrite H. Qed.

Lemma calc_velocity_seen self c h :
  historical_data self !! _get_cluster_key c = Some h → h ≠ 0%Z →
  _calc_velocity self c =
    OK (velocity_of_pct (inject_Z (len_questions c - h) / inject_Z h * 100),
        inject_Z (len_questions c - h) / inject_Z h * 100).
Proof.
  intros Hh Hne. unfold _calc_velocity. rewrite Hh. simpl.
  apply Z.eqb_neq in Hne as Hne'. rewrite Hne'.
  by rewrite truediv_nonzero.
Qed.

Lemma velocity_of_pct_map pct : Spec.velocity_map pct (velocity_of_pct pct).
Proof.
  unfold Spec.velocity_map, velocity_of_pct. repeat split; intros H.
  - qcases; lra.
  - qcases; lra.
  - qcases; try lra. rewrite max2_Qmax. apply Q.max_compat; reflexivity.
Qed.

Lemma velocity_of_pct_monotone p1 p2 :
  p1 <= p2 → velocity_of_pct p1 <= velocity_of_pct p2.
Proof.
  intros H. unfold velocity_of_pct, Py.max2. qcases; qlra.
Qed.

(** C2. No historical match (no count, or the count 0, recorded under the
    cluster's key): velocity score 0.8 and percent change 100.0, whatever
    the current member count.  With a match (a count recorded under the key,
    which the percent change divides by): percent change
    = (current_count - historical_count) / historical_count * 100, and the
    score is the piecewise map of the percent change: >= 100 gives 1.0,
    [0, 100) gives 0.5 + pct/200, below 0 gives max(0, 0.5 + pct/100). *)
Theorem velocity_component (self : SignalDetector) (c : QuestionCluster) :
  let key := _get_cluster_key c in
  let current_count := len_questions c in
  (historical_data self !! key = None ∨ historical_data self !! key = Some 0%Z →
   _calc_velocity self c = OK (0.8, 100.0)) ∧
  (∀ historical_count : Z,
     historical_data self !! key = Some historical_count →
     historical_count ≠ 0%Z →
     ∃ score pct,
       _calc_velocity self c = OK (score, pct) ∧
       pct == inject_Z (current_count - historical_count)
              / inject_Z historical_count * 100 ∧
       Spec.velocity_map pct score).
Proof.
  simpl. split.
  - intros [H|H]; apply calc_velocity_new; by rewrite H.
  - intros h Hh Hne. eexists _, _. split; [by apply calc_velocity_seen|].
    split; [reflexivity | apply velocity_of_pct_map].
Qed.

(** C5. For clusters with a historical match the velocity score is
    non-decreasing in the percent change over [-100, +infinity). *)
Theorem velocity_monotone (self1 self2 : SignalDetector)
    (c1 c2 : QuestionCluster) (h1 h2 : Z) (s1 p1 s2 p2 : Q) :
  historical_data self1 !! _get_cluster_key c1 = Some h1 → h1 ≠ 0%Z →
  historical_data self2 !! _get_cluster_key c2 = Some h2 → h2 ≠ 0%Z →
  _calc_velocity self1 c1 = OK (s1, p1) →
  _calc_velocity self2 c2 = OK (s2, p2) →
  -100 <= p1 → p1 <= p2 → s1 <= s2.
Proof.
  intros Hh1 Hn1 Hh2 Hn2 Hv1 Hv2 _ Hle.
  rewrite (calc_velocity_seen _ _ _ Hh1 Hn1) in Hv1.
  rewrite (calc_velocity_seen _ _ _ Hh2 Hn2) in Hv2.
  injection Hv1 as <- <-. injection Hv2 as <- <-.
  by apply velocity_of_pct_monotone.
Qed.

(** C10. A key recorded with count 0: the velocity treats the cluster as
    brand new (0.8, 100.0) while the novelty treats it as seen (0.3).  The
    velocity tests the count, the novelty the presence of the key: dropping
    the key leaves the velocity as it is and raises the novelty to 1.0. *)
Theorem zero_count_velocity_new_novelty_seen
    (self : SignalDetector) (c : QuestionCluster) :
  historical_data self !! _get_cluster_key c = Some 0%Z →
  _calc_velocity self c = OK (0.8, 100.0) ∧
  _calc_novelty self c = 0.3 ∧
  let self' := Spec.without_history self (_get_cluster_key c) in
  _calc_velocity self' c = OK (0.8, 100.0) ∧
  _calc_novelty self' c = 1.0.
Proof.
  intros H. split; [|split; [|split]].
  - apply calc_velocity_new. by rewrite H.
  - unfold _calc_novelty. by rewrite H.
  - apply calc_velocity_new. simpl. by rewrite lookup_delete_eq.
  - unfold _calc_novelty. simpl. by rewrite lookup_delete_eq.
Qed.

(** *** Scoring one cluster *)

Lemma calc_velocity_returns self c : Py.returns (_calc_velocity self c).
Proof.
  unfold _calc_velocity.
  destruct (Z.eqb_spec (default 0%Z (historical_data self !! _get_cluster_key c)) 0)
    as [|Hne]; [by eexists|].
  rewrite (truediv_nonzero _ _ Hne). by eexists.
Qed.

(** The division of two arbitrary ints: in range it is the quotient,
    and it raises for a zero divisor or an overflowing quotient only. *)
Lemma FLOAT_LIMIT_pos : (0 < Py.FLOAT_LIMIT)%Z.
Proof. vm_compute. reflexivity. Qed.

Lemma truediv_checked_in_range a b :
  b ≠ 0%Z → Spec.fits_float a →
  Py.truediv_checked a b = OK (inject_Z a / inject_Z b).
Proof.
  intros Hb Ha. unfold Py.truediv_checked, Spec.fits_float in *.
  apply Z.eqb_neq in Hb as Hb'. rewrite Hb'.
  pose proof FLOAT_LIMIT_pos as Hpos.
  destruct (Z.leb_spec (Py.FLOAT_LIMIT * Z.abs b) (Z.abs a)) as [Hle|]; [|done].
  exfalso. assert (1 ≤ Z.abs b)%Z by lia.
  set (L := Py.FLOAT_LIMIT) in *. clearbody L. nia.
Qed.

Lemma truediv_checked_OK a b q :
  Py.truediv_checked a b = OK q → b ≠ 0%Z ∧ q = inject_Z a / inject_Z b.
Proof.
  unfold Py.truediv_checked. destruct (Z.eqb_spec b 0); [done|].
  destruct (_ <=? _)%Z; [done|]. by intros [= <-].
Qed.

Lemma truediv_checked_Raise a b e :
  Py.truediv_checked a b = Raise e →
  (e = ZeroDivisionError ∧ b = 0%Z)
  ∨ (e = OverflowError ∧ b ≠ 0%Z ∧ ¬ Spec.fits_float a).
Proof.
  unfold Py.truediv_checked, Spec.fits_float.
  destruct (Z.eqb_spec b 0); [intros [= <-]; by left|].
  destruct (Z.leb_spec (Py.FLOAT_LIMIT * Z.abs b) (Z.abs a)) as [Hle|];
    [|done].
  intros [= <-]. right. split; [done|]. split; [done|].
  pose proof FLOAT_LIMIT_pos as Hpos. assert (1 ≤ Z.abs b)%Z by lia.
  set (L := Py.FLOAT_LIMIT) in *. clearbody L. nia.
Qed.

Lemma calc_engagement_returns self c :
  Spec.engagement_in_range c → Py.returns (_calc_engagement self c).
Proof.
  intros Hr. unfold _calc_engagement.
  destruct (Z.eqb_spec (_max_engagement self) 0) as [|Hne]; [by eexists|].
  rewrite (truediv_checked_in_range _ _ Hne Hr). by eexists.
Qed.

Lemma calc_weirdness_returns c :
  questions c ≠ [] → Spec.engagement_in_range c →
  Py.returns (_calc_weirdness c).
Proof.
  intros Hq Hr. unfold _calc_weirdness.
  destruct (3 <=? _)%Z; [by eexists|].
  rewrite truediv_checked_in_range; [| |exact Hr].
  - simpl. destruct (Py.Qgtb _ _); by eexists.
  - unfold len_questions. destruct (questions c); [done | simpl; lia].
Qed.

(** The bonus is one of three constants, so "positive" and "nonzero" agree. *)
Lemma calc_weirdness_values c w :
  _calc_weirdness c = OK w → w = 0.20 ∨ w = 0.20 * 0.5 ∨ w = 0.0.
Proof.
  unfold _calc_weirdness, MAX_WEIRDNESS_BONUS.
  destruct (3 <=? _)%Z; [intros [= <-]; auto|].
  intros (avg & _ & H)%bind_OK.
  destruct (Py.Qgtb avg 50); injection H as <-; auto.
Qed.

Lemma tier_of_bucket f :
  (0.85 <= f → tier_of f = "breakout"%string) ∧
  (0.75 <= f < 0.85 → tier_of f = "strong"%string) ∧
  (0.70 <= f < 0.75 → tier_of f = "signal"%string) ∧
  (f < 0.70 → tier_of f = "noise"%string).
Proof.
  unfold tier_of, TIER_BREAKOUT, TIER_STRONG, TIER_SIGNAL.
  repeat split; intros H; qcases; first [reflexivity | lra].
Qed.

(** What [_score_cluster] guarantees of the signal it returns. *)
Record scored (self : SignalDetector) (s : CuriositySignal) : Prop := {
  scored_final : final_score s == Spec.clamp01 (Spec.weighted_sum s);
  scored_bounds : 0 <= final_score s <= 1;
  scored_tier : Spec.tier_is_bucket s;
  scored_is_signal : is_signal s = Py.Qgeb (final_score s) (threshold self);
  scored_weirdness :
    weirdness_bonus s = 0.20 ∨ weirdness_bonus s = 0.20 * 0.5
    ∨ weirdness_bonus s = 0.0;
}.

Lemma score_cluster_scored self c s :
  _score_cluster self c = OK s → scored self s.
Proof.
  unfold _score_cluster.
  intros (sample & _ & H)%bind_OK.
  apply bind_OK in H as ([v pct] & _ & H).
  apply bind_OK in H as (e & _ & H).
  apply bind_OK in H as (w & Hw & H).
  injection H as <-. split; simpl.
  - apply clamp_clamp01.
  - apply clamp_bounds.
  - apply tier_of_bucket.
  - reflexivity.
  - exact (calc_weirdness_values _ _ Hw).
Qed.

Lemma score_cluster_returns self c :
  Spec.well_formed c → Spec.engagement_in_range c →
  Py.returns (_score_cluster self c).
Proof.
  intros [Hne Hraw] Hrange. unfold _score_cluster.
  destruct (for_each_returns (λ q : pydict, Py.getitem q "raw_text")
              (take 5 (questions c))) as [sample ->].
  { eapply Forall_impl; [exact Hraw|]. intros q [v Hv].
    unfold Py.getitem. rewrite Hv. by eexists. }
  destruct (calc_velocity_returns self c) as [[v pct] ->].
  destruct (calc_engagement_returns self c Hrange) as [e ->].
  destruct (calc_weirdness_returns c Hne Hrange) as [w ->].
  simpl. by eexists.
Qed.

(** *** [detect] *)

(** [detect] scores every cluster with the detector it leaves behind and
    returns the signals sorted by score. *)
Lemma detect_OK self self' clusters signals :
  detect self clusters = (OK signals, self') →
  ∃ sigs,
    Forall2 (λ c s, _score_cluster self' c = OK s) clusters sigs ∧
    signals = Py.sort_desc final_score sigs.
Proof.
  unfold detect. destruct clusters as [|c cs].
  { intros [= <- _]. exists []. split; [constructor | done]. }
  remember (c :: cs) as clusters eqn:E.
  intros [= H <-].
  apply bind_OK in H as (sigs & Hs & H). injection H as <-.
  exists sigs. split; [by apply for_each_OK | done].
Qed.

(** C1. Every signal [detect] returns has a final score in [0, 1], the
    weighted sum of its components clamped to [0, 1], and its tier is the
    bucket of that score: >= 0.85 breakout, >= 0.75 strong, >= 0.70 signal,
    otherwise noise. *)
Theorem detect_score_and_tier (self self' : SignalDetector)
    (clusters : list QuestionCluster) (signals : list CuriositySignal) :
  detect self clusters = (OK signals, self') →
  Forall (λ s,
    final_score s == Spec.clamp01 (Spec.weighted_sum s) ∧
    0 <= final_score s <= 1 ∧
    Spec.tier_is_bucket s) signals.
Proof.
  intros (sigs & Hs & ->)%detect_OK.
  rewrite sort_desc_perm.
  eapply Forall2_Forall_r; [exact Hs|].
  apply Forall_forall. intros c' _ s Hsc.
  destruct (score_cluster_scored _ _ _ Hsc). auto.
Qed.

Lemma score_cluster_missing_raw_text self c :
  Exists (λ q : pydict, q !! "raw_text"%string = None) (take 5 (questions c)) →
  _score_cluster self c = Raise (KeyError "raw_text").
Proof.
  intros H. unfold _score_cluster.
  by rewrite (for_each_getitem_missing "raw_text" _ H).
Qed.

(** C7 (as the code has it). An empty cluster list yields an empty output,
    and [detect] returns a signal per cluster, without raising, whenever
    every cluster has a member, the members it samples carry a [raw_text],
    and its total engagement is within the range of a float (so that the
    two divisions of the engagement cannot overflow).  The detector fills in
    no defaults: a sampled member record without [raw_text] makes [detect]
    raise. *)
Theorem detect_returns_on_well_formed :
  (∀ self, detect self [] = (OK [], self)) ∧
  (∀ self clusters,
     Forall Spec.well_formed clusters →
     Forall Spec.engagement_in_range clusters →
     ∃ signals self',
       detect self clusters = (OK signals, self') ∧
       length signals = length clusters) ∧
  (∀ self clusters,
     Exists (λ c, Exists (λ q : pydict, q !! "raw_text"%string = None)
                    (take 5 (questions c))) clusters →
     Py.raises (detect self clusters).1).
Proof.
  split; [done|]. split.
  - intros self clusters Hwf Hrange. unfold detect.
    destruct clusters as [|c cs]; [by eexists _, _|].
    set (self1 := set_normalization self c cs).
    destruct (for_each_returns (_score_cluster self1) (c :: cs)) as [sigs Hs].
    { rewrite Forall_forall in Hwf, Hrange. apply Forall_forall.
      intros c' Hc'. apply score_cluster_returns; auto. }
    rewrite Hs. eexists _, _. split; [reflexivity|].
    rewrite (Permutation_length (sort_desc_perm _ _)).
    by apply for_each_length in Hs.
  - intros self clusters Hbad. unfold detect.
    destruct clusters as [|c cs]; [by apply Exists_nil in Hbad|].
    set (self1 := set_normalization self c cs).
    destruct (for_each_raises (_score_cluster self1) (c :: cs)) as [e He].
    { eapply Exists_impl; [exact Hbad|]. intros c' Hc'.
      eexists. by apply score_cluster_missing_raw_text. }
    exists e. cbn [fst]. by rewrite He.
Qed.

(** *** [get_weird_picks] *)

(** The test of the loop is the specification's: bonus nonzero and score
    below the is-signal threshold. *)
Lemma weird_test self s :
  scored self s →
  Py.Qgtb (weirdness_bonus s) 0 && negb (is_signal s)
  = bool_decide (Spec.weird_pick self s).
Proof.
  intros [_ _ _ Hsig Hw]. rewrite Hsig. unfold Spec.weird_pick.
  assert (Py.Qgtb (weirdness_bonus s) 0 = true ∧ ¬ weirdness_bonus s == 0
          ∨ Py.Qgtb (weirdness_bonus s) 0 = false ∧ weirdness_bonus s == 0)
    as [[-> Hnz]|[-> Hz]].
  { destruct Hw as [->|[->| ->]]; [left | left | right]; by split. }
  - simpl. qcase (Py.Qgeb (final_score s) (threshold self)); simpl.
    + rewrite bool_decide_eq_false_2; [done|]. intros [_ Hlt]. lra.
    + by rewrite bool_decide_eq_true_2.
  - simpl. rewrite bool_decide_eq_false_2; [done|]. tauto.
Qed.

Lemma weird_loop_OK self clusters weird r :
  weird_loop self clusters weird = OK r →
  ∃ sigs,
    Forall2 (λ c s, _score_cluster self c = OK s) clusters sigs ∧
    r = weird ++ filter (Spec.weird_pick self) sigs.
Proof.
  revert weird. induction clusters as [|c cs IH]; simpl; intros weird H.
  - injection H as <-. exists []. split; [constructor|].
    by rewrite filter_nil, app_nil_r.
  - apply bind_OK in H as (s & Hs & H).
    rewrite (weird_test self s (score_cluster_scored _ _ _ Hs)) in H.
    case_bool_decide as Hw.
    + apply IH in H as (sigs & Hsigs & ->). exists (s :: sigs).
      split; [by constructor|].
      by rewrite filter_cons_True, <- app_assoc.
    + apply IH in H as (sigs & Hsigs & ->). exists (s :: sigs).
      split; [by constructor|].
      by rewrite filter_cons_False.
Qed.

Lemma slice_to_nonneg {A} (xs : list A) n :
  (0 ≤ n)%Z → Py.slice_to xs n = take (Z.to_nat n) xs.
Proof.
  intros Hn. unfold Py.slice_to.
  by destruct (Z.ltb_spec n 0); [lia|].
Qed.

Lemma slice_to_take {A} (xs : list A) n : ∃ k, Py.slice_to xs n = take k xs.
Proof. unfold Py.slice_to. destruct (n <? 0)%Z; by eexists. Qed.

(** C4. [get_weird_picks] returns the signals whose weirdness bonus is
    nonzero and whose final score is below the is-signal threshold, sorted
    descending by weirdness bonus and truncated to [count]; none of them has
    [is_signal] set. *)
Theorem weird_picks_exact (self : SignalDetector)
    (clusters : list QuestionCluster) (count : Z)
    (picks : list CuriositySignal) :
  get_weird_picks self clusters count = OK picks →
  ∃ sigs sorted,
    Forall2 (λ c s, _score_cluster self c = OK s) clusters sigs ∧
    sorted ≡ₚ filter (Spec.weird_pick self) sigs ∧
    Spec.descending weirdness_bonus sorted ∧
    picks = Py.slice_to sorted count ∧
    ((0 ≤ count)%Z → picks = take (Z.to_nat count) sorted) ∧
    Forall (λ s, is_signal s = false) picks.
Proof.
  unfold get_weird_picks. intros (weird & Hw & H)%bind_OK.
  injection H as <-.
  apply weird_loop_OK in Hw as (sigs & Hsigs & ->). simpl.
  set (weird := filter (Spec.weird_pick self) sigs).
  exists sigs, (Py.sort_desc weirdness_bonus weird).
  split; [done|]. split; [apply sort_desc_perm|].
  split; [apply sort_desc_sorted|]. split; [done|].
  split; [apply slice_to_nonneg|].
  destruct (slice_to_take (Py.sort_desc weirdness_bonus weird) count) as [k ->].
  apply Forall_take. rewrite sort_desc_perm.
  apply Forall_forall. intros s [[_ Hlt] Hin]%list_elem_of_filter.
  assert (scored self s) as [_ _ _ -> _].
  { apply list_elem_of_lookup in Hin as [i Hi].
    destruct (Forall2_lookup_r _ _ _ _ _ Hsigs Hi) as (c & _ & Hc).
    by eapply score_cluster_scored. }
  apply Qgeb_false. exact Hlt.
Qed.

(** *** The cached normalisation *)

Lemma max_ints_upper x xs : Forall (λ z, (z ≤ Py.max_ints x xs)%Z) (x :: xs).
Proof.
  unfold Py.max_ints. revert x. induction xs as [|y ys IH]; intros x; simpl.
  - repeat constructor. lia.
  - specialize (IH (Z.max x y)). apply Forall_cons in IH as [Hm IH].
    repeat constructor; [lia | lia | done].
Qed.

Lemma max_ints_elem x xs : Py.max_ints x xs ∈ x :: xs.
Proof.
  unfold Py.max_ints. revert x. induction xs as [|y ys IH]; intros x; simpl.
  - left.
  - specialize (IH (Z.max x y)). apply elem_of_cons in IH as [->|IH].
    + destruct (Z.max_spec x y) as [[_ ->]|[_ ->]]; [right; left | left].
    + right. by right.
Qed.

(** The maximum does not depend on the order of the sequence. *)
Lemma max_ints_perm x xs y ys :
  x :: xs ≡ₚ y :: ys → Py.max_ints x xs = Py.max_ints y ys.
Proof.
  intros Hperm.
  pose proof (max_ints_upper x xs) as Hx. pose proof (max_ints_upper y ys) as Hy.
  pose proof (max_ints_elem x xs) as Hxin. pose proof (max_ints_elem y ys) as Hyin.
  rewrite Hperm in Hxin. rewrite <- Hperm in Hyin.
  rewrite Forall_forall in Hx, Hy.
  apply Hy in Hxin. apply Hx in Hyin. lia.
Qed.

(** [detect] overwrites the cached ceilings: what it leaves depends on the
    clusters, in any order, and not on what the detector held before. *)
Lemma set_normalization_perm self1 self2 c1 cs1 c2 cs2 :
  threshold self1 = threshold self2 →
  historical_data self1 = historical_data self2 →
  c1 :: cs1 ≡ₚ c2 :: cs2 →
  set_normalization self1 c1 cs1 = set_normalization self2 c2 cs2.
Proof.
  intros Hthr Hhist Hperm. unfold set_normalization.
  rewrite Hthr, Hhist.
  rewrite (max_ints_perm (Clusterer.total_engagement c1)
             (Clusterer.total_engagement <$> cs1)
             (Clusterer.total_engagement c2)
             (Clusterer.total_engagement <$> cs2)).
  2: { rewrite <- !fmap_cons. by apply fmap_Permutation. }
  rewrite (max_ints_perm (len_questions c1) (len_questions <$> cs1)
             (len_questions c2) (len_questions <$> cs2)).
  2: { rewrite <- !fmap_cons. by apply fmap_Permutation. }
  reflexivity.
Qed.

Lemma for_each_perm {A B} (f : A → result B) xs xs' ys :
  xs ≡ₚ xs' → Py.for_each f xs = OK ys →
  ∃ ys', Py.for_each f xs' = OK ys' ∧ ys ≡ₚ ys'.
Proof.
  intros Hperm. revert ys.
  induction Hperm as [|x l l' _ IH|x y l|l l' l'' _ IH1 _ IH2]; intros ys H.
  - by exists ys.
  - cbn [Py.for_each] in *. apply bind_OK in H as (y & Hy & H).
    apply bind_OK in H as (ys0 & Hys0 & H). injection H as <-.
    destruct (IH _ Hys0) as (ys0' & -> & Hp). rewrite Hy.
    exists (y :: ys0'). split; [done | by constructor].
  - cbn [Py.for_each] in *. apply bind_OK in H as (a & Ha & H).
    apply bind_OK in H as (ys0 & H & H'). injection H' as <-.
    apply bind_OK in H as (b & Hb & H).
    apply bind_OK in H as (ys1 & Hys1 & H). injection H as <-.
    rewrite Hb, Ha, Hys1. exists (b :: a :: ys1). split; [done | constructor].
  - destruct (IH1 _ H) as (ys1 & H1 & Hp1).
    destruct (IH2 _ H1) as (ys2 & H2 & Hp2).
    exists ys2. split; [done | by etrans].
Qed.

(** Two runs of [detect] over the same clusters, in any order and from any
    earlier state of the detector, return the same signals. *)
Lemma detect_reproducible self1 self2 clusters1 clusters2 signals1 self1' :
  threshold self1 = threshold self2 →
  historical_data self1 = historical_data self2 →
  clusters1 ≡ₚ clusters2 →
  detect self1 clusters1 = (OK signals1, self1') →
  ∃ signals2 self2',
    detect self2 clusters2 = (OK signals2, self2') ∧ signals1 ≡ₚ signals2.
Proof.
  intros Hthr Hhist Hperm. unfold detect.
  destruct clusters1 as [|c1 cs1].
  { apply Permutation_nil_l in Hperm. subst clusters2. intros [= <- _].
    by eexists _, _. }
  destruct clusters2 as [|c2 cs2].
  { by apply Permutation_nil_r in Hperm. }
  rewrite (set_normalization_perm self1 self2 c1 cs1 c2 cs2 Hthr Hhist Hperm).
  remember (c1 :: cs1) as l1. remember (c2 :: cs2) as l2.
  intros [= H _]. apply bind_OK in H as (sigs & Hs & H). injection H as <-.
  destruct (for_each_perm _ _ _ _ Hperm Hs) as (sigs' & -> & Hp).
  eexists _, _. split; [reflexivity|].
  by rewrite !sort_desc_perm.
Qed.

Lemma Forall2_score_functional self clusters sigs sigs' :
  Forall2 (λ c s, _score_cluster self c = OK s) clusters sigs →
  Forall2 (λ c s, _score_cluster self c = OK s) clusters sigs' →
  sigs = sigs'.
Proof.
  intros H. revert sigs'. induction H as [|c s cs sigs Hs _ IH]; intros sigs' H'.
  - by apply Forall2_nil_inv_l in H'.
  - apply Forall2_cons_inv_l in H' as (s' & sigs'' & Hs' & H' & ->).
    f_equal; [congruence | by apply IH].
Qed.

(** Called after [detect] on the same clusters, [get_weird_picks] returns
    signals that [detect] returned. *)
Lemma weird_picks_after_detect self self' clusters signals count picks :
  detect self clusters = (OK signals, self') →
  get_weird_picks self' clusters count = OK picks →
  picks ⊆ signals.
Proof.
  intros (sigs & Hs & ->)%detect_OK Hp.
  unfold get_weird_picks in Hp. apply bind_OK in Hp as (weird & Hw & Hp).
  injection Hp as <-.
  apply weird_loop_OK in Hw as (sigs' & Hs' & ->). simpl.
  rewrite (Forall2_score_functional _ _ _ _ Hs' Hs).
  intros s Hin. rewrite sort_desc_perm.
  destruct (slice_to_take (Py.sort_desc weirdness_bonus
              (filter (Spec.weird_pick self') sigs)) count) as [k Hk].
  rewrite Hk in Hin. apply (sublist_subseteq _ _ (sublist_take _ _)) in Hin.
  rewrite sort_desc_perm in Hin.
  by apply list_elem_of_filter in Hin as [_ Hin].
Qed.

(** C3. [detect] recomputes the engagement ceiling from the clusters it is
    given; [get_weird_picks] scores against whatever ceiling the detector
    holds.  On a new detector (ceiling 1) the single-question cluster scores
    0.78, "strong", and is no weird pick; once [detect] has run over the
    same three clusters it scores 6007/10150, "noise", and is the weird
    pick: same cluster list, same historical map, same threshold. *)
Theorem weird_picks_score_with_cached_ceiling :
  let clusters := [Examples.vision; Examples.local_llm; Examples.niche] in
  let primed := (detect Examples.fresh clusters).2 in
  threshold primed = threshold Examples.fresh ∧
  historical_data primed = historical_data Examples.fresh ∧
  ∃ before after,
    _score_cluster Examples.fresh Examples.niche = OK before ∧
    _score_cluster primed Examples.niche = OK after ∧
    final_score before == 0.78 ∧ tier before = "strong"%string ∧
    is_signal before = true ∧
    final_score after == 6007 # 10150 ∧ tier after = "noise"%string ∧
    is_signal after = false ∧
    get_weird_picks Examples.fresh clusters 5 = OK [] ∧
    get_weird_picks primed clusters 5 = OK [after] ∧
    In after (match (detect Examples.fresh clusters).1 with
              | OK signals => signals
              | Raise _ => []
              end).
Proof.
  intros clusters primed.
  split; [vm_compute; reflexivity|]. split; [vm_compute; reflexivity|].
  eexists _, _.
  split; [vm_compute; reflexivity|]. split; [vm_compute; reflexivity|].
  do 8 (split; [vm_compute; reflexivity|]).
  vm_compute. right. right. left. reflexivity.
Qed.

(** *** Concrete checks *)

Lemma velocity_component_witness :
  _calc_velocity Examples.fresh Examples.vision = OK (0.8, 100.0) ∧
  ∃ score pct,
    _calc_velocity Examples.seasoned Examples.vision = OK (score, pct) ∧
    pct == 50 ∧ score == 0.75.
Proof.
  split.
  { apply (velocity_component Examples.fresh Examples.vision).
    left. vm_compute; reflexivity. }
  destruct (velocity_component Examples.seasoned Examples.vision) as [_ H].
  destruct (H 2%Z) as (score & pct & Hv & Hpct & Hmap).
  - vm_compute; reflexivity.
  - discriminate.
  - exists score, pct. split; [exact Hv|].
    assert (pct == 50) as Hp by (rewrite Hpct; vm_compute; reflexivity).
    split; [exact Hp|].
    destruct Hmap as (_ & Hmid & _). rewrite Hmid; [rewrite Hp; reflexivity|].
    rewrite Hp. split; [vm_compute; discriminate | reflexivity].
Defined.

Lemma velocity_monotone_witness :
  ∃ s1 p1 s2 p2,
    _calc_velocity Examples.seasoned Examples.local_llm = OK (s1, p1) ∧
    _calc_velocity Examples.seasoned Examples.vision = OK (s2, p2) ∧
    p1 == -25 ∧ p2 == 50 ∧ s1 <= s2.
Proof.
  eexists _, _, _, _.
  split; [vm_compute; reflexivity|]. split; [vm_compute; reflexivity|].
  split; [reflexivity|]. split; [reflexivity|].
  apply (velocity_monotone Examples.seasoned Examples.seasoned
           Examples.local_llm Examples.vision 4 2 _ (-100 # 4) _ (100 # 2)).
  - vm_compute; reflexivity.
  - discriminate.
  - vm_compute; reflexivity.
  - discriminate.
  - vm_compute; reflexivity.
  - vm_compute; reflexivity.
  - vm_compute; discriminate.
  - vm_compute; discriminate.
Defined.

Lemma zero_count_witness :
  historical_data Examples.seasoned !! _get_cluster_key Examples.niche = Some 0%Z ∧
  _calc_velocity Examples.seasoned Examples.niche = OK (0.8, 100.0) ∧
  _calc_novelty Examples.seasoned Examples.niche = 0.3.
Proof.
  split; [vm_compute; reflexivity|].
  destruct (zero_count_velocity_new_novelty_seen Examples.seasoned Examples.niche)
    as (Hv & Hn & _); [vm_compute; reflexivity|].
  by split.
Defined.

Lemma detect_score_and_tier_witness :
  ∃ signals,
    (detect Examples.seasoned
       [Examples.vision; Examples.local_llm; Examples.niche]).1 = OK signals ∧
    length signals = 3%nat ∧
    Forall (λ s,
      final_score s == Spec.clamp01 (Spec.weighted_sum s) ∧
      0 <= final_score s <= 1 ∧
      Spec.tier_is_bucket s) signals.
Proof.
  eexists. split; [vm_compute; reflexivity|]. split; [reflexivity|].
  eapply (detect_score_and_tier Examples.seasoned _
            [Examples.vision; Examples.local_llm; Examples.niche]).
  vm_compute; reflexivity.
Defined.

Lemma weird_picks_exact_witness :
  let primed :=
    (detect Examples.fresh
       [Examples.vision; Examples.local_llm; Examples.niche]).2 in
  ∃ picks sigs sorted,
    get_weird_picks primed
      [Examples.vision; Examples.local_llm; Examples.niche] 5 = OK picks ∧
    length picks = 1%nat ∧ length sigs = 3%nat ∧
    sorted ≡ₚ filter (Spec.weird_pick primed) sigs ∧
    picks = take 5 sorted ∧
    Forall (λ s, is_signal s = false) picks.
Proof.
  intros primed. eexists.
  edestruct (weird_picks_exact
    (detect Examples.fresh
       [Examples.vision; Examples.local_llm; Examples.niche]).2
    [Examples.vision; Examples.local_llm; Examples.niche] 5)
    as (sigs & sorted & Hs & Hperm & _ & _ & Htake & Hsig).
  { vm_compute; reflexivity. }
  exists sigs, sorted. split; [reflexivity|]. split; [reflexivity|].
  split; [by apply Forall2_length in Hs|]. split; [exact Hperm|].
  split; [by apply Htake | exact Hsig].
Defined.

Lemma detect_returns_on_well_formed_witness :
  Forall Spec.well_formed [Examples.vision; Examples.local_llm; Examples.niche] ∧
  Forall Spec.engagement_in_range
    [Examples.vision; Examples.local_llm; Examples.niche] ∧
  (∃ signals self',
     detect Examples.fresh [Examples.vision; Examples.local_llm; Examples.niche]
     = (OK signals, self') ∧
     length signals = 3%nat) ∧
  Py.raises (detect Examples.fresh [Examples.vision; Examples.untitled]).1.
Proof.
  assert (Forall Spec.well_formed
            [Examples.vision; Examples.local_llm; Examples.niche]) as Hwf.
  { repeat constructor; try discriminate; by eexists. }
  assert (Forall Spec.engagement_in_range
            [Examples.vision; Examples.local_llm; Examples.niche]) as Hrange.
  { apply Forall_cons_2; [vm_compute; reflexivity|].
    apply Forall_cons_2; [vm_compute; reflexivity|].
    apply Forall_cons_2; [vm_compute; reflexivity|]. apply Forall_nil_2. }
  destruct detect_returns_on_well_formed as (_ & Hok & Hbad).
  split; [exact Hwf|]. split; [exact Hrange|].
  split; [exact (Hok Examples.fresh _ Hwf Hrange)|].
  apply Hbad. apply Exists_cons_tl, Exists_cons_hd, Exists_cons_hd.
  vm_compute. reflexivity.
Defined.

(** C7, as stated, fails: a member record without [raw_text] makes
    [detect] raise. *)
Lemma detect_raises_on_missing_raw_text :
  (detect Examples.fresh [Examples.vision; Examples.untitled]).1
  = Raise (KeyError "raw_text").
Proof. vm_compute; reflexivity. Qed.

(** So does a cluster built with every defaulted field left out. *)
Lemma detect_raises_on_default_cluster :
  (detect Examples.fresh [QuestionCluster_defaults 7 "q"]).1
  = Raise ZeroDivisionError.
Proof. vm_compute; reflexivity. Qed.

(** And so does a well-formed cluster whose total engagement is beyond the
    range of a float: the average per question overflows. *)
Lemma detect_raises_on_huge_engagement :
  Spec.well_formed Examples.astronomic ∧
  (detect Examples.fresh [Examples.vision; Examples.astronomic]).1
  = Raise OverflowError.
Proof.
  split; [|vm_compute; reflexivity].
  split; [discriminate|]. apply Forall_cons_2; [by eexists | apply Forall_nil_2].
Qed.

End DetectorFacts.

(** ** The clusterer *)

Module ClustererFacts.
Import Clusterer PyFacts.

(** The defaulting of missing numeric fields lives here: a member record
    without [upvotes] and [comments] adds zero to the total engagement. *)
Lemma sum_engagement_missing (q : pydict) qs acc :
  q !! "upvotes"%string = None → q !! "comments"%string = None →
  sum_engagement (q :: qs) acc = sum_engagement qs acc.
Proof.
  intros Hu Hc. cbn [sum_engagement]. unfold Py.get. rewrite Hu, Hc. simpl.
  f_equal. lia.
Qed.

Section WithHDBSCAN.
Variable fit_predict : Z → Z → string → list vec → result (list Z).

Lemma cluster_too_few self questions :
  (Z.of_nat (length questions) < min_cluster_size self)%Z →
  cluster fit_predict self questions = OK [].
Proof.
  intros H. unfold cluster.
  apply Z.ltb_lt in H as ->. by rewrite orb_true_r.
Qed.

Lemma cluster_missing_embedding self questions :
  questions ≠ [] →
  (min_cluster_size self ≤ Z.of_nat (length questions))%Z →
  Exists (λ q : pydict, q !! "embedding"%string = None) questions →
  cluster fit_predict self questions = Raise (KeyError "embedding").
Proof.
  intros Hne Hmin Hmiss. unfold cluster.
  destruct questions as [|q qs]; [done|].
  apply Z.ltb_ge in Hmin as ->. cbn [Py.is_empty orb].
  by rewrite for_each_getitem_missing.
Qed.

End WithHDBSCAN.

(** C6 (as the code has it). [cluster] returns the empty list, without
    raising, on an empty input and on fewer questions than
    [min_cluster_size].  Given at least [min_cluster_size] questions, one of
    which carries no embedding, it raises [KeyError] instead of returning an
    empty list. *)
Theorem cluster_empty_or_key_error
    (fit_predict : Z → Z → string → list vec → result (list Z))
    (self : QuestionClusterer) :
  cluster fit_predict self [] = OK [] ∧
  (∀ questions,
     (Z.of_nat (length questions) < min_cluster_size self)%Z →
     cluster fit_predict self questions = OK []) ∧
  (∀ questions,
     questions ≠ [] →
     (min_cluster_size self ≤ Z.of_nat (length questions))%Z →
     Exists (λ q : pydict, q !! "embedding"%string = None) questions →
     cluster fit_predict self questions = Raise (KeyError "embedding")).
Proof.
  split; [done|]. split.
  - apply cluster_too_few.
  - apply cluster_missing_embedding.
Qed.

Lemma cluster_empty_or_key_error_witness :
  let self := Clusterer.__init__ None None None None in
  cluster Examples.one_cluster self [] = OK [] ∧
  cluster Examples.one_cluster self (take 2 Examples.unembedded) = OK [] ∧
  cluster Examples.one_cluster self Examples.unembedded
  = Raise (KeyError "embedding").
Proof.
  intros self.
  destruct (cluster_empty_or_key_error Examples.one_cluster self)
    as (Hnil & Hfew & Hkey).
  split; [exact Hnil|]. split.
  - apply Hfew. vm_compute. reflexivity.
  - apply Hkey.
    + discriminate.
    + vm_compute. discriminate.
    + apply Exists_cons_hd. vm_compute. reflexivity.
Defined.

(** C6, as stated, fails: three questions without embeddings, with the
    default [min_cluster_size] of 3, do not give an empty result. *)
Lemma cluster_raises_without_embeddings :
  cluster Examples.one_cluster (Clusterer.__init__ None None None None)
    Examples.unembedded
  = Raise (KeyError "embedding").
Proof. vm_compute; reflexivity. Qed.

(** The example scenario of the specification: three questions clustered
    together, with [min_cluster_size = 2], give one cluster holding all
    three; its canonical question is the member nearest the centroid, its
    platform count the number of distinct platforms. *)
Lemma cluster_example :
  ∃ c,
    cluster Examples.one_cluster (Clusterer.__init__ (Some 2%Z) None None None)
      Examples.embedded = OK [c] ∧
    questions c = Examples.embedded ∧
    canonical_question c = "How do I use GPT-4 Vision API?"%string ∧
    cross_platform_count c = 2%Z ∧
    total_engagement c = 493%Z.
Proof. eexists. split; [vm_compute; reflexivity|]. repeat split. Qed.

End ClustererFacts.

(** ** The embedder *)

Module EmbedderFacts.
Import Embedder PyFacts.

(** *** Item assignment *)

Lemma setitem_nat {A} (xs : list A) (i : nat) (x : A) :
  (i < length xs)%nat → Py.setitem xs (Z.of_nat i) x = OK (<[i := x]> xs).
Proof.
  intros Hi. unfold Py.setitem.
  destruct (Z.leb_spec 0 (Z.of_nat i)); [|lia].
  destruct (Z.ltb_spec (Z.of_nat i) (Z.of_nat (length xs))); [|lia].
  simpl. by rewrite Nat2Z.id.
Qed.

Lemma setitem_length {A} (xs ys : list A) (i : Z) (x : A) :
  Py.setitem xs i x = OK ys → length ys = length xs.
Proof.
  unfold Py.setitem.
  destruct (_ && _); [intros [= <-]; apply length_insert|].
  destruct (_ && _); [intros [= <-]; apply length_insert | discriminate].
Qed.

Lemma place_length data acc r :
  place data acc = OK r → length r = length acc.
Proof.
  revert acc. induction data as [|it data IH]; simpl; intros acc H.
  - by injection H as <-.
  - apply bind_OK in H as (acc' & Hset & H).
    apply IH in H. apply setitem_length in Hset. congruence.
Qed.

(** Placing items whose positions are in range and pairwise distinct: every
    item lands at its position, every other slot keeps what it held. *)
Lemma place_lookup data acc :
  Forall (λ it, ∃ i : nat, index it = Z.of_nat i ∧ (i < length acc)%nat) data →
  NoDup (index <$> data) →
  ∃ r, place data acc = OK r ∧
    (∀ it (i : nat), it ∈ data → index it = Z.of_nat i →
       r !! i = Some (Some (embedding it))) ∧
    (∀ i : nat, (∀ it, it ∈ data → index it ≠ Z.of_nat i) → r !! i = acc !! i).
Proof.
  revert acc. induction data as [|it data IH]; intros acc Hrange Hnodup.
  { exists acc. split; [done|]. split; [|done].
    intros it i Hin. by apply elem_of_nil in Hin. }
  apply Forall_cons in Hrange as [(k & Hk & Hlt) Hrange].
  rewrite fmap_cons in Hnodup. apply NoDup_cons in Hnodup as [Hfresh Hnodup].
  cbn [place]. rewrite Hk, (setitem_nat _ _ _ Hlt). simpl.
  destruct (IH (<[k := Some (embedding it)]> acc)) as (r & -> & Hhit & Hmiss).
  { eapply Forall_impl; [exact Hrange|].
    intros it' (i & Hi & Hlt'). exists i. by rewrite length_insert. }
  { exact Hnodup. }
  exists r. split; [done|]. split.
  - intros it' i [->|Hin]%elem_of_cons Hi.
    + assert (i = k) as -> by lia.
      rewrite Hmiss; [by apply list_lookup_insert_eq|].
      intros it' Hin' Heq. apply Hfresh.
      apply list_elem_of_fmap. exists it'. split; [congruence | done].
    + by apply Hhit.
  - intros i Hi. rewrite Hmiss.
    + apply list_lookup_insert_ne. intros ->.
      apply (Hi it); [left | done].
    + intros it' Hin. apply Hi. by right.
Qed.

(** An answer that is a permutation of the tagged batch fills the slots in
    the order of the batch. *)
Lemma place_answer (E : string → list Q) (batch : list string) data :
  data ≡ₚ imap (λ i t, {| index := Z.of_nat i; embedding := E t |}) batch →
  place data (replicate (length batch) None) = OK (Some ∘ E <$> batch).
Proof.
  intros Hperm.
  set (tag := λ (i : nat) (t : string),
                {| index := Z.of_nat i; embedding := E t |}) in *.
  destruct (place_lookup data (replicate (length batch) None))
    as (r & Hr & Hhit & _).
  { rewrite Hperm. apply Forall_forall.
    intros it (i & t & -> & Ht)%elem_of_lookup_imap.
    exists i. split; [done|]. rewrite length_replicate.
    by eapply lookup_lt_Some. }
  { rewrite Hperm. unfold tag. rewrite fmap_imap.
    replace (imap _ batch) with (Z.of_nat <$> seq 0 (length batch)).
    - apply NoDup_fmap; [apply _ | apply NoDup_seq].
    - apply list_eq. intros i.
      rewrite list_lookup_fmap, list_lookup_imap.
      destruct (batch !! i) as [t|] eqn:Ht; simpl.
      + apply lookup_lt_Some in Ht.
        by rewrite lookup_seq_lt.
      + apply lookup_ge_None in Ht. by rewrite lookup_seq_ge. }
  rewrite Hr. f_equal. apply list_eq. intros i.
  rewrite list_lookup_fmap.
  destruct (batch !! i) as [t|] eqn:Ht; simpl.
  - apply (Hhit (tag i t)); [|done].
    rewrite Hperm. apply elem_of_lookup_imap. eauto.
  - apply lookup_ge_None. apply lookup_ge_None in Ht.
    apply place_length in Hr. rewrite length_replicate in Hr. lia.
Qed.

(** *** Batching *)

Lemma chunks_concat {A} (size : nat) (l : list A) (m : nat) :
  (length l ≤ m * size)%nat →
  concat ((λ i, take size (drop i l)) <$> ((λ k, k * size)%nat <$> seq 0 m)) = l.
Proof.
  revert l. induction m as [|m IH]; intros l Hlen.
  - simpl in *. destruct l; [done | simpl in Hlen; lia].
  - cbn [seq fmap list_fmap concat]. rewrite Nat.mul_0_l, drop_0.
    rewrite <- fmap_S_seq, <- !list_fmap_compose.
    rewrite <- (take_drop size l) at 2. f_equal.
    rewrite <- (IH (drop size l)) at 1.
    + rewrite <- list_fmap_compose. f_equal.
      apply list_fmap_ext. intros _ k _. simpl.
      by rewrite drop_drop.
    + rewrite length_drop. lia.
Qed.

Lemma range_step_covers (n step : nat) :
  (0 < step)%nat → (n ≤ (n + step - 1) / step * step)%nat.
Proof.
  intros Hstep.
  pose proof (Nat.div_mod_eq (n + step - 1) step) as Hdiv.
  pose proof (Nat.mod_upper_bound (n + step - 1) step) as Hmod.
  nia.
Qed.

Lemma batches_concat (texts : list string) :
  concat ((λ i, take BATCH_SIZE (drop i texts))
          <$> Py.range_step (length texts) BATCH_SIZE) = texts.
Proof.
  apply chunks_concat, range_step_covers. unfold BATCH_SIZE. lia.
Qed.

Section WithClient.
Context {Service : Type}.
Variable create : Service → string → list string → result (list Item) * Service.
Variable model : string.

Lemma batch_loop_length texts starts acc svc r svc' :
  batch_loop create model texts starts acc svc = (OK r, svc') →
  length r = (length acc
    + length (concat ((λ i, take BATCH_SIZE (drop i texts)) <$> starts)))%nat.
Proof.
  revert acc svc. induction starts as [|i starts IH]; intros acc svc.
  - simpl. intros [= <- _]. lia.
  - cbn [batch_loop]. destruct (create svc model _) as [[data|e] svc1];
      [|discriminate].
    destruct (place data _) as [slots|e] eqn:Hplace; [|discriminate].
    intros H%IH. apply place_length in Hplace.
    rewrite length_replicate in Hplace.
    rewrite H, fmap_cons. cbn [concat]. rewrite !length_app. lia.
Qed.

Lemma batch_loop_in_order E texts starts acc svc :
  Spec.answers_in_any_order create model E →
  ∃ svc',
    batch_loop create model texts starts acc svc
    = (OK (acc ++ (Some ∘ E <$>
                   concat ((λ i, take BATCH_SIZE (drop i texts)) <$> starts))),
       svc').
Proof.
  intros Hsvc. revert acc svc.
  induction starts as [|i starts IH]; intros acc svc.
  - simpl. exists svc. by rewrite app_nil_r.
  - cbn [batch_loop].
    destruct (Hsvc svc (take BATCH_SIZE (drop i texts)))
      as (data & svc1 & -> & Hperm).
    rewrite (place_answer E _ _ Hperm).
    destruct (IH (acc ++ (Some ∘ E <$> take BATCH_SIZE (drop i texts))) svc1)
      as (svc' & ->).
    exists svc'. rewrite fmap_cons. cbn [concat].
    by rewrite fmap_app, app_assoc.
Qed.

(** C8. [embed_batch([])] is [[]]; whatever the service answers, a returned
    list has one entry per text; and when the service answers each batch
    with its items in any order, tagged by position, the returned vectors
    are those of the texts, in the order of the texts. *)
Theorem embed_batch_keeps_order :
  (∀ svc, embed_batch create model [] svc = (OK [], svc)) ∧
  (∀ texts svc vectors svc',
     embed_batch create model texts svc = (OK vectors, svc') →
     length vectors = length texts) ∧
  (∀ E, Spec.answers_in_any_order create model E →
     ∀ texts svc, ∃ svc',
       embed_batch create model texts svc = (OK (Some ∘ E <$> texts), svc')).
Proof.
  split; [done|]. split.
  - intros texts svc vectors svc'. unfold embed_batch.
    destruct texts as [|t texts]; [by intros [= <- _]|].
    cbn [Py.is_empty]. intros H%batch_loop_length.
    by rewrite H, batches_concat.
  - intros E Hsvc texts svc. unfold embed_batch.
    destruct texts as [|t texts]; [by exists svc|].
    cbn [Py.is_empty].
    destruct (batch_loop_in_order E (t :: texts)
                (Py.range_step (length (t :: texts)) BATCH_SIZE) [] svc Hsvc)
      as (svc' & ->).
    exists svc'. by rewrite batches_concat.
Qed.

End WithClient.

Lemma backwards_answers_in_any_order model :
  Spec.answers_in_any_order Examples.backwards model Examples.length_vector.
Proof.
  intros calls batch. eexists _, _. split; [reflexivity|].
  symmetry. apply Permutation_rev.
Qed.

Lemma embed_batch_keeps_order_witness :
  ∃ calls,
    embed_batch Examples.backwards MODEL ["what is rag"; "llm"; "gpt-4 api"]%string 0%nat
    = (OK [Some [11%Q]; Some [3%Q]; Some [9%Q]], calls).
Proof.
  destruct (embed_batch_keeps_order Examples.backwards MODEL) as (_ & _ & H).
  exact (H Examples.length_vector (backwards_answers_in_any_order MODEL)
           ["what is rag"; "llm"; "gpt-4 api"]%string 0%nat).
Defined.

(** 250 texts go out as batches of 100, 100 and 50 (three calls), each
    answered back to front, and come back in the order of the texts. *)
Lemma embed_batch_three_batches :
  let texts := replicate 120 "ai"%string ++ replicate 130 "nlp"%string in
  embed_batch Examples.backwards MODEL texts 0%nat
  = (OK (replicate 120 (Some [2%Q]) ++ replicate 130 (Some [3%Q])), 3%nat).
Proof. vm_compute. reflexivity. Qed.

End EmbedderFacts.

(** ** The normalizer *)

Module NormalizerFacts.
Import Normalizer.

(** The three cases of [test_normalizer], on the reddit platform. *)
Lemma normalize_test_cases :
  normalize "[Discussion] How does GPT-4 work???" (Some "reddit"%string) false
  = "How does GPT-4 work?"%string ∧
  normalize "ELI5 what is a neural network" (Some "reddit"%string) false
  = "explain like I'm 5 what is a neural network"%string ∧
  normalize "Is **Claude** better than *ChatGPT*?" (Some "reddit"%string) false
  = "Is Claude better than ChatGPT?"%string.
Proof. repeat split; vm_compute; reflexivity. Qed.

Lemma normalize_empty platform lowercase : normalize "" platform lowercase = ""%string.
Proof. reflexivity. Qed.

(** C9, as stated, fails.  The leading-flair pattern is anchored at the
    start and applied once, so of two flairs the first pass removes one and
    a second pass the other. *)
Lemma normalize_not_idempotent :
  normalize "[Help] [Discussion] How does GPT-4 work?" (Some "reddit"%string) false
  = "[Discussion] How does GPT-4 work?"%string ∧
  normalize "[Discussion] How does GPT-4 work?" (Some "reddit"%string) false
  = "How does GPT-4 work?"%string.
Proof. split; vm_compute; reflexivity. Qed.

(** Removing a user reference can uncover a subreddit reference, which only
    a second pass removes. *)
Lemma normalize_uncovers_subreddit :
  normalize "/ru/a/b" (Some "reddit"%string) false = "/r/b"%string ∧
  normalize "/r/b" (Some "reddit"%string) false = ""%string.
Proof. split; vm_compute; reflexivity. Qed.

(** On every platform: the question mark is appended after the runs of [?]
    have been collapsed, so a text ending in [?!] comes out ending in [??],
    which a second pass collapses. *)
Lemma normalize_question_bang platform :
  platform ∈ Examples.known_platforms →
  normalize "Really?!" platform false = "Really??"%string ∧
  normalize "Really??" platform false = "Really?"%string.
Proof.
  unfold Examples.known_platforms. rewrite !elem_of_cons, elem_of_nil.
  intros [->|[->|[->|[]]]]; split; vm_compute; reflexivity.
Qed.

(** C9 (as the code has it). On the representative inputs, the raw texts of
    the test suite, and for each platform, a second pass of the normalizer
    changes nothing. *)
Theorem normalize_idempotent_on_representative_inputs :
  Forall (λ p,
    Forall (λ x,
      normalize (normalize x p false) p false = normalize x p false ∧
      normalize (normalize x p true) p true = normalize x p true)
      Examples.representative_inputs)
    Examples.known_platforms.
Proof.
  unfold Examples.known_platforms, Examples.representative_inputs.
  repeat match goal with
         | |- Forall _ (_ :: _) => apply Forall_cons_2
         | |- Forall _ [] => apply Forall_nil
         end; split; vm_compute; reflexivity.
Qed.

End NormalizerFacts.

(** ** More on the signal detector: ordering, ranges, cold start *)

Module DetectorInvariants.
Import Clusterer Detector PyFacts DetectorFacts.
#[local] Open Scope Q_scope.

(** *** What a returned signal is made of *)

Lemma score_cluster_inv self c s :
  _score_cluster self c = OK s →
  ∃ sample v pct e w,
    Py.for_each (λ q : pydict, Py.getitem q "raw_text") (take 5 (questions c))
      = OK sample ∧
    _calc_velocity self c = OK (v, pct) ∧
    _calc_engagement self c = OK e ∧
    _calc_weirdness c = OK w ∧
    velocity_score s = v ∧ velocity_pct s = pct ∧
    cross_platform_score s = _calc_cross_platform c ∧
    engagement_score s = e ∧
    novelty_score s = _calc_novelty self c ∧
    weirdness_bonus s = w ∧
    final_score s =
      Py.min2 1.0 (Py.max2 0.0
        (v * WEIGHT_VELOCITY + _calc_cross_platform c * WEIGHT_CROSS_PLATFORM
         + e * WEIGHT_ENGAGEMENT + _calc_novelty self c * WEIGHT_NOVELTY + w)) ∧
    cluster_id s = Clusterer.cluster_id c ∧
    canonical_question s = Clusterer.canonical_question c ∧
    question_count s = len_questions c ∧
    platform_count s = cross_platform_count c ∧
    total_engagement s = Clusterer.total_engagement c ∧
    sample_questions s = sample.
Proof.
  unfold _score_cluster.
  intros (sample & Hsample & H)%bind_OK.
  apply bind_OK in H as ([v pct] & Hv & H).
  apply bind_OK in H as (e & He & H).
  apply bind_OK in H as (w & Hw & H).
  injection H as <-. exists sample, v, pct, e, w. by repeat split.
Qed.

(** Every signal [detect] returns is the score of one of the clusters,
    computed with the ceilings [detect] has just set. *)
Lemma detect_elem self self' clusters signals s :
  detect self clusters = (OK signals, self') → s ∈ signals →
  ∃ c, c ∈ clusters ∧ _score_cluster self' c = OK s.
Proof.
  intros (sigs & Hs & ->)%detect_OK Hin.
  rewrite sort_desc_perm in Hin.
  apply list_elem_of_lookup in Hin as [i Hi].
  destruct (Forall2_lookup_r _ _ _ _ _ Hs Hi) as (c & Hc & Hsc).
  exists c. split; [by eapply list_elem_of_lookup_2 | done].
Qed.

Lemma detect_state self c cs r self' :
  detect self (c :: cs) = (r, self') → self' = set_normalization self c cs.
Proof. unfold detect. by intros [= _ <-]. Qed.

(** The engagement ceiling [detect] leaves behind: the largest total
    engagement among the clusters, or 1 when that is 0. *)
Lemma detect_ceiling self self' clusters r :
  detect self clusters = (r, self') → clusters ≠ [] →
  threshold self' = threshold self ∧
  historical_data self' = historical_data self ∧
  ∃ c, c ∈ clusters ∧
    Forall (λ c', (Clusterer.total_engagement c' ≤ Clusterer.total_engagement c)%Z)
      clusters ∧
    _max_engagement self' = Py.or_one (Clusterer.total_engagement c).
Proof.
  intros H Hne. destruct clusters as [|c0 cs]; [done|].
  apply detect_state in H as ->. cbn [set_normalization _max_engagement].
  split; [done|]. split; [done|].
  pose proof (max_ints_upper (Clusterer.total_engagement c0)
                (Clusterer.total_engagement <$> cs)) as Hub.
  pose proof (max_ints_elem (Clusterer.total_engagement c0)
                (Clusterer.total_engagement <$> cs)) as Hin.
  rewrite <- fmap_cons in Hub, Hin. rewrite Forall_fmap in Hub.
  apply list_elem_of_fmap in Hin as (c & Hc & Hin).
  exists c. split; [done|]. rewrite <- Hc. split; [exact Hub | done].
Qed.

Lemma detect_params self self' clusters r :
  detect self clusters = (r, self') →
  threshold self' = threshold self ∧
  historical_data self' = historical_data self.
Proof.
  destruct clusters as [|c cs]; [by intros [= _ <-]|].
  by intros ->%detect_state.
Qed.

(** *** Ranges of the components *)

Lemma velocity_of_pct_range pct : 0 <= velocity_of_pct pct <= 1.
Proof. unfold velocity_of_pct, Py.max2. qcases; split; qlra. Qed.

Lemma calc_velocity_range self c v pct :
  _calc_velocity self c = OK (v, pct) → 0 <= v <= 1.
Proof.
  unfold _calc_velocity. destruct (_ =? _)%Z.
  - intros [= <- _]. lra.
  - intros (ratio & _ & H)%bind_OK. injection H as <- _.
    apply velocity_of_pct_range.
Qed.

Lemma calc_cross_platform_values c :
  _calc_cross_platform c = 1.0 ∨ _calc_cross_platform c = 0.7
  ∨ _calc_cross_platform c = 0.0.
Proof.
  unfold _calc_cross_platform.
  destruct (3 <=? _)%Z; [auto|]. destruct (_ =? 2)%Z; auto.
Qed.

Lemma calc_novelty_values self c :
  _calc_novelty self c = 1.0 ∨ _calc_novelty self c = 0.3.
Proof. unfold _calc_novelty. destruct (_ !! _); auto. Qed.

Lemma inject_Z_div_nonneg a b :
  (0 ≤ a)%Z → (0 < b)%Z → 0 <= inject_Z a / inject_Z b.
Proof.
  intros Ha Hb. apply Qle_shift_div_l.
  - change 0 with (inject_Z 0). by rewrite <- Zlt_Qlt.
  - rewrite Qmult_0_l. change 0 with (inject_Z 0). by rewrite <- Zle_Qle.
Qed.

Lemma inject_Z_div_same a : a ≠ 0%Z → inject_Z a / inject_Z a == 1.
Proof.
  intros Ha. apply Qmult_inv_r. intros H. apply Ha.
  unfold Qeq in H. simpl in H. lia.
Qed.

Lemma calc_engagement_upper self c e :
  _calc_engagement self c = OK e → e <= 1.
Proof.
  unfold _calc_engagement. destruct (_ =? _)%Z; [intros [= <-]; lra|].
  intros (ratio & _ & H)%bind_OK. injection H as <-.
  unfold Py.min2. qcases; lra.
Qed.

Lemma calc_engagement_lower self c e :
  _calc_engagement self c = OK e →
  (0 ≤ Clusterer.total_engagement c)%Z → (0 ≤ _max_engagement self)%Z →
  0 <= e.
Proof.
  unfold _calc_engagement.
  destruct (Z.eqb_spec (_max_engagement self) 0) as [|Hne];
    [intros [= <-]; lra|].
  intros (ratio & [_ ->]%truediv_checked_OK & [= <-])%bind_OK Ht Hm.
  pose proof (inject_Z_div_nonneg _ (_max_engagement self) Ht ltac:(lia)).
  unfold Py.min2. qcases; lra.
Qed.

Lemma calc_engagement_top self c e :
  _calc_engagement self c = OK e →
  Clusterer.total_engagement c = _max_engagement self →
  _max_engagement self ≠ 0%Z → e == 1.
Proof.
  unfold _calc_engagement. intros H Heq Hne. rewrite Heq in H.
  apply Z.eqb_neq in Hne as Hne'. rewrite Hne' in H.
  apply bind_OK in H as (ratio & [_ ->]%truediv_checked_OK & [= <-]).
  pose proof (inject_Z_div_same _ Hne).
  unfold Py.min2. qcases; lra.
Qed.

(** *** The order of the output *)

Section SortStable.
Context {A : Type} (key : A → Q).

(** Inserting into the descending order does not disturb the elements of
    any one key. *)
Lemma filter_insert_desc v x l :
  List.filter (λ a, Qeq_bool (key a) v) (Py.insert_desc key x l)
  = List.filter (λ a, Qeq_bool (key a) v) (x :: l).
Proof.
  induction l as [|y l IH]; [done|].
  cbn [Py.insert_desc]. qcase (Py.Qltb (key x) (key y)); [|done].
  cbn [List.filter] in *. rewrite IH.
  destruct (Qeq_bool (key x) v) eqn:Ex; [|done].
  destruct (Qeq_bool (key y) v) eqn:Ey; [|done].
  apply Qeq_bool_iff in Ex, Ey. rewrite Ex, Ey in Hcmp. lra.
Qed.

Lemma filter_sort_desc v l :
  List.filter (λ a, Qeq_bool (key a) v) (Py.sort_desc key l)
  = List.filter (λ a, Qeq_bool (key a) v) l.
Proof.
  induction l as [|x l IH]; [done|].
  unfold Py.sort_desc. cbn [foldr]. rewrite filter_insert_desc.
  cbn [List.filter]. fold (Py.sort_desc key l). by rewrite IH.
Qed.

(** In a descending list, a test [key >= t] holds on a prefix. *)
Lemma descending_threshold_split (p : A → bool) t l :
  Spec.descending key l →
  Forall (λ a, p a = Py.Qgeb (key a) t) l →
  l = List.filter p l ++ List.filter (λ a, negb (p a)) l.
Proof.
  unfold Spec.descending.
  induction 1 as [|x l Hs IH Hx]; intros Hp; [done|].
  apply Forall_cons in Hp as [Hpx Hp]. cbn [List.filter].
  destruct (p x) eqn:Epx; cbn [negb].
  - cbn [app]. f_equal. by apply IH.
  - symmetry in Hpx. apply Qgeb_false in Hpx.
    assert (Forall (λ a, p a = false) l) as Hall.
    { rewrite Forall_forall in Hx, Hp. apply Forall_forall. intros a Ha.
      rewrite (Hp a Ha). apply Qgeb_false.
      specialize (Hx a Ha). cbv beta in Hx. lra. }
    clear -Hall. enough (List.filter p l = [] ∧
                         List.filter (λ a, negb (p a)) l = l) as [-> ->]; [done|].
    induction Hall as [|a l Ha _ [IH1 IH2]]; [done|].
    cbn [List.filter]. rewrite Ha. cbn [negb]. by rewrite IH2.
Qed.

Lemma filter_prefix_take (p : A → bool) l n :
  l = List.filter p l ++ List.filter (λ a, negb (p a)) l →
  List.filter p (take n l) = take n (List.filter p l).
Proof.
  intros Hsplit.
  assert (∀ l1 l2 : list A, Forall (λ a, p a = true) l1 →
            Forall (λ a, p a = false) l2 →
            List.filter p (take n (l1 ++ l2)) = take n l1) as Hgen.
  { intros l1 l2 H1. revert n. induction H1 as [|a l1 Ha _ IH]; intros m H2.
    - cbn [app]. rewrite take_nil.
      assert (Forall (λ a, p a = false) (take m l2)) as H by by apply Forall_take.
      induction H as [|a l' Ha _ IH']; [done|].
      cbn [List.filter]. by rewrite Ha.
    - destruct m as [|m]; [done|]. cbn [app take List.filter].
      rewrite Ha. f_equal. by apply IH. }
  rewrite Hsplit at 1. apply Hgen.
  - apply Forall_forall. intros a Ha. rewrite list_elem_of_In in Ha.
    by apply List.filter_In in Ha as [_ Ha].
  - apply Forall_forall. intros a Ha. rewrite list_elem_of_In in Ha.
    apply List.filter_In in Ha as [_ Ha]. by apply negb_true_iff in Ha.
Qed.

End SortStable.

Lemma detect_descending self self' clusters signals :
  detect self clusters = (OK signals, self') →
  Spec.descending final_score signals.
Proof. intros (sigs & _ & ->)%detect_OK. apply sort_desc_sorted. Qed.

(** X1. [detect] returns one signal per cluster, carrying the cluster's id
    and canonical question, in descending order of final score. *)
Theorem detect_sorted_one_per_cluster (self self' : SignalDetector)
    (clusters : list QuestionCluster) (signals : list CuriositySignal) :
  detect self clusters = (OK signals, self') →
  Spec.descending final_score signals ∧
  length signals = length clusters ∧
  (λ s, (cluster_id s, canonical_question s)) <$> signals
  ≡ₚ (λ c, (Clusterer.cluster_id c, Clusterer.canonical_question c)) <$> clusters.
Proof.
  intros (sigs & Hs & ->)%detect_OK.
  split; [apply sort_desc_sorted|].
  rewrite sort_desc_perm. split; [symmetry; by eapply Forall2_length|].
  enough ((λ s, (cluster_id s, canonical_question s)) <$> sigs
          = (λ c, (Clusterer.cluster_id c, Clusterer.canonical_question c))
              <$> clusters) as -> by done.
  clear -Hs.
  induction Hs as [|c s cs sigs Hsc _ IH]; [done|].
  rewrite !fmap_cons. f_equal; [|exact IH].
  apply score_cluster_inv in Hsc
    as (? & ? & ? & ? & ? & _ & _ & _ & _ & _ & _ & _ & _ & _ & _ & _ & Hid & Hq & _).
  by rewrite Hid, Hq.
Qed.

(** X2. The sort in [detect] is stable: signals with equal final scores
    stay in the order of their clusters. *)
Theorem detect_ties_keep_cluster_order (self self' : SignalDetector)
    (clusters : list QuestionCluster) (signals : list CuriositySignal) :
  detect self clusters = (OK signals, self') →
  ∃ sigs,
    Forall2 (λ c s, _score_cluster self' c = OK s) clusters sigs ∧
    ∀ v, List.filter (λ s, Qeq_bool (final_score s) v) signals
         = List.filter (λ s, Qeq_bool (final_score s) v) sigs.
Proof.
  intros (sigs & Hs & ->)%detect_OK. exists sigs. split; [done|].
  intros v. apply filter_sort_desc.
Qed.

Lemma detect_is_signal self self' clusters signals :
  detect self clusters = (OK signals, self') →
  Forall (λ s, is_signal s = Py.Qgeb (final_score s) (threshold self)) signals.
Proof.
  intros H. apply Forall_forall. intros s Hin.
  destruct (detect_elem _ _ _ _ _ H Hin) as (c & _ & Hsc).
  destruct (score_cluster_scored _ _ _ Hsc) as [_ _ _ -> _].
  destruct clusters as [|c0 cs]; [by injection H as <- <-|].
  by apply detect_state in H as ->.
Qed.

(** X3. In the output of [detect] every signal ([is_signal] set) comes
    before every non-signal, so keeping the signals among the first [n]
    entries gives the first [n] signals. *)
Theorem detect_signals_first (self self' : SignalDetector)
    (clusters : list QuestionCluster) (signals : list CuriositySignal) :
  detect self clusters = (OK signals, self') →
  signals = List.filter is_signal signals
            ++ List.filter (λ s, negb (is_signal s)) signals ∧
  ∀ n, List.filter is_signal (take n signals)
       = take n (List.filter is_signal signals).
Proof.
  intros H.
  assert (signals = List.filter is_signal signals
                    ++ List.filter (λ s, negb (is_signal s)) signals) as Hsplit.
  { apply (descending_threshold_split final_score is_signal (threshold self)).
    - by eapply detect_descending.
    - by eapply detect_is_signal. }
  split; [exact Hsplit|]. intros n. by apply filter_prefix_take.
Qed.

(** X4. With the default threshold 0.70 the [is_signal] flag and the tier
    agree: a returned signal has [is_signal] set exactly when its tier is
    not "noise". *)
Theorem default_threshold_signal_iff_not_noise (self self' : SignalDetector)
    (clusters : list QuestionCluster) (signals : list CuriositySignal) :
  detect self clusters = (OK signals, self') →
  threshold self == 0.70 →
  Forall (λ s, is_signal s = true ↔ tier s ≠ "noise"%string) signals.
Proof.
  intros H Hthr. apply Forall_forall. intros s Hin.
  destruct (detect_elem _ _ _ _ _ H Hin) as (c & _ & Hsc).
  destruct (detect_params _ _ _ _ H) as [Heq _].
  destruct (score_cluster_scored _ _ _ Hsc)
    as [_ _ (Hb & Hst & Hsi & Hno) -> _].
  rewrite Heq.
  destruct (Qlt_le_dec (final_score s) 0.70) as [Hlt|Hge].
  - rewrite (Hno Hlt). split; [|done].
    intros Hs%Qgeb_true. rewrite Hthr in Hs. lra.
  - split; [|intros _; apply Qgeb_true; rewrite Hthr; exact Hge].
    intros _.
    destruct (Qlt_le_dec (final_score s) 0.75) as [H75|H75];
      [by rewrite Hsi|].
    destruct (Qlt_le_dec (final_score s) 0.85) as [H85|H85];
      [by rewrite Hst | by rewrite Hb].
Qed.

Lemma inject_Z_div_le_1 a b :
  (a ≤ b)%Z → (0 < b)%Z → inject_Z a / inject_Z b <= 1.
Proof.
  intros Hab Hb. apply Qle_shift_div_r.
  - change 0 with (inject_Z 0). by rewrite <- Zlt_Qlt.
  - rewrite Qmult_1_l. by rewrite <- Zle_Qle.
Qed.

(** X5. When no cluster has a negative total engagement, every component
    of a returned signal is in its documented range (velocity,
    cross-platform, engagement and novelty in [0, 1], the weirdness bonus
    in [0, 0.2]), and the lower clamp is idle: the final score is the
    weighted sum capped at 1. *)
Theorem component_scores_in_range (self self' : SignalDetector)
    (clusters : list QuestionCluster) (signals : list CuriositySignal) :
  detect self clusters = (OK signals, self') →
  Forall (λ c, (0 ≤ Clusterer.total_engagement c)%Z) clusters →
  Forall (λ s,
    0 <= velocity_score s <= 1 ∧
    0 <= cross_platform_score s <= 1 ∧
    0 <= engagement_score s <= 1 ∧
    0 < novelty_score s <= 1 ∧
    0 <= weirdness_bonus s <= 0.2 ∧
    final_score s == Qmin 1 (Spec.weighted_sum s)) signals.
Proof.
  intros H Hpos. apply Forall_forall. intros s Hin.
  destruct (detect_elem _ _ _ _ _ H Hin) as (c & Hc & Hsc).
  assert (clusters ≠ []) as Hne by (intros ->; by apply elem_of_nil in Hc).
  destruct (detect_ceiling _ _ _ _ H Hne) as (_ & _ & top & Htop & _ & Hmax).
  rewrite Forall_forall in Hpos.
  assert (0 ≤ _max_engagement self')%Z as Hm.
  { rewrite Hmax. unfold Py.or_one. specialize (Hpos top Htop).
    destruct (Z.eqb_spec (Clusterer.total_engagement top) 0); lia. }
  destruct (score_cluster_scored _ _ _ Hsc) as [Hfin _ _ _ _].
  apply score_cluster_inv in Hsc
    as (sample & v & pct & e & w & _ & Hv & He & Hw
        & Hvs & _ & Hcs & Hes & Hns & Hws & _).
  pose proof (calc_velocity_range _ _ _ _ Hv) as Rv.
  pose proof (calc_engagement_upper _ _ _ He) as Re1.
  pose proof (calc_engagement_lower _ _ _ He (Hpos c Hc) Hm) as Re0.
  assert (0 <= _calc_cross_platform c <= 1) as Rc
    by (destruct (calc_cross_platform_values c) as [->|[->| ->]]; lra).
  assert (0 < _calc_novelty self' c <= 1) as Rn
    by (destruct (calc_novelty_values self' c) as [->| ->]; lra).
  assert (0 <= w <= 0.2) as Rw
    by (destruct (calc_weirdness_values _ _ Hw) as [->|[->| ->]]; lra).
  rewrite Hvs, Hcs, Hes, Hns, Hws.
  do 5 (split; [done|]).
  rewrite Hfin. unfold Spec.clamp01. apply Q.min_compat; [reflexivity|].
  apply Q.max_r. unfold Spec.weighted_sum.
  rewrite Hvs, Hcs, Hes, Hns, Hws. nra.
Qed.

(** X6. Engagement is scored relative to the most engaged cluster of the
    call: when that cluster's total engagement is positive, every signal's
    engagement score is its total engagement divided by the top one, and
    the top cluster scores 1. *)
Theorem engagement_relative_to_top (self self' : SignalDetector)
    (clusters : list QuestionCluster) (signals : list CuriositySignal)
    (top : QuestionCluster) :
  detect self clusters = (OK signals, self') →
  top ∈ clusters →
  (0 < Clusterer.total_engagement top)%Z →
  Forall (λ c, (Clusterer.total_engagement c ≤ Clusterer.total_engagement top)%Z)
    clusters →
  Forall (λ s,
    engagement_score s
    == inject_Z (total_engagement s) / inject_Z (Clusterer.total_engagement top) ∧
    (total_engagement s = Clusterer.total_engagement top →
     engagement_score s == 1)) signals.
Proof.
  intros H Htop Hpos Hub. apply Forall_forall. intros s Hin.
  destruct (detect_elem _ _ _ _ _ H Hin) as (c & Hc & Hsc).
  assert (clusters ≠ []) as Hne by (intros ->; by apply elem_of_nil in Hc).
  destruct (detect_ceiling _ _ _ _ H Hne) as (_ & _ & m & Hm & Hmub & Hmax).
  rewrite Forall_forall in Hub, Hmub.
  assert (_max_engagement self' = Clusterer.total_engagement top) as Hceil.
  { rewrite Hmax. unfold Py.or_one.
    pose proof (Hub m Hm). pose proof (Hmub top Htop).
    destruct (Z.eqb_spec (Clusterer.total_engagement m) 0); lia. }
  apply score_cluster_inv in Hsc
    as (sample & v & pct & e & w & _ & _ & He & _
        & _ & _ & _ & Hes & _ & _ & _ & _ & _ & _ & _ & Hte & _).
  rewrite Hes, Hte. unfold _calc_engagement in He. rewrite Hceil in He.
  assert (Clusterer.total_engagement top ≠ 0%Z) as Hnz by lia.
  apply Z.eqb_neq in Hnz as Hnz'. rewrite Hnz' in He.
  apply bind_OK in He as (ratio & [_ ->]%truediv_checked_OK & [= <-]).
  pose proof (inject_Z_div_le_1 _ _ (Hub c Hc) Hpos) as Hle.
  split.
  - unfold Py.min2. qcases; lra.
  - intros Heq. rewrite Heq in *.
    pose proof (inject_Z_div_same _ Hnz). unfold Py.min2. qcases; lra.
Qed.

Lemma clamp_le w b :
  w <= b → 0 <= b → Py.min2 1.0 (Py.max2 0.0 w) <= b.
Proof.
  intros Hw Hb. unfold Py.max2. qcases; unfold Py.min2; qcases; lra.
Qed.

Lemma clamp_ge w b :
  b <= w → b <= 1 → b <= Py.min2 1.0 (Py.max2 0.0 w).
Proof.
  intros Hw Hb. unfold Py.max2. qcases; unfold Py.min2; qcases; lra.
Qed.

(** X7. Cold start.  A detector without historical data (as every caller
    in the repository builds it) gives each cluster velocity 0.8 at 100%
    growth and novelty 1.0; a cluster on at most one platform then scores
    at most 0.8 and is never a "breakout", and a cluster on three or more
    platforms with non-negative engagement scores at least 0.9 and always
    is one.  (The exact sums are at most 0.78 and at least 0.93; the
    bounds are stated with room for the rounding of the float sum.) *)
Theorem cold_start_scores (self self' : SignalDetector)
    (clusters : list QuestionCluster) (signals : list CuriositySignal) :
  detect self clusters = (OK signals, self') →
  historical_data self = ∅ →
  Forall (λ s,
    velocity_score s = 0.8 ∧ velocity_pct s = 100.0 ∧ novelty_score s = 1.0 ∧
    ((platform_count s ≤ 1)%Z →
       final_score s <= 0.8 ∧ tier s ≠ "breakout"%string) ∧
    ((3 ≤ platform_count s)%Z → (0 ≤ total_engagement s)%Z →
       0.9 <= final_score s ∧ tier s = "breakout"%string)) signals.
Proof.
  intros H Hhist. apply Forall_forall. intros s Hin.
  destruct (detect_elem _ _ _ _ _ H Hin) as (c & Hc & Hsc).
  assert (clusters ≠ []) as Hne by (intros ->; by apply elem_of_nil in Hc).
  destruct (detect_ceiling _ _ _ _ H Hne)
    as (_ & Hh & top & Htop & Hub & Hmax).
  rewrite Hhist in Hh. rewrite Forall_forall in Hub.
  destruct (score_cluster_scored _ _ _ Hsc)
    as [_ _ (Hb & Hst & Hsi & Hno) _ _].
  apply score_cluster_inv in Hsc
    as (sample & v & pct & e & w & _ & Hv & He & Hw
        & Hvs & Hps & Hcs & Hes & Hns & Hws & Hfs & _ & _ & _ & Hpc & Hte & _).
  assert (v = 0.8 ∧ pct = 100.0) as [-> ->].
  { unfold _calc_velocity in Hv. rewrite Hh, lookup_empty in Hv.
    simpl in Hv. by injection Hv as <- <-. }
  assert (_calc_novelty self' c = 1.0) as Hn
    by (unfold _calc_novelty; by rewrite Hh, lookup_empty).
  rewrite Hn in Hns, Hfs.
  split; [done|]. split; [done|]. split; [done|].
  pose proof (calc_engagement_upper _ _ _ He) as Re1.
  rewrite Hpc, Hte. split.
  - intros Hp.
    assert (_calc_cross_platform c = 0.0) as Hcp.
    { unfold _calc_cross_platform.
      destruct (Z.leb_spec 3 (cross_platform_count c)); [lia|].
      destruct (Z.eqb_spec (cross_platform_count c) 2); [lia | done]. }
    assert (w <= 0.1) as Rw.
    { unfold _calc_weirdness in Hw. rewrite size_dom in Hw.
      fold (cross_platform_count c) in Hw.
      destruct (Z.leb_spec 3 (cross_platform_count c)); [lia|].
      apply bind_OK in Hw as (avg & _ & Hw).
      unfold MAX_WEIRDNESS_BONUS in Hw.
      destruct (Py.Qgtb avg 50); injection Hw as <-; lra. }
    assert (final_score s <= 0.8) as Hf.
    { rewrite Hfs, Hcp. apply clamp_le; [|lra].
      unfold WEIGHT_VELOCITY, WEIGHT_CROSS_PLATFORM, WEIGHT_ENGAGEMENT,
        WEIGHT_NOVELTY. lra. }
    split; [exact Hf|].
    destruct (Qlt_le_dec (final_score s) 0.70) as [H70|H70];
      [by rewrite (Hno H70)|].
    destruct (Qlt_le_dec (final_score s) 0.75) as [H75|H75];
      [by rewrite Hsi|].
    rewrite Hst; [done | split; lra].
  - intros Hp Hpos.
    assert (_calc_cross_platform c = 1.0) as Hcp.
    { unfold _calc_cross_platform.
      by destruct (Z.leb_spec 3 (cross_platform_count c)); [|lia]. }
    assert (w = 0.20) as ->.
    { unfold _calc_weirdness in Hw. rewrite size_dom in Hw.
      fold (cross_platform_count c) in Hw.
      destruct (Z.leb_spec 3 (cross_platform_count c)); [|lia].
      by injection Hw as <-. }
    assert (0 ≤ _max_engagement self')%Z as Hm.
    { rewrite Hmax. unfold Py.or_one. pose proof (Hub c Hc).
      destruct (Z.eqb_spec (Clusterer.total_engagement top) 0); lia. }
    pose proof (calc_engagement_lower _ _ _ He Hpos Hm) as Re0.
    assert (0.9 <= final_score s) as Hf.
    { rewrite Hfs, Hcp. apply clamp_ge; [|lra].
      unfold WEIGHT_VELOCITY, WEIGHT_CROSS_PLATFORM, WEIGHT_ENGAGEMENT,
        WEIGHT_NOVELTY. lra. }
    split; [exact Hf|]. apply Hb. lra.
Qed.

(** *** [get_weird_picks] after [detect] *)

Lemma weird_loop_total self clusters sigs weird :
  Forall2 (λ c s, _score_cluster self c = OK s) clusters sigs →
  weird_loop self clusters weird
  = OK (weird ++ filter (Spec.weird_pick self) sigs).
Proof.
  intros Hs. revert weird.
  induction Hs as [|c s cs sigs Hsc _ IH]; intros weird.
  - by rewrite filter_nil, app_nil_r.
  - cbn [weird_loop]. rewrite Hsc. simpl.
    rewrite (weird_test self s (score_cluster_scored _ _ _ Hsc)).
    case_bool_decide as Hw; rewrite IH.
    + by rewrite filter_cons_True, <- app_assoc.
    + by rewrite filter_cons_False.
Qed.

(** X8. Called on the clusters [detect] has just scored, [get_weird_picks]
    does not raise, and what it returns are signals [detect] returned:
    those with a positive weirdness bonus and [is_signal] unset. *)
Theorem weird_picks_follow_detect (self self' : SignalDetector)
    (clusters : list QuestionCluster) (signals : list CuriositySignal)
    (count : Z) :
  detect self clusters = (OK signals, self') →
  ∃ picks,
    get_weird_picks self' clusters count = OK picks ∧
    picks ⊆ signals ∧
    Forall (λ s, is_signal s = false ∧ 0 < weirdness_bonus s) picks.
Proof.
  intros (sigs & Hs & ->)%detect_OK.
  unfold get_weird_picks. rewrite (weird_loop_total _ _ _ _ Hs). simpl.
  eexists. split; [reflexivity|].
  destruct (slice_to_take (Py.sort_desc weirdness_bonus
              (filter (Spec.weird_pick self') sigs)) count) as [k ->].
  assert (∀ s, s ∈ take k (Py.sort_desc weirdness_bonus
                             (filter (Spec.weird_pick self') sigs)) →
               s ∈ sigs ∧ Spec.weird_pick self' s) as Hin.
  { intros s Hin. apply (sublist_subseteq _ _ (sublist_take _ _)) in Hin.
    rewrite sort_desc_perm in Hin.
    by apply list_elem_of_filter in Hin as [? ?]. }
  split.
  - intros s [Hs' _]%Hin. by rewrite sort_desc_perm.
  - apply Forall_forall. intros s [Hs' [Hnz Hlt]]%Hin.
    apply list_elem_of_lookup in Hs' as [i Hi].
    destruct (Forall2_lookup_r _ _ _ _ _ Hs Hi) as (c & _ & Hc).
    destruct (score_cluster_scored _ _ _ Hc) as [_ _ _ -> Hw].
    split; [by apply Qgeb_false|].
    destruct Hw as [Hw|[Hw|Hw]]; rewrite Hw in *; [lra | lra |].
    by destruct Hnz.
Qed.

(** X9. The signals [detect] returns depend on the clusters, the threshold
    and the historical data only: not on the ceilings an earlier call left
    in the detector, and on the order of the clusters only through the
    order of the output. *)
Theorem detect_independent_of_order_and_state (self1 self2 self1' : SignalDetector)
    (clusters1 clusters2 : list QuestionCluster)
    (signals1 : list CuriositySignal) :
  threshold self1 = threshold self2 →
  historical_data self1 = historical_data self2 →
  clusters1 ≡ₚ clusters2 →
  detect self1 clusters1 = (OK signals1, self1') →
  ∃ signals2 self2',
    detect self2 clusters2 = (OK signals2, self2') ∧
    signals1 ≡ₚ signals2 ∧
    (clusters1 ≠ [] → self2' = self1') ∧
    (clusters1 = clusters2 → signals2 = signals1).
Proof.
  intros Hthr Hhist Hperm H.
  destruct (detect_reproducible _ self2 _ _ _ _ Hthr Hhist Hperm H)
    as (signals2 & self2' & H2 & Hp).
  exists signals2, self2'. split; [exact H2|]. split; [exact Hp|]. split.
  - intros Hne. destruct clusters1 as [|c1 cs1]; [done|].
    destruct clusters2 as [|c2 cs2]; [by apply Permutation_nil_r in Hperm|].
    apply detect_state in H as ->. apply detect_state in H2 as ->.
    symmetry. by apply set_normalization_perm.
  - intros <-. destruct clusters1 as [|c1 cs1].
    { injection H as <- _. by injection H2 as <- _. }
    unfold detect in H, H2.
    rewrite (set_normalization_perm self1 self2 c1 cs1 c1 cs1 Hthr Hhist) in H
      by done.
    remember (c1 :: cs1) as l. injection H as H _. injection H2 as H2 _.
    rewrite H in H2. by injection H2.
Qed.

(** *** When [detect] returns *)

Lemma detect_returns self clusters :
  Forall Spec.well_formed clusters →
  Forall Spec.engagement_in_range clusters →
  ∃ signals self',
    detect self clusters = (OK signals, self') ∧
    length signals = length clusters.
Proof.
  intros Hwf Hrange. unfold detect.
  destruct clusters as [|c cs]; [by eexists _, _|].
  set (self1 := set_normalization self c cs).
  destruct (for_each_returns (_score_cluster self1) (c :: cs)) as [sigs Hs].
  { rewrite Forall_forall in Hwf, Hrange. apply Forall_forall.
    intros c' Hc'. apply score_cluster_returns; auto. }
  rewrite Hs. eexists _, _. split; [reflexivity|].
  rewrite (Permutation_length (sort_desc_perm _ _)).
  by apply for_each_length in Hs.
Qed.

(** *** What [detect] raises *)

Lemma for_each_Raise {A B} (f : A → result B) xs e :
  Py.for_each f xs = Raise e → ∃ x, x ∈ xs ∧ f x = Raise e.
Proof.
  induction xs as [|x xs IH]; [done|]. cbn [Py.for_each].
  destruct (f x) as [y|e'] eqn:Hx; simpl.
  - destruct (Py.for_each f xs) as [ys|e'] eqn:Hxs; simpl; [done|].
    intros [= ->]. destruct (IH eq_refl) as (x' & Hin & Hx').
    exists x'. split; [by right | done].
  - intros [= ->]. exists x. split; [left | done].
Qed.

Lemma score_cluster_Raise self c e :
  _score_cluster self c = Raise e →
  (e = KeyError "raw_text"
   ∧ Exists (λ q : pydict, q !! "raw_text"%string = None) (take 5 (questions c)))
  ∨ (e = ZeroDivisionError ∧ questions c = []
     ∧ (cross_platform_count c < 3)%Z)
  ∨ (e = OverflowError ∧ ¬ Spec.engagement_in_range c).
Proof.
  unfold _score_cluster.
  destruct (Py.for_each _ (take 5 (questions c))) as [sample|e'] eqn:Hsample.
  2: { simpl. intros [= ->]. left.
       apply for_each_Raise in Hsample as (q & Hq & Hraise).
       unfold Py.getitem in Hraise.
       destruct (q !! "raw_text"%string) eqn:Hlook; [done|].
       injection Hraise as <-. split; [done|].
       apply Exists_exists. by exists q. }
  destruct (calc_velocity_returns self c) as [[v pct] ->]. simpl.
  destruct (_calc_engagement self c) as [eng|e'] eqn:He; simpl.
  2: { intros [= ->]. right. right. unfold _calc_engagement in He.
       destruct (Z.eqb_spec (_max_engagement self) 0) as [|Hnz]; [done|].
       destruct (Py.truediv_checked _ _) as [ratio|e'] eqn:Hdiv; [done|].
       simpl in He. injection He as ->.
       by apply truediv_checked_Raise in Hdiv as [[_ ?]|(-> & _ & Hout)]. }
  destruct (_calc_weirdness c) as [w|e'] eqn:Hw; simpl; [done|].
  intros [= ->]. right.
  unfold _calc_weirdness in Hw. rewrite size_dom in Hw.
  fold (cross_platform_count c) in Hw.
  destruct (Z.leb_spec 3 (cross_platform_count c)); [done|].
  destruct (Py.truediv_checked _ _) as [avg|e'] eqn:Hdiv.
  { simpl in Hw. by destruct (Py.Qgtb _ 50). }
  simpl in Hw. injection Hw as ->.
  apply truediv_checked_Raise in Hdiv as [[-> Hz]|(-> & _ & Hout)].
  - left. split; [done|]. split; [|done].
    unfold len_questions in Hz. destruct (questions c); [done|].
    simpl in Hz. lia.
  - by right.
Qed.

(** X10. [detect] raises for three reasons only: a cluster one of whose
    first five member records has no [raw_text] ([KeyError]); a cluster
    with no members and fewer than three platforms ([ZeroDivisionError],
    from the average engagement per question); or a cluster whose total
    engagement is beyond the range of a float ([OverflowError], from one of
    the two divisions of the engagement). *)
Theorem detect_raises_only (self : SignalDetector)
    (clusters : list QuestionCluster) (e : exn) :
  (detect self clusters).1 = Raise e →
  ∃ c, c ∈ clusters ∧
    ((e = KeyError "raw_text"
      ∧ Exists (λ q : pydict, q !! "raw_text"%string = None)
          (take 5 (questions c)))
     ∨ (e = ZeroDivisionError ∧ questions c = []
        ∧ (cross_platform_count c < 3)%Z)
     ∨ (e = OverflowError ∧ ¬ Spec.engagement_in_range c)).
Proof.
  unfold detect. destruct clusters as [|c0 cs]; [done|].
  remember (c0 :: cs) as clusters. cbn [fst].
  destruct (Py.for_each _ clusters) as [sigs|e'] eqn:Hs; simpl; [done|].
  intros [= ->]. apply for_each_Raise in Hs as (c & Hc & Hraise).
  exists c. split; [done|]. by eapply score_cluster_Raise.
Qed.

(** *** Concrete checks *)

Lemma detect_sorted_one_per_cluster_witness :
  ∃ signals,
    (detect Examples.seasoned
       [Examples.niche; Examples.vision; Examples.local_llm]).1 = OK signals ∧
    cluster_id <$> signals = [0%Z; 3%Z; 2%Z] ∧
    Spec.descending final_score signals ∧
    length signals = 3%nat.
Proof.
  eexists. split; [vm_compute; reflexivity|]. split; [vm_compute; reflexivity|].
  edestruct (detect_sorted_one_per_cluster Examples.seasoned
               (detect Examples.seasoned [Examples.niche; Examples.vision; Examples.local_llm]).2
               [Examples.niche; Examples.vision; Examples.local_llm])
    as (Hd & Hl & _); [vm_compute; reflexivity|].
  split; [exact Hd | exact Hl].
Defined.

Lemma detect_ties_keep_cluster_order_witness :
  ∃ signals sigs,
    (detect Examples.fresh [Examples.niche; Examples.niche; Examples.vision]).1
    = OK signals ∧
    Forall2 (λ c s, _score_cluster
                      (detect Examples.fresh
                         [Examples.niche; Examples.niche; Examples.vision]).2 c
                    = OK s)
      [Examples.niche; Examples.niche; Examples.vision] sigs ∧
    ∀ v, List.filter (λ s, Qeq_bool (final_score s) v) signals
         = List.filter (λ s, Qeq_bool (final_score s) v) sigs.
Proof.
  eexists.
  edestruct (detect_ties_keep_cluster_order Examples.fresh
               (detect Examples.fresh [Examples.niche; Examples.niche; Examples.vision]).2
               [Examples.niche; Examples.niche; Examples.vision])
    as (sigs & Hs & Hv); [vm_compute; reflexivity|].
  exists sigs. split; [reflexivity|]. split; [exact Hs | exact Hv].
Defined.

Lemma detect_signals_first_witness :
  ∃ signals,
    (detect Examples.fresh
       [Examples.niche; Examples.claude_vs_gpt; Examples.vision]).1 = OK signals ∧
    is_signal <$> signals = [true; true; false] ∧
    List.filter is_signal (take 1 signals)
    = take 1 (List.filter is_signal signals).
Proof.
  eexists. split; [vm_compute; reflexivity|]. split; [vm_compute; reflexivity|].
  edestruct (detect_signals_first Examples.fresh
               (detect Examples.fresh [Examples.niche; Examples.claude_vs_gpt; Examples.vision]).2
               [Examples.niche; Examples.claude_vs_gpt; Examples.vision])
    as [_ Hn]; [vm_compute; reflexivity|].
  exact (Hn 1%nat).
Defined.

Lemma default_threshold_signal_iff_not_noise_witness :
  ∃ signals,
    (detect Examples.fresh
       [Examples.niche; Examples.claude_vs_gpt; Examples.vision]).1 = OK signals ∧
    tier <$> signals = ["breakout"; "breakout"; "noise"]%string ∧
    Forall (λ s, is_signal s = true ↔ tier s ≠ "noise"%string) signals.
Proof.
  eexists. split; [vm_compute; reflexivity|]. split; [vm_compute; reflexivity|].
  eapply (default_threshold_signal_iff_not_noise Examples.fresh _
            [Examples.niche; Examples.claude_vs_gpt; Examples.vision]).
  - vm_compute; reflexivity.
  - reflexivity.
Defined.

Lemma component_scores_in_range_witness :
  ∃ signals,
    (detect Examples.seasoned
       [Examples.vision; Examples.claude_vs_gpt; Examples.local_llm]).1
    = OK signals ∧
    Forall (λ s,
      0 <= velocity_score s <= 1 ∧
      0 <= cross_platform_score s <= 1 ∧
      0 <= engagement_score s <= 1 ∧
      0 < novelty_score s <= 1 ∧
      0 <= weirdness_bonus s <= 0.2 ∧
      final_score s == Qmin 1 (Spec.weighted_sum s)) signals.
Proof.
  eexists. split; [vm_compute; reflexivity|].
  eapply (component_scores_in_range Examples.seasoned _
            [Examples.vision; Examples.claude_vs_gpt; Examples.local_llm]).
  - vm_compute; reflexivity.
  - apply Forall_cons_2; [by vm_compute|].
    apply Forall_cons_2; [by vm_compute|].
    apply Forall_cons_2; [by vm_compute|]. apply Forall_nil_2.
Defined.

Lemma engagement_relative_to_top_witness :
  ∃ signals,
    (detect Examples.fresh
       [Examples.vision; Examples.local_llm; Examples.niche]).1 = OK signals ∧
    Forall (λ s,
      engagement_score s == inject_Z (total_engagement s) / inject_Z 1015 ∧
      (total_engagement s = 1015%Z → engagement_score s == 1)) signals.
Proof.
  eexists. split; [vm_compute; reflexivity|].
  eapply (engagement_relative_to_top Examples.fresh _
            [Examples.vision; Examples.local_llm; Examples.niche] _
            Examples.local_llm).
  - vm_compute; reflexivity.
  - apply list_elem_of_further, list_elem_of_here.
  - by vm_compute.
  - apply Forall_cons_2; [by vm_compute|].
    apply Forall_cons_2; [by vm_compute|].
    apply Forall_cons_2; [by vm_compute|]. apply Forall_nil_2.
Defined.

Lemma cold_start_scores_witness :
  ∃ signals,
    (detect Examples.fresh
       [Examples.niche; Examples.claude_vs_gpt; Examples.vision]).1 = OK signals ∧
    platform_count <$> signals = [3%Z; 2%Z; 1%Z] ∧
    Forall (λ s,
      velocity_score s = 0.8 ∧ velocity_pct s = 100.0 ∧ novelty_score s = 1.0 ∧
      ((platform_count s ≤ 1)%Z →
         final_score s <= 0.8 ∧ tier s ≠ "breakout"%string) ∧
      ((3 ≤ platform_count s)%Z → (0 ≤ total_engagement s)%Z →
         0.9 <= final_score s ∧ tier s = "breakout"%string)) signals.
Proof.
  eexists. split; [vm_compute; reflexivity|]. split; [vm_compute; reflexivity|].
  eapply (cold_start_scores Examples.fresh _
            [Examples.niche; Examples.claude_vs_gpt; Examples.vision]).
  - vm_compute; reflexivity.
  - reflexivity.
Defined.

Lemma weird_picks_follow_detect_witness :
  ∃ signals picks,
    (detect Examples.fresh
       [Examples.vision; Examples.local_llm; Examples.niche]).1 = OK signals ∧
    get_weird_picks
      (detect Examples.fresh
         [Examples.vision; Examples.local_llm; Examples.niche]).2
      [Examples.vision; Examples.local_llm; Examples.niche] 5 = OK picks ∧
    cluster_id <$> picks = [3%Z] ∧
    picks ⊆ signals ∧
    Forall (λ s, is_signal s = false ∧ 0 < weirdness_bonus s) picks.
Proof.
  assert (∃ signals,
            detect Examples.fresh
              [Examples.vision; Examples.local_llm; Examples.niche]
            = (OK signals,
               (detect Examples.fresh
                  [Examples.vision; Examples.local_llm; Examples.niche]).2))
    as [signals Hd] by (eexists; vm_compute; reflexivity).
  destruct (weird_picks_follow_detect _ _ _ _ 5 Hd)
    as (picks & Hp & Hsub & Hall).
  exists signals, picks. split; [by rewrite Hd|]. split; [exact Hp|].
  split; [|split; [exact Hsub | exact Hall]].
  vm_compute in Hp. injection Hp as <-. reflexivity.
Defined.

Lemma detect_independent_of_order_and_state_witness :
  let primed :=
    (detect Examples.fresh [Examples.vision; Examples.local_llm]).2 in
  ∃ signals1 self1' signals2 self2',
    detect Examples.fresh [Examples.vision; Examples.niche]
    = (OK signals1, self1') ∧
    detect primed [Examples.niche; Examples.vision] = (OK signals2, self2') ∧
    _max_engagement primed = 1015%Z ∧
    signals1 ≡ₚ signals2 ∧ self2' = self1'.
Proof.
  intros primed.
  assert (∃ signals1,
            detect Examples.fresh [Examples.vision; Examples.niche]
            = (OK signals1,
               (detect Examples.fresh [Examples.vision; Examples.niche]).2))
    as [signals1 Hd] by (eexists; vm_compute; reflexivity).
  destruct (detect_independent_of_order_and_state Examples.fresh primed
              (detect Examples.fresh [Examples.vision; Examples.niche]).2
              [Examples.vision; Examples.niche]
              [Examples.niche; Examples.vision] signals1)
    as (signals2 & self2' & H2 & Hp & Hst & _).
  - reflexivity.
  - reflexivity.
  - apply Permutation_swap.
  - exact Hd.
  - eexists signals1, _, signals2, self2'. split; [exact Hd|].
    split; [exact H2|]. split; [reflexivity|].
    split; [exact Hp | by apply Hst].
Defined.

Lemma detect_raises_only_witness :
  ∃ c, c ∈ [Examples.vision; Examples.astronomic] ∧
    ((OverflowError = KeyError "raw_text"
      ∧ Exists (λ q : pydict, q !! "raw_text"%string = None)
          (take 5 (questions c)))
     ∨ (OverflowError = ZeroDivisionError ∧ questions c = []
        ∧ (cross_platform_count c < 3)%Z)
     ∨ (OverflowError = OverflowError ∧ ¬ Spec.engagement_in_range c)).
Proof.
  apply (detect_raises_only Examples.fresh
           [Examples.vision; Examples.astronomic] OverflowError).
  vm_compute; reflexivity.
Defined.

End DetectorInvariants.

(** ** More on the clusterer: grouping, built clusters, composition *)

Module ClustererInvariants.
Import Clusterer PyFacts.

Lemma labelled_cons {A} (x : A) xs l labels label :
  Spec.labelled (x :: xs) (l :: labels) label
  = if (l =? label)%Z then x :: Spec.labelled xs labels label
    else Spec.labelled xs labels label.
Proof. unfold Spec.labelled. simpl. by destruct (l =? label)%Z. Qed.

Lemma labelled_nil_l {A} labels label : Spec.labelled (@nil A) labels label = [].
Proof. done. Qed.

Lemma labelled_length {A B} (xs : list A) (ys : list B) labels label :
  length xs = length ys →
  length (Spec.labelled xs labels label) = length (Spec.labelled ys labels label).
Proof.
  revert ys labels. induction xs as [|x xs IH]; intros [|y ys] labels; try done.
  intros [= Hlen]. destruct labels as [|l labels]; [done|].
  rewrite !labelled_cons. destruct (l =? label)%Z; simpl; auto.
Qed.

Lemma map_append_elem m label q l g :
  NoDup (m.*1) →
  (l, g) ∈ map_append m label q ↔
    (l ≠ label ∧ (l, g) ∈ m)
    ∨ (l = label ∧ ((∃ g0, (label, g0) ∈ m ∧ g = g0 ++ [q])
                     ∨ ((label ∉ m.*1) ∧ g = [q]))).
Proof.
  induction m as [|[l0 g0] m IH]; intros Hnd.
  - simpl. rewrite list_elem_of_singleton. split.
    + intros [= -> ->]. right. split; [done|]. right. split; [|done].
      apply not_elem_of_nil.
    + intros [[_ H]|[-> [(g0 & H & _)| [_ ->]]]]; try done;
        by apply elem_of_nil in H.
  - rewrite fmap_cons in Hnd. apply NoDup_cons in Hnd as [Hl0 Hnd].
    simpl in Hl0.
    assert (∀ g', (l0, g') ∈ m → False) as Hfresh.
    { intros g' Hin. apply Hl0. apply list_elem_of_fmap. by exists (l0, g'). }
    cbn [map_append]. destruct (Z.eqb_spec l0 label) as [->|Hne].
    + rewrite fmap_cons. simpl. rewrite !elem_of_cons. split.
      * intros [Heq|Hin].
        -- injection Heq as -> ->. right. split; [done|]. left.
           exists g0. split; [by left | done].
        -- left. split; [|by right]. intros ->. by eapply Hfresh.
      * intros [[Hne Hin]|[-> [(g1 & Hin & ->)|[Hnot ->]]]].
        -- destruct Hin as [Heq|Hin]; [|by right].
           injection Heq as -> ->. done.
        -- apply elem_of_cons in Hin as [Heq|Hin].
           ++ injection Heq as ->. by left.
           ++ exfalso. by eapply Hfresh.
        -- exfalso. apply Hnot. by left.
    + rewrite elem_of_cons, (IH Hnd). rewrite fmap_cons. simpl. split.
      * intros [Heq|[[Hne' Hin]|[-> [(g1 & Hin & ->)|[Hnot ->]]]]].
        -- injection Heq as -> ->. left. split; [done | left].
        -- left. split; [done | by right].
        -- right. split; [done|]. left. exists g1. split; [by right|done].
        -- right. split; [done|]. right. split; [|done].
           rewrite not_elem_of_cons. done.
      * intros [[Hne' Hin]|[-> [(g1 & Hin & ->)|[Hnot ->]]]].
        -- apply elem_of_cons in Hin as [Heq|Hin].
           ++ injection Heq as -> ->. by left.
           ++ right. left. done.
        -- apply elem_of_cons in Hin as [Heq|Hin].
           ++ injection Heq as -> ->. done.
           ++ right. right. split; [done|]. left. by exists g1.
        -- apply not_elem_of_cons in Hnot as [_ Hnot].
           right. right. split; [done|]. by right.
Qed.

Lemma map_append_keys m label q :
  (map_append m label q).*1
  = if bool_decide (label ∈ m.*1) then m.*1 else m.*1 ++ [label].
Proof.
  induction m as [|[l0 g0] m IH]; [done|].
  cbn [map_append]. destruct (Z.eqb_spec l0 label) as [->|Hne].
  - rewrite !fmap_cons. simpl. rewrite bool_decide_eq_true_2; [done | left].
  - rewrite !fmap_cons, IH. simpl.
    case_bool_decide as H1; case_bool_decide as H2; try done.
    + exfalso. apply H2. by right.
    + apply elem_of_cons in H2 as [->|H2]; done.
Qed.

Lemma map_append_NoDup m label q :
  NoDup (m.*1) → NoDup ((map_append m label q).*1).
Proof.
  intros Hnd. rewrite map_append_keys. case_bool_decide as H; [done|].
  apply NoDup_app. split; [done|]. split; [|apply NoDup_singleton].
  intros x Hx ->%list_elem_of_singleton. done.
Qed.

Lemma map_append_key_new m label q : label ∈ (map_append m label q).*1.
Proof.
  rewrite map_append_keys. case_bool_decide; [done|].
  apply elem_of_app. right. left.
Qed.

Lemma map_append_key_old m label q l :
  l ∈ m.*1 → l ∈ (map_append m label q).*1.
Proof.
  rewrite map_append_keys. case_bool_decide; [done|].
  intros. apply elem_of_app. by left.
Qed.

Lemma map_append_key_inv m label q l :
  l ∈ (map_append m label q).*1 → l = label ∨ l ∈ m.*1.
Proof.
  rewrite map_append_keys. case_bool_decide; [by right|].
  intros [Hl| ->%list_elem_of_singleton]%elem_of_app; auto.
Qed.

Lemma index_drop {A} (xs : list A) i x :
  Py.index xs i = OK x → drop i xs = x :: drop (S i) xs.
Proof.
  unfold Py.index. destruct (xs !! i) eqn:H; [|done].
  intros [= ->]. by apply drop_S.
Qed.

Lemma labelled_skip {A} (xs : list A) i l labels label :
  l ≠ label →
  Spec.labelled (drop i xs) (l :: labels) label
  = Spec.labelled (drop (S i) xs) labels label.
Proof.
  intros Hne. destruct (xs !! i) as [x|] eqn:Hx.
  - rewrite (drop_S _ _ _ Hx), labelled_cons.
    by destruct (Z.eqb_spec l label).
  - apply lookup_ge_None in Hx.
    rewrite !drop_ge by lia. done.
Qed.

(** The grouping loop, started at position [idx] with a map [m_in]: every
    group of the result extends a group of [m_in] by the remaining rows of
    its label, or is new and holds exactly those rows. *)
Lemma group_loop_spec questions labels : ∀ idx m_in m_out,
  NoDup (m_in.*1) → (-1)%Z ∉ m_in.*1 →
  group_loop questions idx labels m_in = OK m_out →
  NoDup (m_out.*1) ∧
  (∀ l g, (l, g) ∈ m_out →
     (∃ g0, (l, g0) ∈ m_in
            ∧ g = g0 ++ Spec.labelled (drop idx questions) labels l)
     ∨ ((l ∉ m_in.*1) ∧ l ≠ (-1)%Z ∧ l ∈ labels ∧ g ≠ []
        ∧ g = Spec.labelled (drop idx questions) labels l)) ∧
  (∀ l, l ∈ m_in.*1 → l ∈ m_out.*1) ∧
  (∀ l, l ∈ labels → l ≠ (-1)%Z → l ∈ m_out.*1).
Proof.
  induction labels as [|label labels IH]; intros idx m_in m_out Hnd Hno H.
  - injection H as <-. split; [done|]. split; [|split; [done|]].
    + intros l g Hin. left. exists g. split; [done|].
      unfold Spec.labelled. rewrite zip_with_nil_r. simpl. by rewrite app_nil_r.
    + intros l Hl. by apply elem_of_nil in Hl.
  - cbn [group_loop] in H. destruct (Z.eqb_spec label (-1)) as [->|Hlab].
    + destruct (IH _ _ _ Hnd Hno H) as (Hnd' & Hg & Hold & Hnew).
      split; [done|]. split; [|split; [done|]].
      * intros l g Hin. destruct (Hg l g Hin)
          as [(g0 & Hin0 & ->)|(Hfresh & Hl & Hlin & Hne & ->)].
        -- left. exists g0. split; [done|]. rewrite labelled_skip; [done|].
           intros <-. apply Hno. apply list_elem_of_fmap. by exists ((-1)%Z, g0).
        -- right. split; [done|]. split; [done|]. split; [by right|].
           split; [done|]. by rewrite labelled_skip.
      * intros l [->|Hl]%elem_of_cons Hne; [done | by apply Hnew].
    + apply bind_OK in H as (q & Hq & H).
      pose proof (index_drop _ _ _ Hq) as Hdrop.
      assert ((-1)%Z ∉ (map_append m_in label q).*1) as Hno'.
      { intros [?|?]%map_append_key_inv; [congruence | done]. }
      destruct (IH _ _ _ (map_append_NoDup _ label q Hnd) Hno' H)
        as (Hnd' & Hg & Hold & Hnew).
      split; [done|]. split; [|split].
      * intros l g Hin. rewrite Hdrop, labelled_cons.
        destruct (Hg l g Hin)
          as [(g1 & Hin1 & ->)|(Hfresh & Hl & Hlin & Hne & ->)].
        -- apply (map_append_elem _ _ _ _ _ Hnd) in Hin1
             as [[Hll Hin0]|[-> [(g0 & Hin0 & ->)|[Hfresh ->]]]].
           ++ left. exists g1. split; [done|].
              by destruct (Z.eqb_spec label l); [congruence|].
           ++ left. exists g0. split; [done|].
              rewrite Z.eqb_refl. by rewrite <- app_assoc.
           ++ right. rewrite Z.eqb_refl.
              split; [done|]. split; [done|]. split; [left|]. done.
        -- right.
           assert (l ≠ label) as Hll
             by (intros ->; apply Hfresh, map_append_key_new).
           destruct (Z.eqb_spec label l); [congruence|].
           split; [|split; [done|split; [by right|done]]].
           intros ?. by apply Hfresh, map_append_key_old.
      * intros l Hl. by apply Hold, map_append_key_old.
      * intros l [->|Hl]%elem_of_cons Hne; [|by apply Hnew].
        apply Hold, map_append_key_new.
Qed.

(** *** [_build_cluster] *)



Lemma sum_engagement_spec qs : ∀ acc r,
  sum_engagement qs acc = OK r →
  r = (acc + foldr (λ q s, Spec.engagement_of q + s) 0 qs)%Z.
Proof.
  induction qs as [|q qs IH]; intros acc r H.
  - injection H as <-. simpl. lia.
  - cbn [sum_engagement] in H.
    apply bind_OK in H as (u & Hu & H). apply bind_OK in H as (c & Hc & H).
    rewrite (IH _ _ H). cbn [foldr]. unfold Spec.engagement_of, Py.as_int in *.
    destruct (Py.get q "upvotes" (VInt 0)); try done.
    destruct (Py.get q "comments" (VInt 0)); try done.
    injection Hu as ->. injection Hc as ->. lia.
Qed.

Lemma foldl_min_max t ts : (foldl Z.min t ts ≤ foldl Z.max t ts)%Z.
Proof.
  enough (∀ a b, (a ≤ b)%Z → (foldl Z.min a ts ≤ foldl Z.max b ts)%Z) as H
    by (apply H; lia).
  induction ts as [|x ts IH]; intros a b Hab; simpl; [done|].
  apply IH. lia.
Qed.

Lemma extremum_min_max dates e l :
  extremum Z.min dates = OK e → extremum Z.max dates = OK l →
  match e, l with
  | Some a, Some b => (a ≤ b)%Z
  | None, None => True
  | _, _ => False
  end.
Proof.
  unfold extremum. destruct (Py.for_each Py.as_time dates) as [ts|]; [|done].
  simpl. destruct ts as [|t ts]; intros [= <-] [= <-]; [done|].
  apply foldl_min_max.
Qed.

Lemma build_cluster_OK id qs embs labels c :
  _build_cluster id qs embs labels = OK c →
  ∃ q platform_counts,
    q ∈ qs ∧ q !! "normalized_text"%string = Some (VStr (canonical_question c)) ∧
    count_platforms qs ∅ = OK platform_counts ∧
    cluster_id c = id ∧ questions c = qs ∧
    Clusterer.platform_counts c = platform_counts ∧
    total_engagement c = foldr (λ q s, Spec.engagement_of q + s)%Z 0%Z qs ∧
    match earliest_seen c, latest_seen c with
    | Some a, Some b => (a ≤ b)%Z
    | None, None => True
    | _, _ => False
    end.
Proof.
  unfold _build_cluster.
  intros (i & _ & H)%bind_OK.
  apply bind_OK in H as (q & Hq & H).
  apply bind_OK in H as (text & Htext & H).
  apply bind_OK in H as (canonical & Hcan & H).
  apply bind_OK in H as (pc & Hpc & H).
  apply bind_OK in H as (te & Hte & H).
  apply bind_OK in H as (e & He & H).
  apply bind_OK in H as (l & Hl & H).
  injection H as <-. simpl.
  exists q, pc. split.
  { unfold Py.index in Hq. destruct (qs !! i) eqn:Hi; [|done].
    injection Hq as ->. by eapply list_elem_of_lookup_2. }
  split.
  { unfold Py.getitem in Htext.
    destruct (q !! "normalized_text"%string) as [v|]; [|done].
    injection Htext as ->. destruct text; try done. by injection Hcan as ->. }
  split; [done|]. split; [done|]. split; [done|]. split; [done|]. split.
  { apply sum_engagement_spec in Hte as ->. by rewrite Z.add_0_l. }
  exact (extremum_min_max _ _ _ He Hl).
Qed.


(** *** The grouping loop *)

Lemma labelled_elem {A} (xs : list A) labels label x :
  x ∈ Spec.labelled xs labels label → x ∈ xs.
Proof.
  revert labels. induction xs as [|y xs IH]; intros [|l labels]; try done.
  - intros H. by apply elem_of_nil in H.
  - rewrite labelled_cons. destruct (l =? label)%Z.
    + intros [->|H]%elem_of_cons; [left | right; eauto].
    + intros H. right. eauto.
Qed.

Lemma grouping_by_label_aux questions labels cluster_map :
  group_loop questions 0 labels [] = OK cluster_map →
  Forall (λ p, p.2 ≠ [] ∧ p.2 = Spec.labelled questions labels p.1) cluster_map.
Proof.
  intros H.
  destruct (group_loop_spec questions labels 0 [] cluster_map) as
    (_ & Hg & _); [constructor | apply not_elem_of_nil | done |].
  apply Forall_forall. intros [l g] Hin.
  destruct (Hg _ _ Hin) as [(g0 & Hin0 & _)|(_ & _ & _ & Hne & Heq)].
  - by apply elem_of_nil in Hin0.
  - by rewrite drop_0 in Heq.
Qed.

(** X11. The grouping loop of [cluster] makes one group per label other
    than the noise label -1, and a group holds exactly the questions at the
    positions that carry its label, in input order; no group is empty. *)
Theorem grouping_by_label (questions : list pydict) (labels : list Z)
    (cluster_map : list (Z * list pydict)) :
  group_loop questions 0 labels [] = OK cluster_map →
  NoDup (cluster_map.*1) ∧
  (∀ l, l ∈ cluster_map.*1 ↔ l ∈ labels ∧ l ≠ (-1)%Z) ∧
  Forall (λ p, p.2 ≠ [] ∧ p.2 = Spec.labelled questions labels p.1) cluster_map.
Proof.
  intros H.
  destruct (group_loop_spec questions labels 0 [] cluster_map) as
    (Hnd & Hg & _ & Hnew); [constructor | apply not_elem_of_nil | done |].
  split; [done|]. split.
  - intros l. split; [|intros [? ?]; by apply Hnew].
    intros ([l' g] & -> & Hin)%list_elem_of_fmap.
    destruct (Hg _ _ Hin) as [(g0 & Hin0 & _)|(_ & ? & ? & _)]; [|done].
    by apply elem_of_nil in Hin0.
  - apply Forall_forall. intros [l g] Hin.
    destruct (Hg _ _ Hin) as [(g0 & Hin0 & _)|(_ & _ & _ & Hne & Heq)].
    + by apply elem_of_nil in Hin0.
    + by rewrite drop_0 in Heq.
Qed.

Lemma group_loop_returns questions labels : ∀ idx cluster_map,
  (idx + length labels ≤ length questions)%nat →
  Py.returns (group_loop questions idx labels cluster_map).
Proof.
  induction labels as [|l labels IH]; intros idx m Hlen; [by eexists|].
  cbn [group_loop length] in *. destruct (l =? -1)%Z.
  - apply IH. lia.
  - unfold Py.index. destruct (lookup_lt_is_Some_2 questions idx) as [q ->];
      [lia|].
    simpl. apply IH. lia.
Qed.

(** *** When [_build_cluster] returns *)

Lemma argmin_from_bound ds : ∀ best d i,
  (best < i)%nat → (argmin_from best d i ds < i + length ds)%nat.
Proof.
  induction ds as [|x ds IH]; intros best d i Hb; simpl; [lia|].
  destruct (Py.Qltb x d).
  - specialize (IH i x (S i)). lia.
  - specialize (IH best d (S i)). lia.
Qed.

Lemma argmin_returns ds :
  ds ≠ [] → ∃ i, argmin ds = OK i ∧ (i < length ds)%nat.
Proof.
  destruct ds as [|d ds]; [done|]. intros _. eexists. split; [reflexivity|].
  pose proof (argmin_from_bound ds 0 d 1). simpl. lia.
Qed.

Lemma count_platforms_returns d qs : ∀ counts,
  Forall (Spec.typed_question d) qs → Py.returns (count_platforms qs counts).
Proof.
  induction qs as [|q qs IH]; intros counts Hq; [by eexists|].
  apply Forall_cons in Hq as [(_ & _ & [s Hs] & _) Hqs].
  cbn [count_platforms]. rewrite Hs. simpl. by apply IH.
Qed.

Lemma sum_engagement_returns d qs : ∀ acc,
  Forall (Spec.typed_question d) qs → Py.returns (sum_engagement qs acc).
Proof.
  induction qs as [|q qs IH]; intros acc Hq; [by eexists|].
  apply Forall_cons in Hq as [(_ & _ & _ & [u Hu] & [c Hc] & _) Hqs].
  cbn [sum_engagement]. rewrite Hu, Hc. simpl. by apply IH.
Qed.

Lemma extremum_returns d pick qs :
  Forall (Spec.typed_question d) qs → Py.returns (extremum pick (dates_of qs)).
Proof.
  intros Hq. unfold extremum.
  destruct (for_each_returns Py.as_time (dates_of qs)) as [ts ->].
  - unfold dates_of. apply Forall_forall. intros v Hv.
    rewrite list_elem_of_In in Hv. apply List.filter_In in Hv as [Hv Htrue].
    rewrite <- list_elem_of_In in Hv.
    apply list_elem_of_fmap in Hv as (q & -> & Hin).
    rewrite Forall_forall in Hq.
    destruct (Hq q Hin) as (_ & _ & _ & _ & _ & Ht).
    destruct (Ht Htrue) as [t ->]. by eexists.
  - simpl. destruct ts; by eexists.
Qed.

Lemma build_cluster_returns d id qs embs labels :
  qs ≠ [] → length (mask_rows embs labels id) = length qs →
  Forall (Spec.typed_question d) qs →
  Py.returns (_build_cluster id qs embs labels).
Proof.
  intros Hne Hlen Hq. unfold _build_cluster.
  destruct (argmin_returns
    ((λ e, norm_sq (vsub e (mean_rows (mask_rows embs labels id))))
       <$> mask_rows embs labels id)) as (i & -> & Hi).
  { intros Hnil. apply (f_equal length) in Hnil.
    rewrite length_fmap, Hlen in Hnil. by destruct qs. }
  rewrite length_fmap, Hlen in Hi. simpl.
  destruct (lookup_lt_is_Some_2 qs i Hi) as [q Hqi].
  unfold Py.index. rewrite Hqi. simpl.
  rewrite Forall_forall in Hq.
  destruct (Hq q (list_elem_of_lookup_2 _ _ _ Hqi)) as (_ & [s Hs] & _).
  unfold Py.getitem. rewrite Hs. simpl.
  rewrite <- Forall_forall in Hq.
  destruct (count_platforms_returns d qs ∅ Hq) as [pc ->].
  destruct (sum_engagement_returns d qs 0 Hq) as [te ->].
  destruct (extremum_returns d Z.min qs Hq) as [e ->].
  destruct (extremum_returns d Z.max qs Hq) as [l ->].
  simpl. by eexists.
Qed.

Lemma np_array_returns d (rows : list pyval) :
  Forall (λ r, ∃ v, r = VVec v ∧ length v = d) rows →
  ∃ vs, np_array rows = OK vs ∧ length vs = length rows.
Proof.
  intros Hrows. unfold np_array.
  assert (∃ vs, Py.for_each
            (λ v, match v with VVec x => OK x | _ => Raise LibraryError end)
            rows = OK vs
          ∧ length vs = length rows
          ∧ Forall (λ w, length w = d) vs) as (vs & -> & Hlen & Hd).
  { induction Hrows as [|r rows (v & -> & Hv) _ (vs & IH & Hlen & Hd)].
    - exists []. by repeat split.
    - exists (v :: vs). cbn [Py.for_each]. simpl. rewrite IH. simpl.
      split; [done|]. split; [by rewrite Hlen | by constructor]. }
  simpl. destruct vs as [|v vs]; [by exists []|].
  assert (forallb (λ w, Nat.eqb (length w) (length v)) (v :: vs) = true) as ->.
  { apply forallb_forall. intros w Hw. rewrite <- list_elem_of_In in Hw.
    rewrite Forall_forall in Hd. apply Nat.eqb_eq.
    rewrite (Hd w Hw). symmetry. apply Hd. left. }
  by exists (v :: vs).
Qed.

(** *** [cluster] *)

Section WithHDBSCAN.
Variable fit_predict : Z → Z → string → list vec → result (list Z).

Lemma cluster_OK self questions clusters :
  cluster fit_predict self questions = OK clusters →
  clusters = [] ∨
  ∃ embeddings labels cluster_map built,
    fit_predict (min_cluster_size self) (min_samples self) (metric self)
      embeddings = OK labels ∧
    group_loop questions 0 labels [] = OK cluster_map ∧
    Forall2 (λ p c, _build_cluster p.1 p.2 embeddings labels = OK c)
      cluster_map built ∧
    clusters = Py.sort_desc (λ c, inject_Z (total_engagement c)) built.
Proof.
  unfold cluster. destruct (_ || _); [intros [= <-]; by left|].
  intros (rows & _ & H)%bind_OK.
  apply bind_OK in H as (embeddings & _ & H).
  apply bind_OK in H as (labels & Hl & H).
  apply bind_OK in H as (cluster_map & Hm & H).
  apply bind_OK in H as (built & Hb & H). injection H as <-.
  right. exists embeddings, labels, cluster_map, built.
  split; [done|]. split; [done|]. split; [|done].
  apply for_each_OK in Hb. eapply Forall2_impl; [exact Hb|].
  by intros [l g] c.
Qed.

Lemma labelled_sublist {A} (xs : list A) labels label :
  Spec.labelled xs labels label `sublist_of` xs.
Proof.
  revert labels. induction xs as [|x xs IH]; intros [|l labels];
    try apply sublist_nil_l.
  rewrite labelled_cons. destruct (l =? label)%Z.
  - by apply sublist_skip.
  - by apply sublist_cons.
Qed.

Lemma engagement_sum_abs (qs : list pydict) :
  (Z.abs (foldr (λ q s, Spec.engagement_of q + s) 0 qs)
   ≤ foldr (λ q s, Z.abs (Spec.engagement_of q) + s) 0 qs)%Z.
Proof. induction qs as [|q qs IH]; simpl; lia. Qed.

Lemma engagement_sum_sublist (qs1 qs2 : list pydict) :
  qs1 `sublist_of` qs2 →
  (foldr (λ q s, Z.abs (Spec.engagement_of q) + s) 0 qs1
   ≤ foldr (λ q s, Z.abs (Spec.engagement_of q) + s) 0 qs2)%Z.
Proof. induction 1; simpl; lia. Qed.

(** The clusters hold some of the questions, so their total engagement is
    within the range of a float when that of all questions together is. *)
Lemma cluster_in_range self questions clusters :
  cluster fit_predict self questions = OK clusters →
  Spec.engagement_sum_in_range questions →
  Forall Spec.engagement_in_range clusters.
Proof.
  intros [->|(embeddings & labels & cluster_map & built & _ & Hm & Hb & ->)]
    %cluster_OK Hsum; [constructor|].
  rewrite sort_desc_perm.
  pose proof (grouping_by_label_aux questions labels cluster_map Hm) as Hg.
  eapply Forall2_Forall_r; [exact Hb|].
  eapply Forall_impl; [exact Hg|]. intros [l g] [_ Heq] c Hc. simpl in *.
  apply build_cluster_OK in Hc as (_ & _ & _ & _ & _ & _ & _ & _ & Hte & _).
  unfold Spec.engagement_in_range, Spec.engagement_sum_in_range,
    Spec.fits_float in *.
  rewrite Hte.
  pose proof (engagement_sum_abs g) as Habs.
  assert (g `sublist_of` questions) as Hsub
    by (rewrite Heq; apply labelled_sublist).
  apply engagement_sum_sublist in Hsub. lia.
Qed.

Lemma cluster_members self questions clusters :
  cluster fit_predict self questions = OK clusters →
  Forall (λ c, Clusterer.questions c ≠ []
               ∧ Clusterer.questions c ⊆ questions) clusters.
Proof.
  intros [->|(embeddings & labels & cluster_map & built & _ & Hm & Hb & ->)]
    %cluster_OK; [constructor|].
  rewrite sort_desc_perm.
  pose proof (grouping_by_label_aux questions labels cluster_map Hm) as Hg.
  eapply Forall2_Forall_r; [exact Hb|].
  eapply Forall_impl; [exact Hg|]. intros [l g] [Hne Heq] c Hc. simpl in *.
  apply build_cluster_OK in Hc as (_ & _ & _ & _ & _ & _ & -> & _).
  split; [done|].
  intros q Hq. rewrite Heq in Hq. by eapply labelled_elem.
Qed.

Lemma built_ids cluster_map built embeddings labels :
  Forall2 (λ p c, _build_cluster p.1 p.2 embeddings labels = OK c)
    cluster_map built →
  cluster_id <$> built = cluster_map.*1.
Proof.
  induction 1 as [|[l g] c m built Hc _ IH]; [done|].
  rewrite !fmap_cons, IH. f_equal.
  by apply build_cluster_OK in Hc as (_ & _ & _ & _ & _ & -> & _).
Qed.

(** X13. The clusters [cluster] returns are in descending order of total
    engagement and have distinct ids; none is empty, and each holds only
    input questions.  When there are any, the ids are exactly the labels
    the clustering library gave, noise (-1) apart, and a cluster holds
    exactly the questions at the positions Spec.labelled with its id: noise
    points are in no cluster and no question is in two. *)
Theorem cluster_partitions_by_label (self : QuestionClusterer)
    (questions : list pydict) (clusters : list QuestionCluster) :
  cluster fit_predict self questions = OK clusters →
  Spec.descending (λ c, inject_Z (total_engagement c)) clusters ∧
  NoDup (cluster_id <$> clusters) ∧
  Forall (λ c, Clusterer.questions c ≠ []
               ∧ Clusterer.questions c ⊆ questions) clusters ∧
  (clusters ≠ [] →
   ∃ embeddings labels,
     fit_predict (min_cluster_size self) (min_samples self) (metric self)
       embeddings = OK labels ∧
     (∀ l, l ∈ cluster_id <$> clusters ↔ l ∈ labels ∧ l ≠ (-1)%Z) ∧
     Forall (λ c, Clusterer.questions c
                  = Spec.labelled questions labels (cluster_id c)) clusters).
Proof.
  intros H. pose proof (cluster_members _ _ _ H) as Hmem.
  apply cluster_OK in H
    as [->|(embeddings & labels & cluster_map & built & Hl & Hm & Hb & ->)].
  { split; [constructor|]. split; [constructor|]. done. }
  split; [apply sort_desc_sorted|].
  destruct (group_loop_spec questions labels 0 [] cluster_map) as
    (Hnd & Hg & _ & Hnew); [constructor | apply not_elem_of_nil | done |].
  pose proof (built_ids _ _ _ _ Hb) as Hids.
  assert (cluster_id <$> Py.sort_desc (λ c, inject_Z (total_engagement c)) built
          ≡ₚ cluster_map.*1) as Hperm.
  { rewrite <- Hids. apply fmap_Permutation, sort_desc_perm. }
  split; [by rewrite Hperm|]. split; [done|].
  intros _. exists embeddings, labels. split; [done|]. split.
  - intros l. rewrite Hperm. split; [|intros [? ?]; by apply Hnew].
    intros ([l' g] & -> & Hin)%list_elem_of_fmap.
    destruct (Hg _ _ Hin) as [(g0 & Hin0 & _)|(_ & ? & ? & _)]; [|done].
    by apply elem_of_nil in Hin0.
  - rewrite sort_desc_perm.
    eapply Forall2_Forall_r; [exact Hb|].
    eapply Forall_impl;
      [exact (grouping_by_label_aux questions labels cluster_map Hm)|].
    intros [l g] [_ Heq] c Hc. simpl in *.
    by apply build_cluster_OK in Hc as (_ & _ & _ & _ & _ & -> & -> & _).
Qed.

(** X15. The clusterer's output suits the detector.  When every input
    question carries a [raw_text], its normalized text is a string and its
    optional fields have the types the ingesters give them, and the
    engagement counts of all questions together are within the range of a
    float, [detect] returns one signal for each cluster [cluster] produced,
    from any detector: no cluster is empty, and no division overflows. *)
Theorem detect_after_cluster (self : QuestionClusterer)
    (questions : list pydict) (clusters : list QuestionCluster)
    (detector : Detector.SignalDetector) :
  cluster fit_predict self questions = OK clusters →
  Forall (λ q : pydict, Spec.typed_fields q
                        ∧ is_Some (q !! "raw_text"%string)) questions →
  Spec.engagement_sum_in_range questions →
  ∃ signals detector',
    Detector.detect detector clusters = (OK signals, detector') ∧
    length signals = length clusters.
Proof.
  intros H Hraw Hsum. apply DetectorInvariants.detect_returns.
  - eapply Forall_impl; [exact (cluster_members _ _ _ H)|].
    intros c [Hne Hsub]. split; [done|].
    apply Forall_forall. intros q Hq. rewrite Forall_forall in Hraw.
    apply Hraw, Hsub. by eapply (sublist_subseteq _ _ (sublist_take _ 5)).
  - by eapply cluster_in_range.
Qed.

Lemma cluster_returns self questions d :
  Forall (Spec.typed_question d) questions →
  (∀ embeddings, length embeddings = length questions →
     ∃ labels,
       fit_predict (min_cluster_size self) (min_samples self) (metric self)
         embeddings = OK labels ∧
       length labels = length embeddings) →
  Py.returns (cluster fit_predict self questions).
Proof.
  intros Hq Hfit. unfold cluster. destruct (_ || _); [by eexists|].
  destruct (for_each_returns (λ q : pydict, Py.getitem q "embedding") questions)
    as [rows Hrows].
  { eapply Forall_impl; [exact Hq|]. intros q ((v & Hv & _) & _).
    unfold Py.getitem. rewrite Hv. by eexists. }
  rewrite Hrows. simpl.
  destruct (np_array_returns d rows) as (embeddings & -> & Hlen).
  { apply for_each_OK in Hrows. eapply Forall2_Forall_r; [exact Hrows|].
    eapply Forall_impl; [exact Hq|]. intros q ((v & Hv & Hd) & _) r Hr.
    unfold Py.getitem in Hr. rewrite Hv in Hr. injection Hr as <-.
    by exists v. }
  apply for_each_length in Hrows. simpl.
  destruct (Hfit embeddings) as (labels & -> & Hlabels); [congruence|].
  simpl.
  destruct (group_loop_returns questions labels 0 []) as [cluster_map Hm];
    [simpl; lia|].
  rewrite Hm. simpl.
  destruct (for_each_returns
    (λ '(label, cluster_questions),
       _build_cluster label cluster_questions embeddings labels) cluster_map)
    as [built ->]; [|by eexists].
  eapply Forall_impl;
    [exact (grouping_by_label_aux questions labels cluster_map Hm)|].
  intros [l g] [Hne Heq]. simpl in *.
  apply (build_cluster_returns d); [done | |].
  - rewrite Heq. apply labelled_length. congruence.
  - apply Forall_forall. intros q Hin. rewrite Forall_forall in Hq.
    apply Hq. rewrite Heq in Hin. by eapply labelled_elem.
Qed.

(** X14. [cluster] returns whenever every question carries an embedding of
    one dimension and a normalized text, the optional fields have the types
    the ingesters give them, and the clustering library answers with one
    label per embedding: the canonical-question index is then always in
    range. *)
Theorem cluster_returns_on_typed_questions (self : QuestionClusterer)
    (questions : list pydict) (d : nat) :
  Forall (Spec.typed_question d) questions →
  (∀ embeddings, length embeddings = length questions →
     ∃ labels,
       fit_predict (min_cluster_size self) (min_samples self) (metric self)
         embeddings = OK labels ∧
       length labels = length embeddings) →
  Py.returns (cluster fit_predict self questions).
Proof.
  apply cluster_returns.
Qed.

End WithHDBSCAN.

(** *** Concrete checks *)

Lemma grouping_by_label_witness :
  ∃ cluster_map,
    group_loop Examples.embedded 0 [0; -1; 0]%Z [] = OK cluster_map ∧
    NoDup (cluster_map.*1) ∧
    (∀ l, l ∈ cluster_map.*1 ↔ l ∈ [0; -1; 0]%Z ∧ l ≠ (-1)%Z) ∧
    Forall (λ p, p.2 ≠ []
                 ∧ p.2 = Spec.labelled Examples.embedded [0; -1; 0]%Z p.1)
      cluster_map.
Proof.
  destruct (group_loop_returns Examples.embedded [0; -1; 0]%Z 0 [])
    as [m Hm]; [simpl; lia|].
  exists m. split; [exact Hm|].
  exact (grouping_by_label Examples.embedded [0; -1; 0]%Z m Hm).
Defined.


Lemma cluster_partitions_by_label_witness :
  ∃ clusters,
    cluster Examples.one_cluster (__init__ None None None None)
      Examples.embedded = OK clusters ∧
    length clusters = 1%nat ∧
    Spec.descending (λ c, inject_Z (total_engagement c)) clusters ∧
    NoDup (cluster_id <$> clusters) ∧
    Forall (λ c, Clusterer.questions c ≠ []
                 ∧ Clusterer.questions c ⊆ Examples.embedded) clusters.
Proof.
  assert (∃ clusters,
            cluster Examples.one_cluster (__init__ None None None None)
              Examples.embedded = OK clusters ∧ length clusters = 1%nat)
    as (clusters & Hc & Hlen) by (eexists; split; vm_compute; reflexivity).
  exists clusters. split; [exact Hc|]. split; [exact Hlen|].
  destruct (cluster_partitions_by_label Examples.one_cluster _ _ _ Hc)
    as (Hd & Hnd & Hmem & _).
  split; [exact Hd|]. split; [exact Hnd | exact Hmem].
Defined.

Lemma embedded_typed : Forall (Spec.typed_question 2) Examples.embedded.
Proof.
  apply Forall_cons_2; [|apply Forall_cons_2; [|apply Forall_cons_2;
    [|apply Forall_nil_2]]].
  all: split; [eexists; split; vm_compute; reflexivity|].
  all: split; [eexists; vm_compute; reflexivity|].
  all: split; [eexists; vm_compute; reflexivity|].
  all: split; [eexists; vm_compute; reflexivity|].
  all: split; [eexists; vm_compute; reflexivity|].
  all: vm_compute; discriminate.
Defined.

Lemma cluster_returns_on_typed_questions_witness :
  Forall (Spec.typed_question 2) Examples.embedded ∧
  Py.returns (cluster Examples.one_cluster (__init__ None None None None)
                Examples.embedded).
Proof.
  split; [exact embedded_typed|].
  apply (cluster_returns_on_typed_questions Examples.one_cluster _ _ 2).
  - exact embedded_typed.
  - intros embeddings _. eexists. split; [reflexivity|].
    apply length_replicate.
Defined.

Lemma detect_after_cluster_witness :
  ∃ clusters signals detector',
    cluster Examples.one_cluster (__init__ None None None None)
      Examples.embedded = OK clusters ∧
    Detector.detect Examples.fresh clusters = (OK signals, detector') ∧
    length signals = length clusters ∧ length clusters = 1%nat.
Proof.
  assert (∃ clusters,
            cluster Examples.one_cluster (__init__ None None None None)
              Examples.embedded = OK clusters ∧ length clusters = 1%nat)
    as (clusters & Hc & Hlen) by (eexists; split; vm_compute; reflexivity).
  destruct (detect_after_cluster Examples.one_cluster _ _ _ Examples.fresh Hc)
    as (signals & detector' & Hd & Hl).
  - apply Forall_and. split.
    + eapply Forall_impl; [exact embedded_typed|]. by intros q [_ Hf].
    + apply Forall_cons_2; [by vm_compute; eexists|].
      apply Forall_cons_2; [by vm_compute; eexists|].
      apply Forall_cons_2; [by vm_compute; eexists|]. apply Forall_nil_2.
  - vm_compute; reflexivity.
  - exists clusters, signals, detector'. by repeat split.
Defined.

End ClustererInvariants.

(** ** More on the embedder: the requests sent, the slots filled *)

Module EmbedderInvariants.
Import Embedder PyFacts EmbedderFacts.

(** *** Item assignment, in general *)

Lemma setitem_slot {A} (xs : list A) (it : Item) (x : A) :
  Spec.in_batch (length xs) it →
  Py.setitem xs (index it) x
  = OK (<[Z.to_nat (Spec.slot (length xs) it) := x]> xs)
  ∧ (0 ≤ Spec.slot (length xs) it < Z.of_nat (length xs))%Z.
Proof.
  unfold Spec.in_batch, Spec.slot, Py.setitem. intros [Hlo Hhi].
  destruct (Z.leb_spec 0 (index it)).
  - destruct (Z.ltb_spec (index it) (Z.of_nat (length xs))); [|lia].
    simpl. split; [done | lia].
  - simpl. destruct (Z.leb_spec (- Z.of_nat (length xs)) (index it)); [|lia].
    destruct (Z.ltb_spec (index it) 0); [|lia]. simpl. split; [done | lia].
Qed.

Lemma setitem_out_of_range {A} (xs : list A) (it : Item) (x : A) :
  ¬ Spec.in_batch (length xs) it → Py.setitem xs (index it) x = Raise IndexError.
Proof.
  unfold Spec.in_batch, Py.setitem. intros Hout.
  destruct (Z.leb_spec 0 (index it)); simpl.
  - destruct (Z.ltb_spec (index it) (Z.of_nat (length xs))); [lia|].
    simpl. destruct (Z.leb_spec (- Z.of_nat (length xs)) (index it)); simpl;
      [|done].
    by destruct (Z.ltb_spec (index it) 0); [lia|].
  - destruct (Z.leb_spec (- Z.of_nat (length xs)) (index it)); simpl; [|done].
    destruct (Z.ltb_spec (index it) 0); simpl; [lia | done].
Qed.

Lemma place_general data : ∀ acc,
  Forall (Spec.in_batch (length acc)) data →
  ∃ r, place data acc = OK r ∧ length r = length acc ∧
    ∀ i : nat, (i < length acc)%nat →
      r !! i =
      match last (List.filter (λ it, (Spec.slot (length acc) it =? Z.of_nat i)%Z) data)
      with
      | Some it => Some (Some (embedding it))
      | None => acc !! i
      end.
Proof.
  induction data as [|it data IH]; intros acc Hin.
  { exists acc. by repeat split. }
  apply Forall_cons in Hin as [Hit Hin].
  cbn [place]. destruct (setitem_slot acc it (Some (embedding it)) Hit)
    as [-> Hslot]. simpl.
  set (k := Z.to_nat (Spec.slot (length acc) it)) in *.
  destruct (IH (<[k := Some (embedding it)]> acc)) as (r & -> & Hlen & Hr).
  { by rewrite length_insert. }
  rewrite length_insert in Hlen, Hr.
  exists r. split; [done|]. split; [done|]. intros i Hi.
  rewrite (Hr i Hi). cbn [List.filter].
  destruct (Z.eqb_spec (Spec.slot (length acc) it) (Z.of_nat i)) as [Heq|Hne].
  - rewrite last_cons.
    destruct (last (List.filter _ data)); [done|].
    assert (k = i) as -> by lia. by apply list_lookup_insert_eq.
  - destruct (last (List.filter _ data)); [done|].
    apply list_lookup_insert_ne. lia.
Qed.

Lemma place_out_of_range data : ∀ acc,
  Exists (λ it, ¬ Spec.in_batch (length acc) it) data →
  place data acc = Raise IndexError.
Proof.
  induction data as [|it data IH]; intros acc Hex;
    [by apply Exists_nil in Hex|].
  cbn [place].
  destruct (decide (Spec.in_batch (length acc) it)) as [Hit|Hit].
  - destruct (setitem_slot acc it (Some (embedding it)) Hit) as [-> _].
    simpl. apply IH. rewrite length_insert.
    apply Exists_cons in Hex as [?|?]; done.
  - by rewrite setitem_out_of_range.
Qed.

(** X17. Placing the items of a response into the slots of a batch of [n]
    texts.  If every item's index is in [-n, n), the batch comes back with
    [n] entries, the entry of a Spec.slot being the embedding of the last item
    that designates it (a negative index counting from the end) and [None]
    if no item does; if some index is outside that range, [IndexError]. *)
Theorem place_semantics (n : nat) (data : list Item) :
  (Forall (Spec.in_batch n) data →
   ∃ r, place data (replicate n None) = OK r ∧ length r = n ∧
     ∀ i : nat, (i < n)%nat →
       r !! i = Some (embedding <$>
                        last (List.filter (λ it, (Spec.slot n it =? Z.of_nat i)%Z) data)))
  ∧ (Exists (λ it, ¬ Spec.in_batch n it) data →
     place data (replicate n None) = Raise IndexError).
Proof.
  split.
  - intros Hin.
    destruct (place_general data (replicate n None)) as (r & Hr & Hlen & Hl).
    { by rewrite length_replicate. }
    rewrite length_replicate in Hlen, Hl.
    exists r. split; [done|]. split; [done|]. intros i Hi.
    rewrite (Hl i Hi). destruct (last _); [done|].
    simpl. by apply lookup_replicate_2.
  - intros Hex. apply place_out_of_range. by rewrite length_replicate.
Qed.

(** *** The batches sent *)

Section WithClient.
Context {Service : Type}.
Variable create : Service → string → list string → result (list Item) * Service.
Variable model : string.

Lemma batch_loop_traced texts starts : ∀ acc svc log r svc' log',
  batch_loop (Spec.traced create) model texts starts acc (svc, log)
  = (r, (svc', log')) →
  batch_loop create model texts starts acc svc = (r, svc') ∧
  ∃ k, (k ≤ length starts)%nat ∧
    log' = log ++ ((λ i, take BATCH_SIZE (drop i texts)) <$> take k starts) ∧
    (Py.returns r → k = length starts).
Proof.
  induction starts as [|i starts IH]; intros acc svc log r svc' log' H.
  - injection H as <- <- <-. split; [done|]. exists 0%nat.
    split; [done|]. split; [by rewrite app_nil_r | done].
  - cbn [batch_loop] in *. unfold Spec.traced at 1 in H. cbn [fst snd] in H.
    destruct (create svc model (take BATCH_SIZE (drop i texts)))
      as [[data|e] svc1].
    + destruct (place data _) as [slots|e].
      * apply IH in H as (-> & k & Hk & -> & Hret). split; [done|].
        exists (S k). cbn [length take]. split; [lia|].
        rewrite fmap_cons, <- app_assoc. split; [done|].
        intros Hr. f_equal. by apply Hret.
      * injection H as <- <- <-. split; [done|]. exists 1%nat.
        cbn [length]. split; [lia|]. split; [done|].
        intros [? ?]; done.
    + injection H as <- <- <-. split; [done|]. exists 1%nat.
      cbn [length]. split; [lia|]. split; [done|].
      intros [? ?]; done.
Qed.

Lemma range_step_below (n step k : nat) :
  (0 < step)%nat → k ∈ Py.range_step n step → (k < n)%nat.
Proof.
  intros Hstep (j & -> & Hj)%list_elem_of_fmap.
  apply elem_of_seq in Hj.
  pose proof (Nat.div_mod_eq (n + step - 1) step) as Hdiv.
  pose proof (Nat.mod_upper_bound (n + step - 1) step) as Hmod.
  nia.
Qed.

(** X16. What [embed_batch] sends to the service: the texts in order, each
    once, in batches of at most 100, never an empty batch; when the call
    returns, all of them, in ceil(len(texts)/100) requests.  A failing
    request ends the run: no later batch is sent. *)
Theorem embed_batch_batches (texts : list string) (svc svc' : Service)
    (r : result (list (option (list Q)))) (log : list (list string)) :
  embed_batch (Spec.traced create) model texts (svc, []) = (r, (svc', log)) →
  embed_batch create model texts svc = (r, svc') ∧
  Forall (λ b, b ≠ [] ∧ (length b ≤ 100)%nat) log ∧
  (∃ rest, texts = concat log ++ rest) ∧
  (Py.returns r →
   concat log = texts ∧ length log = ((length texts + 99) / 100)%nat).
Proof.
  unfold embed_batch. destruct texts as [|t texts].
  { cbn [Py.is_empty]. intros [= <- <- <-]. split; [done|].
    split; [constructor|]. split; [by exists []|]. done. }
  cbn [Py.is_empty]. set (all := t :: texts).
  intros (Hrun & k & Hk & -> & Hret)%batch_loop_traced.
  split; [exact Hrun|]. rewrite app_nil_l.
  set (starts := Py.range_step (length all) BATCH_SIZE) in *.
  split; [|split].
  - apply Forall_fmap, Forall_forall. intros i Hi. simpl.
    apply (sublist_subseteq _ _ (sublist_take _ _)) in Hi.
    apply range_step_below in Hi; [|unfold BATCH_SIZE; lia].
    split.
    + intros Hnil. apply (f_equal length) in Hnil.
      rewrite length_take, length_drop in Hnil.
      unfold BATCH_SIZE in Hnil. cbn [length] in Hnil. lia.
    + rewrite length_take. unfold BATCH_SIZE. lia.
  - exists (concat ((λ i, take BATCH_SIZE (drop i all)) <$> drop k starts)).
    rewrite <- concat_app, <- fmap_app, take_drop.
    symmetry. apply batches_concat.
  - intros Hr. rewrite (Hret Hr), firstn_all.
    split; [apply batches_concat|].
    rewrite length_fmap. unfold starts, Py.range_step.
    rewrite length_fmap, length_seq. unfold BATCH_SIZE.
    replace (length all + 100 - 1)%nat with (length all + 99)%nat by lia.
    done.
Qed.

End WithClient.

(** *** Concrete checks *)

Lemma place_semantics_witness :
  let data := [ {| index := 2; embedding := [0.5%Q] |};
                {| index := -3; embedding := [0.25%Q] |};
                {| index := 2; embedding := [0.75%Q] |} ] in
  Forall (Spec.in_batch 3) data ∧
  place data (replicate 3 None) = OK [Some [0.25%Q]; None; Some [0.75%Q]] ∧
  ∃ r, place data (replicate 3 None) = OK r ∧ length r = 3%nat ∧
    ∀ i : nat, (i < 3)%nat →
      r !! i = Some (embedding <$>
                       last (List.filter (λ it, (Spec.slot 3 it =? Z.of_nat i)%Z) data)).
Proof.
  intros data.
  assert (Forall (Spec.in_batch 3) data) as Hin.
  { apply Forall_cons_2; [unfold Spec.in_batch; simpl; lia|].
    apply Forall_cons_2; [unfold Spec.in_batch; simpl; lia|].
    apply Forall_cons_2; [unfold Spec.in_batch; simpl; lia|]. apply Forall_nil_2. }
  split; [exact Hin|]. split; [reflexivity|].
  exact (proj1 (place_semantics 3 data) Hin).
Defined.

Lemma embed_batch_batches_witness :
  let texts := replicate 120 "ai"%string ++ replicate 130 "nlp"%string in
  ∃ r calls log,
    embed_batch (Spec.traced Examples.backwards) MODEL texts (0%nat, [])
    = (r, (calls, log)) ∧
    length <$> log = [100; 100; 50]%nat ∧
    embed_batch Examples.backwards MODEL texts 0%nat = (r, calls) ∧
    Forall (λ b, b ≠ [] ∧ (length b ≤ 100)%nat) log ∧
    (∃ rest, texts = concat log ++ rest).
Proof.
  intros texts.
  assert (∃ r calls log,
            embed_batch (Spec.traced Examples.backwards) MODEL texts (0%nat, [])
            = (r, (calls, log)) ∧ length <$> log = [100; 100; 50]%nat)
    as (r & calls & log & Hrun & Hlen)
    by (eexists _, _, _; split; vm_compute; reflexivity).
  exists r, calls, log. split; [exact Hrun|]. split; [exact Hlen|].
  destruct (embed_batch_batches Examples.backwards MODEL texts _ _ _ _ Hrun)
    as (Hsame & Hall & Hpre & _).
  split; [exact Hsame|]. split; [exact Hall | exact Hpre].
Defined.

End EmbedderInvariants.

(** ** The stored history and the detector *)

Module DatabaseFacts.
Import Database PyFacts DetectorFacts.
#[local] Open Scope Q_scope.

Lemma history_fold rows : ∀ (acc : gmap string Z) k,
  foldl (λ historical cluster,
           <[key cluster := question_count cluster]> historical) acc rows !! k
  = match last (List.filter (λ r, String.eqb (key r) k) rows) with
    | Some r => Some (question_count r)
    | None => acc !! k
    end.
Proof.
  induction rows as [|r rows IH]; intros acc k; [done|].
  cbn [foldl List.filter]. rewrite IH.
  destruct (String.eqb_spec (key r) k) as [<-|Hne].
  - rewrite last_cons. destruct (last (List.filter _ rows)); [done|].
    by rewrite lookup_insert_eq.
  - destruct (last (List.filter _ rows)); [done|].
    by rewrite lookup_insert_ne.
Qed.

Section WithSession.
Context {Session : Type}.
Variable recent_clusters : Session → list Cluster.

(** X18. [get_historical_data] is empty without a configured database;
    otherwise it maps a key to the question count of the last row of the
    query that has the key (with the newest run first, that of the oldest
    run), and has no entry for a key no row has.  The [weeks_back]
    argument plays no part. *)
Theorem historical_data_keeps_last_row (session : Session) (weeks_back : Z) :
  get_historical_data recent_clusters None weeks_back = ∅ ∧
  ∀ k, get_historical_data recent_clusters (Some session) weeks_back !! k
       = question_count
           <$> last (List.filter (λ r, String.eqb (key r) k)
                       (recent_clusters session)).
Proof.
  split; [done|]. intros k. unfold get_historical_data.
  rewrite history_fold, lookup_empty. by destruct (last _).
Qed.

(** X19. A detector given the stored history recognises a cluster by the
    first 50 characters of its canonical question, case and outer
    whitespace apart: novelty is 0.3 exactly when some stored row has the
    cluster's key, and then velocity compares the cluster's size with
    the count of the last such row (when that is not 0). *)
Theorem detector_on_stored_history (session : Session) (weeks_back : Z)
    (threshold : option Q) (c : Clusterer.QuestionCluster) :
  let self := Detector.__init__ threshold
                (Some (get_historical_data recent_clusters (Some session)
                         weeks_back)) in
  (Detector._calc_novelty self c = 0.3
   ↔ ∃ r, r ∈ recent_clusters session ∧ key r = Detector._get_cluster_key c) ∧
  (Detector._calc_novelty self c = 1.0
   ↔ ∀ r, r ∈ recent_clusters session → key r ≠ Detector._get_cluster_key c) ∧
  ∀ r, last (List.filter (λ r, String.eqb (key r) (Detector._get_cluster_key c))
               (recent_clusters session)) = Some r →
       question_count r ≠ 0%Z →
       let pct := inject_Z (Detector.len_questions c - question_count r)
                  / inject_Z (question_count r) * 100 in
       Detector._calc_velocity self c
       = OK (Detector.velocity_of_pct pct, pct).
Proof.
  intros self.
  assert (∀ k, Detector.historical_data self !! k
               = question_count
                   <$> last (List.filter (λ r, String.eqb (key r) k)
                               (recent_clusters session))) as Hlook.
  { intros k. unfold self, Detector.__init__. cbn [Detector.historical_data].
    simpl. unfold get_historical_data.
    rewrite history_fold, lookup_empty. by destruct (last _). }
  assert (∀ k, last (List.filter (λ r, String.eqb (key r) k)
                       (recent_clusters session)) = None
               ↔ ∀ r, r ∈ recent_clusters session → key r ≠ k) as Hnone.
  { intros k. rewrite last_None. split.
    - intros Hnil r Hin Hk.
      assert (In r (List.filter (λ r, String.eqb (key r) k)
                      (recent_clusters session))) as Hf.
      { apply List.filter_In. split; [by apply list_elem_of_In|].
        by apply String.eqb_eq. }
      by rewrite Hnil in Hf.
    - intros Hall.
      destruct (List.filter _ _) as [|r l] eqn:Hf; [done|].
      assert (In r (List.filter (λ r, String.eqb (key r) k)
                      (recent_clusters session))) as Hin
        by (rewrite Hf; by left).
      apply List.filter_In in Hin as [Hin Hk].
      apply String.eqb_eq in Hk. apply list_elem_of_In in Hin.
      by destruct (Hall r Hin). }
  split; [|split].
  - unfold Detector._calc_novelty. rewrite Hlook.
    destruct (last _) as [r|] eqn:Hlast; simpl.
    + split; [intros _|done].
      assert (In r (List.filter
                 (λ r, String.eqb (key r) (Detector._get_cluster_key c))
                 (recent_clusters session))) as Hin.
      { apply list_elem_of_In. by eapply last_Some_elem_of. }
      apply List.filter_In in Hin as [Hin Hk].
      exists r. split; [by apply list_elem_of_In | by apply String.eqb_eq].
    + split; [done|]. intros (r & Hin & Hk).
      pose proof (proj1 (Hnone _) Hlast) as Hall. by destruct (Hall r Hin).
  - unfold Detector._calc_novelty. rewrite Hlook.
    destruct (last _) as [r|] eqn:Hlast; simpl.
    + split; [done|]. intros Hall. exfalso.
      assert (In r (List.filter
                 (λ r, String.eqb (key r) (Detector._get_cluster_key c))
                 (recent_clusters session))) as Hin.
      { apply list_elem_of_In. by eapply last_Some_elem_of. }
      apply List.filter_In in Hin as [Hin Hk].
      apply String.eqb_eq in Hk. apply list_elem_of_In in Hin.
      by destruct (Hall r Hin).
    + split; [intros _|done]. exact (proj1 (Hnone _) Hlast).
  - intros r Hlast Hnz pct.
    apply (calc_velocity_seen self c (question_count r)); [|done].
    by rewrite Hlook, Hlast.
Qed.

End WithSession.

(** *** Concrete check: a cluster that recurs unchanged *)

Lemma detector_on_stored_history_witness :
  let self := Detector.__init__ None
                (Some (get_historical_data Examples.stored_rows (Some ()) 1)) in
  let pct := inject_Z (3 - 3) / inject_Z 3 * 100 in
  Detector._calc_novelty self Examples.vision = 0.3 ∧
  Detector._calc_velocity self Examples.vision
  = OK (Detector.velocity_of_pct pct, pct) ∧
  Detector.velocity_of_pct pct == 0.5.
Proof.
  intros self pct.
  destruct (detector_on_stored_history Examples.stored_rows () 1 None
              Examples.vision) as (Hn & _ & Hv).
  split; [|split].
  - apply Hn. exists (db_cluster Examples.vision).
    split; [left | vm_compute; reflexivity].
  - apply (Hv (db_cluster Examples.vision)); [vm_compute; reflexivity | done].
  - vm_compute; reflexivity.
Defined.

End DatabaseFacts.

(** ** The pipeline script: steps 5, 7 and 8 together *)

Module PipelineFacts.
Import Pipeline PyFacts.

Lemma attach_in_order (E : string → list Q) question_dicts : ∀ pre texts,
  Forall2 (λ (q : pydict) t, q !! "normalized_text"%string = Some (VStr t))
    question_dicts texts →
  attach question_dicts (length pre) (pre ++ (Some ∘ E <$> texts))
  = OK (zip_with (λ (q : pydict) t, <["embedding" := VVec (E t)]> q)
          question_dicts texts).
Proof.
  induction question_dicts as [|q qs IH]; intros pre texts Hq.
  { by apply Forall2_nil_inv_l in Hq as ->. }
  apply Forall2_cons_inv_l in Hq as (t & texts' & Ht & Hq & ->).
  cbn [attach]. unfold Py.index.
  rewrite lookup_app_r, Nat.sub_diag by lia. cbn [fmap list_fmap lookup].
  simpl.
  specialize (IH (pre ++ [Some (E t)]) texts' Hq).
  rewrite length_app, Nat.add_1_r, <- app_assoc in IH. cbn [app] in IH.
  change ((Some ∘ E) t) with (Some (E t)).
  by rewrite IH.
Qed.

Lemma typed_after_attach d (q : pydict) v :
  Spec.typed_fields q → length v = d →
  Spec.typed_question d (<["embedding" := VVec v]> q).
Proof.
  intros ([s Hs] & Hp & Hu & Hc & Ht) Hlen. split.
  { exists v. by rewrite lookup_insert_eq. }
  unfold Spec.typed_fields, Py.get in *.
  rewrite !lookup_insert_ne by done. eauto 6.
Qed.

Lemma engagement_after_attach (q : pydict) v :
  Spec.engagement_of (<["embedding" := v]> q) = Spec.engagement_of q.
Proof.
  unfold Spec.engagement_of, Py.get. by rewrite !lookup_insert_ne.
Qed.

Section WithServices.
Context {Service : Type}.
Variable create : Service → string → list string
                  → result (list Embedder.Item) * Service.
Variable fit_predict : Z → Z → string → list (list Q) → result (list Z).

Lemma generate_embeddings_in_order E question_dicts texts svc :
  Spec.answers_in_any_order create Embedder.MODEL E →
  Forall2 (λ (q : pydict) t, q !! "normalized_text"%string = Some (VStr t))
    question_dicts texts →
  ∃ svc',
    generate_embeddings create question_dicts svc
    = (OK (zip_with (λ (q : pydict) t, <["embedding" := VVec (E t)]> q)
             question_dicts texts), svc').
Proof.
  intros Hsvc Hq. unfold generate_embeddings.
  assert (Py.for_each
            (λ q : pydict, v ← Py.getitem q "normalized_text"; Py.as_str v)
            question_dicts = OK texts) as ->.
  { induction Hq as [|q t qs ts Hqt _ IH]; [done|].
    cbn [Py.for_each].
    assert (Py.getitem q "normalized_text" = OK (VStr t)) as ->
      by (unfold Py.getitem; by rewrite Hqt).
    simpl. by rewrite IH. }
  assert (∃ svc', Embedder.embed_batch create Embedder.MODEL texts svc
                  = (OK (Some ∘ E <$> texts), svc')) as [svc' ->].
  { unfold Embedder.embed_batch. destruct texts as [|t texts]; [by exists svc|].
    cbn [Py.is_empty].
    destruct (EmbedderFacts.batch_loop_in_order create Embedder.MODEL E
                (t :: texts)
                (Py.range_step (length (t :: texts)) Embedder.BATCH_SIZE)
                [] svc Hsvc) as (svc' & ->).
    exists svc'. by rewrite EmbedderFacts.batches_concat. }
  exists svc'. f_equal. exact (attach_in_order E question_dicts [] texts Hq).
Qed.

(** X20. Steps 5, 7 and 8 of the pipeline script compose without an
    exception on well-formed input.  If every question record has a
    normalized text, a [raw_text] and well-typed optional fields, the
    engagement counts of all questions together are within the range of a
    float, the embedding service answers each batch with one vector per
    text (in any order, all of one dimension) and the clustering library
    with one label per row, then step 5 gives every question the vector of
    its own normalized text, and clustering and detection return one signal
    per cluster, with the real signals a prefix of the signals. *)
Theorem pipeline_steps_return (E : string → list Q) (d : nat)
    (question_dicts : list pydict) (svc : Service) :
  Forall (λ q : pydict, Spec.typed_fields q
                        ∧ is_Some (q !! "raw_text"%string)) question_dicts →
  Spec.engagement_sum_in_range question_dicts →
  Spec.answers_in_any_order create Embedder.MODEL E →
  (∀ t, length (E t) = d) →
  (∀ embeddings, ∃ labels,
     fit_predict 3 2 "euclidean"%string embeddings = OK labels ∧
     length labels = length embeddings) →
  ∃ embedded svc' analysis,
    generate_embeddings create question_dicts svc = (OK embedded, svc') ∧
    Forall2 (λ (q q' : pydict),
               ∃ t, q !! "normalized_text"%string = Some (VStr t)
                    ∧ q' = <["embedding" := VVec (E t)]> q)
      question_dicts embedded ∧
    cluster_and_detect fit_predict embedded = OK analysis ∧
    length (signals analysis) = length (clusters analysis) ∧
    real_signals analysis
    = take (length (real_signals analysis)) (signals analysis).
Proof.
  intros Hq Hsum Hsvc Hdim Hfit.
  assert (∃ texts,
            Forall2 (λ (q : pydict) t,
                       q !! "normalized_text"%string = Some (VStr t))
              question_dicts texts) as [texts Htexts].
  { clear -Hq. induction Hq as [|q qs [([t Ht] & _) _] _ [texts IH]].
    - by exists [].
    - exists (t :: texts). by constructor. }
  destruct (generate_embeddings_in_order E question_dicts texts svc Hsvc Htexts)
    as [svc' Hgen].
  set (embedded := zip_with (λ (q : pydict) t, <["embedding" := VVec (E t)]> q)
                     question_dicts texts) in *.
  assert (Forall2 (λ (q q' : pydict),
                     ∃ t, q !! "normalized_text"%string = Some (VStr t)
                          ∧ q' = <["embedding" := VVec (E t)]> q)
            question_dicts embedded) as Hemb.
  { unfold embedded. clear -Htexts.
    induction Htexts as [|q t qs ts Hqt _ IH]; [constructor|].
    cbn [zip_with]. constructor; [by exists t | exact IH]. }
  assert (Forall (λ q' : pydict, Spec.typed_question d q'
                                 ∧ is_Some (q' !! "raw_text"%string)) embedded)
    as Htyped.
  { eapply Forall2_Forall_r; [exact Hemb|].
    eapply Forall_impl; [exact Hq|].
    intros q [Hf Hraw] q' (t & _ & ->). split.
    - by apply typed_after_attach.
    - by rewrite lookup_insert_ne. }
  destruct (ClustererInvariants.cluster_returns fit_predict
              (Clusterer.__init__ None None None None) embedded d)
    as [cs Hcs].
  { eapply Forall_impl; [exact Htyped|]. by intros q' [? _]. }
  { intros embeddings _. apply Hfit. }
  assert (Spec.engagement_sum_in_range embedded) as Hsum'.
  { unfold Spec.engagement_sum_in_range in *.
    enough (foldr (λ q s, Z.abs (Spec.engagement_of q) + s)%Z 0%Z embedded
            = foldr (λ q s, Z.abs (Spec.engagement_of q) + s)%Z 0%Z
                question_dicts) as -> by done.
    clear -Hemb. induction Hemb as [|q q' qs qs' (t & _ & ->) _ IH]; [done|].
    cbn [foldr]. rewrite IH. by rewrite engagement_after_attach. }
  destruct (DetectorInvariants.detect_returns (Detector.__init__ None None) cs)
    as (sigs & self' & Hdet & Hlen);
    [|exact (ClustererInvariants.cluster_in_range _ _ _ _ Hcs Hsum')|].
  { eapply Forall_impl;
      [exact (ClustererInvariants.cluster_members _ _ _ _ Hcs)|].
    intros c [Hne Hsub]. split; [done|].
    apply Forall_forall. intros q' Hin. rewrite Forall_forall in Htyped.
    apply Htyped, Hsub.
    by eapply (sublist_subseteq _ _ (sublist_take _ 5)). }
  exists embedded, svc'. eexists. split; [exact Hgen|]. split; [exact Hemb|].
  unfold cluster_and_detect. rewrite Hcs. simpl. rewrite Hdet. simpl.
  split; [reflexivity|]. split; [exact Hlen|].
  pose proof (DetectorInvariants.descending_threshold_split
                Detector.final_score Detector.is_signal
                (Detector.threshold (Detector.__init__ None None)) sigs
                (DetectorInvariants.detect_descending _ _ _ _ Hdet)
                (DetectorInvariants.detect_is_signal _ _ _ _ Hdet)) as Hsplit.
  cbn [real_signals signals].
  set (real := List.filter Detector.is_signal sigs) in *.
  set (rest := List.filter (λ s, negb (Detector.is_signal s)) sigs) in *.
  clearbody real rest. subst sigs. by rewrite take_app_length.
Qed.

End WithServices.

(** *** Concrete check *)

Lemma pipeline_steps_return_witness :
  ∃ embedded calls analysis,
    generate_embeddings Examples.backwards Examples.normalized_questions 0%nat
    = (OK embedded, calls) ∧
    cluster_and_detect Examples.one_cluster embedded = OK analysis ∧
    length (signals analysis) = length (clusters analysis) ∧
    real_signals analysis
    = take (length (real_signals analysis)) (signals analysis).
Proof.
  destruct (pipeline_steps_return Examples.backwards Examples.one_cluster
              Examples.length_vector 1 Examples.normalized_questions 0%nat)
    as (embedded & calls & analysis & Hgen & _ & Hrun & Hlen & Hreal).
  - apply Forall_cons_2; [|apply Forall_cons_2; [|apply Forall_cons_2;
      [|apply Forall_nil_2]]].
    all: split; [|by vm_compute; eexists].
    all: split; [eexists; vm_compute; reflexivity|].
    all: split; [eexists; vm_compute; reflexivity|].
    all: split; [eexists; vm_compute; reflexivity|].
    all: split; [eexists; vm_compute; reflexivity|].
    all: vm_compute; discriminate.
  - vm_compute; reflexivity.
  - apply EmbedderFacts.backwards_answers_in_any_order.
  - reflexivity.
  - intros embeddings. eexists. split; [reflexivity|]. apply length_replicate.
  - exists embedded, calls, analysis. by repeat split.
Defined.

End PipelineFacts.

(** ** More on the normalizer: what the output always looks like *)

Module NormalizerInvariants.
Import Re Normalizer.

(** *** Characters *)

Ltac each_char c :=
  destruct c as [[] [] [] [] [] [] [] []]; vm_compute; try reflexivity.

Lemma lower_char_idem c : Py.lower_char (Py.lower_char c) = Py.lower_char c.
Proof. each_char c. Qed.

Lemma isspace_lower_char c : Py.isspace (Py.lower_char c) = Py.isspace c.
Proof. each_char c. Qed.

Lemma lower_char_question c :
  Ascii.eqb "?" (Py.lower_char c) = Ascii.eqb "?" c.
Proof. each_char c. Qed.

(** *** Strings as character lists *)

Lemma chars_str l : Py.chars (Py.str l) = l.
Proof. apply list_ascii_of_string_of_list_ascii. Qed.

Lemma str_chars s : Py.str (Py.chars s) = s.
Proof. apply string_of_list_ascii_of_string. Qed.

Lemma chars_append a b :
  Py.chars (String.append a b) = Py.chars a ++ Py.chars b.
Proof. induction a as [|c a IH]; simpl; [done|]. by f_equal. Qed.

(** *** Stripping *)

Section Strip.
Variable p : ascii → bool.

Lemma lstrip_idem l : Py.lstrip_chars p (Py.lstrip_chars p l) = Py.lstrip_chars p l.
Proof.
  induction l as [|c l IH]; [done|]. simpl.
  destruct (p c) eqn:Hc; [done|]. simpl. by rewrite Hc.
Qed.

Lemma lstrip_snoc l c :
  p c = false → Py.lstrip_chars p (l ++ [c]) = Py.lstrip_chars p l ++ [c].
Proof.
  intros Hc. induction l as [|x l IH]; simpl; [by rewrite Hc|].
  by destruct (p x).
Qed.

Lemma rstrip_cons l c :
  p c = false → Py.rstrip_chars p (c :: l) = c :: Py.rstrip_chars p l.
Proof.
  intros Hc. unfold Py.rstrip_chars. simpl.
  by rewrite (lstrip_snoc _ _ Hc), rev_app_distr.
Qed.

Lemma rstrip_idem l : Py.rstrip_chars p (Py.rstrip_chars p l) = Py.rstrip_chars p l.
Proof.
  unfold Py.rstrip_chars. by rewrite rev_involutive, lstrip_idem.
Qed.

Lemma lstrip_rstrip_lstrip l :
  Py.lstrip_chars p (Py.rstrip_chars p (Py.lstrip_chars p l))
  = Py.rstrip_chars p (Py.lstrip_chars p l).
Proof.
  assert (∀ m, Py.lstrip_chars p m = m →
               Py.lstrip_chars p (Py.rstrip_chars p m) = Py.rstrip_chars p m) as H.
  { intros [|c m] Hm; [done|]. simpl in Hm.
    destruct (p c) eqn:Hc.
    - exfalso. clear -Hm. revert c Hm.
      induction m as [|x m IH]; intros c Hm; [done|].
      simpl in Hm. destruct (p x); [|by apply (f_equal length) in Hm; simpl in Hm; lia].
      apply (f_equal length) in Hm.
      assert (∀ l, length (Py.lstrip_chars p l) ≤ length l) as Hle.
      { clear. induction l as [|y l IHl]; simpl; [lia|].
        destruct (p y); simpl; lia. }
      specialize (Hle m). simpl in Hm. lia.
    - rewrite (rstrip_cons _ _ Hc). simpl. by rewrite Hc. }
  apply H, lstrip_idem.
Qed.

Lemma lstrip_suffix l : ∃ sp, l = sp ++ Py.lstrip_chars p l ∧ Forall (λ c, p c = true) sp.
Proof.
  induction l as [|c l (sp & Hl & Hsp)]; [by exists []|]. simpl.
  destruct (p c) eqn:Hc.
  - exists (c :: sp). split; [simpl; by f_equal | by constructor].
  - by exists [].
Qed.

Lemma rstrip_prefix l : ∃ sp, l = Py.rstrip_chars p l ++ sp ∧ Forall (λ c, p c = true) sp.
Proof.
  destruct (lstrip_suffix (rev l)) as (sp & Hl & Hsp).
  exists (rev sp). split.
  - unfold Py.rstrip_chars. rewrite <- rev_app_distr, <- Hl.
    by rewrite rev_involutive.
  - by apply Forall_rev.
Qed.

Lemma lstrip_map (f : ascii → ascii) l :
  (∀ c, p (f c) = p c) →
  map f (Py.lstrip_chars p l) = Py.lstrip_chars p (map f l).
Proof.
  intros Hf. induction l as [|c l IH]; [done|]. simpl.
  rewrite Hf. by destruct (p c).
Qed.

Lemma rstrip_map (f : ascii → ascii) l :
  (∀ c, p (f c) = p c) →
  map f (Py.rstrip_chars p l) = Py.rstrip_chars p (map f l).
Proof.
  intros Hf. unfold Py.rstrip_chars.
  by rewrite map_rev, (lstrip_map _ _ Hf), map_rev.
Qed.

Lemma last_lstrip l c :
  last l = Some c → p c = false → last (Py.lstrip_chars p l) = Some c.
Proof.
  intros Hl Hc. destruct (lstrip_suffix l) as (sp & Heq & Hsp).
  destruct (Py.lstrip_chars p l) as [|x m] eqn:Hm.
  - rewrite app_nil_r in Heq. subst sp. rewrite Forall_forall in Hsp.
    rewrite (Hsp c) in Hc; [done|]. by eapply last_Some_elem_of.
  - rewrite Heq in Hl. by rewrite last_app_cons in Hl.
Qed.

Lemma rstrip_last l c :
  last l = Some c → p c = false → Py.rstrip_chars p l = l.
Proof.
  intros Hl Hc. unfold Py.rstrip_chars.
  apply last_Some in Hl as [l' ->].
  rewrite rev_app_distr. simpl. rewrite Hc. simpl.
  by rewrite rev_involutive.
Qed.

End Strip.

Lemma strip_idem s : Py.strip (Py.strip s) = Py.strip s.
Proof.
  unfold Py.strip. rewrite chars_str.
  by rewrite lstrip_rstrip_lstrip, rstrip_idem.
Qed.

Lemma lower_idem s : Py.lower (Py.lower s) = Py.lower s.
Proof.
  unfold Py.lower. rewrite chars_str, map_map. f_equal.
  apply map_ext, lower_char_idem.
Qed.

Lemma lower_strip s : Py.lower (Py.strip s) = Py.strip (Py.lower s).
Proof.
  unfold Py.lower, Py.strip. rewrite !chars_str. f_equal.
  rewrite (rstrip_map _ _ _ isspace_lower_char).
  by rewrite (lstrip_map _ _ _ isspace_lower_char).
Qed.

(** X21. The normalizer's output has no whitespace at either end (stripping
    it again changes nothing), and with [lowercase=True] it is in lower
    case. *)
Theorem normalize_stripped_and_lowered (text : string)
    (platform : option string) (lowercase : bool) :
  Py.strip (normalize text platform lowercase) = normalize text platform lowercase
  ∧ Py.lower (normalize text platform true) = normalize text platform true.
Proof.
  unfold normalize. split.
  - destruct (String.eqb text ""); [done|]. cbv zeta. apply strip_idem.
  - destruct (String.eqb text ""); [done|]. cbv zeta.
    by rewrite lower_strip, lower_idem.
Qed.

(** *** Blank input *)

Lemma lstrip_all (p : ascii → bool) l :
  Forall (λ c, p c = true) l → Py.lstrip_chars p l = [].
Proof. induction 1 as [|c l Hc _ IH]; [done|]. simpl. by rewrite Hc. Qed.

(** X22. A text of whitespace only normalizes to the empty string, for
    every platform and either setting of [lowercase]. *)
Theorem normalize_blank (text : string) (platform : option string)
    (lowercase : bool) :
  Forall (λ c, Py.isspace c = true) (Py.chars text) →
  normalize text platform lowercase = ""%string.
Proof.
  intros Hblank. unfold normalize.
  destruct (String.eqb text ""); [done|]. cbv zeta.
  assert (Py.strip text = ""%string) as ->.
  { unfold Py.strip. by rewrite (lstrip_all _ _ Hblank). }
  destruct platform as [p|].
  - destruct (String.eqb p ""); [destruct lowercase; vm_compute; reflexivity|].
    unfold PLATFORM_ARTIFACTS.
    destruct (String.eqb p "reddit");
      [destruct lowercase; vm_compute; reflexivity|].
    destruct (String.eqb p "stackexchange");
      destruct lowercase; vm_compute; reflexivity.
  - destruct lowercase; vm_compute; reflexivity.
Qed.

(** *** The closing question mark *)

Lemma split_loop_trailing sp :
  Forall (λ c, Py.isspace c = true) sp →
  ∀ m w, split_loop w (m ++ sp) = split_loop w m.
Proof.
  intros Hsp. induction m as [|c m IH]; intros w.
  - simpl. revert w. induction Hsp as [|c sp Hc _ IH]; intros w; [done|].
    cbn [split_loop]. rewrite Hc, IH. simpl. by rewrite app_nil_r.
  - cbn [app split_loop]. destruct (Py.isspace c); by rewrite IH.
Qed.

Lemma split_loop_leading l :
  split_loop [] (Py.lstrip_chars Py.isspace l) = split_loop [] l.
Proof.
  induction l as [|c l IH]; [done|]. cbn [Py.lstrip_chars split_loop].
  destruct (Py.isspace c) eqn:Hc; [done|].
  cbn [split_loop]. by rewrite Hc.
Qed.

Lemma split_strip s : split (Py.strip s) = split s.
Proof.
  unfold split, Py.strip. rewrite chars_str. f_equal.
  destruct (rstrip_prefix Py.isspace (Py.lstrip_chars Py.isspace (Py.chars s)))
    as (sp & Heq & Hsp).
  rewrite <- (split_loop_leading (Py.chars s)). rewrite Heq at 2.
  by rewrite (split_loop_trailing sp Hsp).
Qed.

Lemma first_word_strip s : Spec.first_word (Py.strip s) = Spec.first_word s.
Proof. unfold Spec.first_word. by rewrite lower_strip, split_strip. Qed.

Lemma first_word_lower s : Spec.first_word (Py.lower s) = Spec.first_word s.
Proof. unfold Spec.first_word. by rewrite lower_idem. Qed.

Lemma contains_strip s c :
  contains (Py.strip s) c = true → contains s c = true.
Proof.
  unfold contains, Py.strip. rewrite chars_str, !existsb_exists.
  intros (x & Hin & Hx). exists x. split; [|done].
  destruct (rstrip_prefix Py.isspace (Py.lstrip_chars Py.isspace (Py.chars s)))
    as (sp & Heq & _).
  destruct (lstrip_suffix Py.isspace (Py.chars s)) as (sp' & Heq' & _).
  rewrite Heq', Heq. apply in_or_app. right. apply in_or_app. by left.
Qed.

Lemma contains_lower_question s :
  contains (Py.lower s) "?" = contains s "?".
Proof.
  unfold contains, Py.lower. rewrite chars_str.
  induction (Py.chars s) as [|c l IH]; [done|]. cbn [map existsb].
  by rewrite lower_char_question, IH.
Qed.

Lemma endswith_lower_question s :
  endswith s "?" = true → endswith (Py.lower s) "?" = true.
Proof.
  unfold endswith, Py.lower. rewrite chars_str.
  destruct (last (Py.chars s)) as [c|] eqn:Hl; [|done].
  apply last_Some in Hl as [l' ->].
  rewrite map_app. cbn [map]. rewrite !last_snoc.
  by rewrite lower_char_question.
Qed.

Lemma endswith_strip_question s :
  endswith s "?" = true → endswith (Py.strip s) "?" = true.
Proof.
  unfold endswith, Py.strip. rewrite chars_str.
  destruct (last (Py.chars s)) as [c|] eqn:Hl; [|done].
  intros Hc. apply Ascii.eqb_eq in Hc as <-.
  rewrite (rstrip_last Py.isspace _ "?"); [| |done].
  - by rewrite (last_lstrip _ _ _ Hl).
  - by apply last_lstrip.
Qed.

Lemma endswith_append_question s :
  endswith (String.append s "?") "?" = true.
Proof.
  unfold endswith. rewrite chars_append.
  change (Py.chars "?") with ["?"%char]. by rewrite last_snoc.
Qed.

Lemma is_question_structure_unfold text :
  _is_question_structure text
  = existsb (String.eqb (Spec.first_word text)) question_starters
    || contains text "?".
Proof. done. Qed.

Lemma question_mark_kept (r : string) (lowercase : bool) :
  let marked :=
    if _is_question_structure r && negb (endswith r "?")
    then String.append (rstrip_dots r) "?" else r in
  let out := Py.strip (if lowercase then Py.lower marked else marked) in
  _is_question_structure out = true → endswith out "?" = true.
Proof.
  intros marked out Hq.
  destruct (_is_question_structure r) eqn:Hr.
  - assert (endswith marked "?" = true) as Hm.
    { unfold marked. destruct (endswith r "?") eqn:He; simpl; [done|].
      apply endswith_append_question. }
    unfold out. apply endswith_strip_question.
    destruct lowercase; [by apply endswith_lower_question | done].
  - exfalso. assert (marked = r) as Hm by done.
    unfold out in Hq. rewrite Hm in Hq.
    rewrite is_question_structure_unfold in Hq, Hr.
    apply orb_false_iff in Hr as [Hfw Hc].
    rewrite first_word_strip in Hq.
    assert (Spec.first_word (if lowercase then Py.lower r else r) = Spec.first_word r)
      as Hfw' by (destruct lowercase; [apply first_word_lower | done]).
    rewrite Hfw', Hfw in Hq. simpl in Hq.
    apply contains_strip in Hq.
    destruct lowercase; [rewrite contains_lower_question in Hq|]; congruence.
Qed.

(** X23. A normalized text that has question structure (it starts with a
    question word or contains a question mark) ends with a question mark. *)
Theorem question_structure_ends_with_mark (text : string)
    (platform : option string) (lowercase : bool) :
  _is_question_structure (normalize text platform lowercase) = true →
  endswith (normalize text platform lowercase) "?" = true.
Proof.
  unfold normalize. destruct (String.eqb text ""); [done|]. cbv zeta.
  apply question_mark_kept.
Qed.

(** *** Concrete checks *)

Lemma normalize_blank_witness :
  Forall (λ c, Py.isspace c = true) (Py.chars "   ") ∧
  normalize "   " (Some "reddit"%string) true = ""%string.
Proof.
  assert (Forall (λ c, Py.isspace c = true) (Py.chars "   ")) as Hblank.
  { apply Forall_cons_2; [reflexivity|]. apply Forall_cons_2; [reflexivity|].
    apply Forall_cons_2; [reflexivity|]. apply Forall_nil_2. }
  split; [exact Hblank|].
  exact (normalize_blank "   " (Some "reddit"%string) true Hblank).
Defined.

Lemma question_structure_ends_with_mark_witness :
  normalize "  How do transformers work...  " None true
  = "how do transformers work?"%string ∧
  endswith (normalize "  How do transformers work...  " None true) "?" = true.
Proof.
  split; [vm_compute; reflexivity|].
  apply (question_structure_ends_with_mark "  How do transformers work...  "
           None true).
  vm_compute; reflexivity.
Defined.

End NormalizerInvariants.
